(** * fb-messages-parser: a shallow embedding of [main.py]

    The script reads the chunk files of a chat export, repairs the text
    encoding of every string, merges the chunks of a conversation and
    writes the result to an SQLite database.  This file models the Python
    values the script handles (decoded JSON values, [str] as a list of
    code points, [bytes] as a list of octets), the exceptions it can raise,
    the two codecs it calls, and then each function of [main.py] in the
    order of the source. *)

From Stdlib Require Import ZArith Zbitwise List Bool Lia String Ascii.
Import ListNotations.
Open Scope Z_scope.
Set Warnings "-register-all".

(** * Part I: the program *)

(** ** Python values *)

(** A [str] is a sequence of code points, a [bytes] a sequence of octets. *)
Definition pystr := list Z.
Definition pybytes := list Z.

(** String literals of the source, such as ['title'] or ['.json']. *)
Definition lit (s : string) : pystr :=
  map (fun a => Z.of_N (N_of_ascii a)) (list_ascii_of_string s).

(** The exceptions that the modelled code can raise. *)
Inductive exn : Type :=
| KeyError | TypeError | AttributeError | AssertionError
| UnicodeEncodeError | UnicodeDecodeError
| OverflowError | InterfaceError | IntegrityError.

Inductive result (A : Type) : Type :=
| OK (a : A)
| Raise (e : exn).
Arguments OK {A} a.
Arguments Raise {A} e.

Definition rbind {A B} (m : result A) (f : A -> result B) : result B :=
  match m with
  | OK a => f a
  | Raise e => Raise e
  end.

Declare Scope result_scope.
Delimit Scope result_scope with result.
Notation "x <- m ;; k" := (rbind m (fun x => k))
  (at level 61, m at next level, right associativity) : result_scope.

Fixpoint rmap {A B} (f : A -> result B) (l : list A) : result (list B) :=
  match l with
  | [] => OK []
  | x :: r =>
      (y <- f x ;; ys <- rmap f r ;; OK (y :: ys))%result
  end.

(** ** The codecs: [str.encode('latin_1')] and [bytes.decode('utf-8')] *)

Module Codec.

(** [s.encode('latin_1')]: one octet per code point, [UnicodeEncodeError]
    on a code point above U+00FF. *)
Definition latin_1_encode_char (c : Z) : result Z :=
  if (0 <=? c) && (c <? 256) then OK c else Raise UnicodeEncodeError.

Definition latin_1_encode (s : pystr) : result pybytes :=
  rmap latin_1_encode_char s.

(** [b.decode('latin_1')]: every octet is the code point of the same value. *)
Definition latin_1_decode (b : pybytes) : pystr := b.

(** [s.encode('utf-8')] for one code point; lone surrogates are refused. *)
Definition utf_8_encode_char (c : Z) : result pybytes :=
  if c <? 0 then Raise UnicodeEncodeError
  else if c <? 0x80 then OK [c]
  else if c <? 0x800 then
    OK [Z.lor 0xC0 (Z.shiftr c 6); Z.lor 0x80 (Z.land c 0x3F)]
  else if c <? 0x10000 then
    if (0xD800 <=? c) && (c <=? 0xDFFF) then Raise UnicodeEncodeError
    else OK [Z.lor 0xE0 (Z.shiftr c 12);
             Z.lor 0x80 (Z.land (Z.shiftr c 6) 0x3F);
             Z.lor 0x80 (Z.land c 0x3F)]
  else if c <? 0x110000 then
    OK [Z.lor 0xF0 (Z.shiftr c 18);
        Z.lor 0x80 (Z.land (Z.shiftr c 12) 0x3F);
        Z.lor 0x80 (Z.land (Z.shiftr c 6) 0x3F);
        Z.lor 0x80 (Z.land c 0x3F)]
  else Raise UnicodeEncodeError.

Fixpoint utf_8_encode (s : pystr) : result pybytes :=
  match s with
  | [] => OK []
  | c :: r =>
      (bs <- utf_8_encode_char c ;; rest <- utf_8_encode r ;;
       OK (bs ++ rest))%result
  end.

Definition is_continuation (b : Z) : bool := (0x80 <=? b) && (b <? 0xC0).

(** [b.decode('utf-8')] in strict mode: overlong forms, surrogates, code
    points above U+10FFFF, stray continuation octets and truncated
    sequences all raise [UnicodeDecodeError]. *)
Fixpoint utf_8_decode (b : pybytes) : result pystr :=
  match b with
  | [] => OK []
  | b0 :: r0 =>
      if b0 <? 0x80 then
        (s <- utf_8_decode r0 ;; OK (b0 :: s))%result
      else if b0 <? 0xC2 then Raise UnicodeDecodeError
      else
        match r0 with
        | [] => Raise UnicodeDecodeError
        | b1 :: r1 =>
            if negb (is_continuation b1) then Raise UnicodeDecodeError
            else if b0 <? 0xE0 then
              (s <- utf_8_decode r1 ;;
               OK (Z.lor (Z.shiftl (Z.land b0 0x1F) 6) (Z.land b1 0x3F)
                     :: s))%result
            else
              match r1 with
              | [] => Raise UnicodeDecodeError
              | b2 :: r2 =>
                  if negb (is_continuation b2) then Raise UnicodeDecodeError
                  else if b0 <? 0xF0 then
                    if ((b0 =? 0xE0) && (b1 <? 0xA0))
                       || ((b0 =? 0xED) && (0xA0 <=? b1))
                    then Raise UnicodeDecodeError
                    else
                      (s <- utf_8_decode r2 ;;
                       OK (Z.lor
                             (Z.lor (Z.shiftl (Z.land b0 0x0F) 12)
                                    (Z.shiftl (Z.land b1 0x3F) 6))
                             (Z.land b2 0x3F) :: s))%result
                  else
                    match r2 with
                    | [] => Raise UnicodeDecodeError
                    | b3 :: r3 =>
                        if negb (is_continuation b3)
                        then Raise UnicodeDecodeError
                        else if 0xF5 <=? b0 then Raise UnicodeDecodeError
                        else if ((b0 =? 0xF0) && (b1 <? 0x90))
                                || ((b0 =? 0xF4) && (0x90 <=? b1))
                        then Raise UnicodeDecodeError
                        else
                          (s <- utf_8_decode r3 ;;
                           OK (Z.lor
                                 (Z.lor
                                    (Z.lor (Z.shiftl (Z.land b0 0x07) 18)
                                           (Z.shiftl (Z.land b1 0x3F) 12))
                                    (Z.shiftl (Z.land b2 0x3F) 6))
                                 (Z.land b3 0x3F) :: s))%result
                    end
              end
        end
  end.

End Codec.

(** ** Decoded JSON values *)

(** What [json.load] returns: [None], [bool], [int], [str], [list] and
    [dict].  A [dict] keeps its keys in insertion order, so it is an
    association list.  Fractional numbers do not occur in the export. *)
Inductive json : Type :=
| JNull
| JBool (b : bool)
| JInt (z : Z)
| JStr (s : pystr)
| JList (l : list json)
| JObj (o : list (pystr * json)).

Definition pystr_eqb (a b : pystr) : bool :=
  if list_eq_dec Z.eq_dec a b then true else false.

(** ** [parseJsonObject] and its repair step *)

(** [x.encode('latin_1').decode('utf-8')] *)
Definition repair (s : pystr) : result pystr :=
  (b <- Codec.latin_1_encode s ;; Codec.utf_8_decode b)%result.

(** The lambda of line 22: strings are repaired, other elements kept. *)
Definition repair_element (x : json) : result json :=
  match x with
  | JStr s => (t <- repair s ;; OK (JStr t))%result
  | _ => OK x
  end.

(** One iteration of the loop over the keys (lines 19 to 22). *)
Definition repair_field (v : json) : result json :=
  match v with
  | JStr s => (t <- repair s ;; OK (JStr t))%result
  | JList l => (l' <- rmap repair_element l ;; OK (JList l'))%result
  | _ => OK v
  end.

Definition parseJsonObject (obj : list (pystr * json))
  : result (list (pystr * json)) :=
  rmap (fun kv => (v <- repair_field (snd kv) ;; OK (fst kv, v))%result) obj.

(** [json.load(file, object_hook=parseJsonObject)] on an already parsed
    tree: the hook runs on every object once its members are built, the
    innermost objects first. *)
Fixpoint object_hook (v : json) : result json :=
  match v with
  | JList l =>
      (l' <- (fix elems (l : list json) : result (list json) :=
                match l with
                | [] => OK []
                | x :: r => (y <- object_hook x ;; ys <- elems r ;;
                             OK (y :: ys))
                end) l ;;
       OK (JList l'))%result
  | JObj o =>
      (o' <- (fix members (o : list (pystr * json))
                : result (list (pystr * json)) :=
                match o with
                | [] => OK []
                | (k, x) :: r => (y <- object_hook x ;; ys <- members r ;;
                                  OK ((k, y) :: ys))
                end) o ;;
       o'' <- parseJsonObject o' ;;
       OK (JObj o''))%result
  | _ => OK v
  end.

Definition loadJson (parsed : json) : result json := object_hook parsed.

(** ** [getMessagePaths] *)

Fixpoint starts_with (p s : pystr) : bool :=
  match p, s with
  | [], _ => true
  | a :: p', b :: s' => (a =? b) && starts_with p' s'
  | _ :: _, [] => false
  end.

(** [needle in hay] for two strings. *)
Fixpoint contains (needle hay : pystr) : bool :=
  starts_with needle hay
  || match hay with
     | [] => false
     | _ :: r => contains needle r
     end.

Definition isMessageFile (filename : pystr) : bool :=
  contains (lit ".json") filename && contains (lit "message") filename.

(** [os.listdir(directory)] is the argument [all_files]. *)
Definition getMessagePaths (all_files : list pystr) (directory : pystr)
  : list pystr :=
  let message_files := filter isMessageFile all_files in
  map (fun x => directory ++ lit "\" ++ x) message_files.

(** ** The Python operations the rest of the script uses *)

Fixpoint assoc {A} (k : pystr) (o : list (pystr * A)) : option A :=
  match o with
  | [] => None
  | (k', v) :: r => if pystr_eqb k k' then Some v else assoc k r
  end.

(** [a == b] on decoded JSON values.  [True == 1] holds in Python, lists
    are compared element by element, dicts by key set and values. *)
Fixpoint py_eqb (a b : json) {struct a} : bool :=
  match a, b with
  | JNull, JNull => true
  | JBool x, JBool y => Bool.eqb x y
  | JBool x, JInt y => Z.b2z x =? y
  | JInt x, JBool y => x =? Z.b2z y
  | JInt x, JInt y => x =? y
  | JStr x, JStr y => pystr_eqb x y
  | JList x, JList y =>
      (fix elems (x y : list json) : bool :=
         match x, y with
         | [], [] => true
         | u :: x', v :: y' => py_eqb u v && elems x' y'
         | _, _ => false
         end) x y
  | JObj x, JObj y =>
      Nat.eqb (List.length x) (List.length y)
      && (fix members (x : list (pystr * json)) : bool :=
            match x with
            | [] => true
            | (k, u) :: x' =>
                match assoc k y with
                | Some v => py_eqb u v
                | None => false
                end && members x'
            end) x
  | _, _ => false
  end.

(** [for x in v]: the elements of a list, the characters of a string, the
    keys of a dict; anything else is not iterable. *)
Definition py_iter (v : json) : result (list json) :=
  match v with
  | JList l => OK l
  | JStr s => OK (map (fun c => JStr [c]) s)
  | JObj o => OK (map (fun kv => JStr (fst kv)) o)
  | _ => Raise TypeError
  end.

(** [k in v] for a string [k]. *)
Definition py_contains (k : pystr) (v : json) : result bool :=
  match v with
  | JObj o => OK (match assoc k o with Some _ => true | None => false end)
  | JList l => OK (existsb (py_eqb (JStr k)) l)
  | JStr s => OK (contains k s)
  | _ => Raise TypeError
  end.

(** [v[k]] for a string [k]. *)
Definition py_getitem (v : json) (k : pystr) : result json :=
  match v with
  | JObj o => match assoc k o with
              | Some x => OK x
              | None => Raise KeyError
              end
  | _ => Raise TypeError
  end.

(** [v // 1000]: defined on integers (and on booleans, which are integers). *)
Definition py_floordiv (v : json) (d : Z) : result Z :=
  match v with
  | JInt z => OK (z / d)
  | JBool b => OK (Z.b2z b / d)
  | _ => Raise TypeError
  end.

(** [s.split(sep)] for a one-character separator: never empty. *)
Fixpoint str_split (sep : Z) (s : pystr) : list pystr :=
  match s with
  | [] => [[]]
  | c :: r =>
      if c =? sep then [] :: str_split sep r
      else match str_split sep r with
           | [] => [[c]]
           | w :: ws => (c :: w) :: ws
           end
  end.

(** [v.split('/')[-1]]: only a string has [split]. *)
Definition last_segment (v : json) : result pystr :=
  match v with
  | JStr s => OK (last (str_split 47 s) [])
  | _ => Raise AttributeError
  end.

(** *** Dictionaries keyed by arbitrary hashable values *)

Definition hashable (k : json) : bool :=
  match k with
  | JList _ | JObj _ => false
  | _ => true
  end.

Fixpoint dict_find {V} (k : json) (d : list (json * V)) : option V :=
  match d with
  | [] => None
  | (k', v) :: r => if py_eqb k' k then Some v else dict_find k r
  end.

(** [d[k]] *)
Definition dict_get {V} (d : list (json * V)) (k : json) : result V :=
  if hashable k then
    match dict_find k d with
    | Some v => OK v
    | None => Raise KeyError
    end
  else Raise TypeError.

Fixpoint dict_store {V} (k : json) (v : V) (d : list (json * V))
  : list (json * V) :=
  match d with
  | [] => [(k, v)]
  | (k', v') :: r =>
      if py_eqb k' k then (k', v) :: r else (k', v') :: dict_store k v r
  end.

(** [d[k] = v]: an existing key keeps its place, a new one goes last. *)
Definition dict_set {V} (d : list (json * V)) (k : json) (v : V)
  : result (list (json * V)) :=
  if hashable k then OK (dict_store k v d) else Raise TypeError.

(** ** [class Conversation] *)

Module Conversation.

Record t : Type := mk {
  directory : pystr;
  metadata : list (pystr * json);
  participants : list (json * option Z);   (* {name: id} *)
  chunks_loaded : Z;
  messages : list json;
  id : Z
}.

(** [__init__] *)
Definition init (directory : pystr) : t :=
  {| directory := directory; metadata := []; participants := [];
     chunks_loaded := 0; messages := []; id := 0 |}.

Definition set_id (self : t) (i : Z) : t :=
  {| directory := directory self; metadata := metadata self;
     participants := participants self;
     chunks_loaded := chunks_loaded self; messages := messages self;
     id := i |}.

Definition set_participants (self : t) (p : list (json * option Z)) : t :=
  {| directory := directory self; metadata := metadata self;
     participants := p;
     chunks_loaded := chunks_loaded self; messages := messages self;
     id := id self |}.

(** The loop of lines 48 and 49. *)
Fixpoint register (ps : list json) (d : list (json * option Z))
  : result (list (json * option Z)) :=
  match ps with
  | [] => OK d
  | participant :: r =>
      (name <- py_getitem participant (lit "name") ;;
       d' <- dict_set d name None ;;
       register r d')%result
  end.

Definition loadMessages (self : t) (json : json) : result t :=
  (title <- py_getitem json (lit "title") ;;
   thread_type <- py_getitem json (lit "thread_type") ;;
   thread_path <- py_getitem json (lit "thread_path") ;;
   let metadata' := [(lit "title", title);
                     (lit "thread_type", thread_type);
                     (lit "thread_path", thread_path)] in
   self1 <-
     match metadata self with
     | [] =>                                   (* first chunk being loaded *)
         (roster <- py_getitem json (lit "participants") ;;
          ps <- py_iter roster ;;
          d <- register ps (participants self) ;;
          OK {| directory := directory self; metadata := metadata';
                participants := d;
                chunks_loaded := chunks_loaded self;
                messages := messages self; id := id self |})
     | _ :: _ =>
         if py_eqb (JObj (metadata self)) (JObj metadata') then OK self
         else Raise AssertionError
     end ;;
   msgs <- py_getitem json (lit "messages") ;;
   more <- py_iter msgs ;;
   OK {| directory := directory self1; metadata := metadata self1;
         participants := participants self1;
         chunks_loaded := chunks_loaded self1 + 1;
         messages := messages self1 ++ more; id := id self1 |})%result.

(** Lines 201 to 203: the chunks of a directory, merged one at a time. *)
Fixpoint loadAll (self : t) (docs : list json) : result t :=
  match docs with
  | [] => OK self
  | d :: r => (self' <- loadMessages self d ;; loadAll self' r)%result
  end.

End Conversation.

(** ** The SQLite store behind [sqlite3.connect] *)

Inductive table : Type :=
| conversations | participants | messages | photos | shares | files
| gifs | videos | audio_files | reactions | stickers.

Definition table_eq_dec (a b : table) : {a = b} + {a <> b}.
Proof. decide equality. Defined.

(** The name a table has in an SQL statement and in a message record. *)
Definition table_name (t : table) : pystr :=
  match t with
  | conversations => lit "conversations"
  | participants => lit "participants"
  | messages => lit "messages"
  | photos => lit "photos"
  | shares => lit "shares"
  | files => lit "files"
  | gifs => lit "gifs"
  | videos => lit "videos"
  | audio_files => lit "audio_files"
  | reactions => lit "reactions"
  | stickers => lit "stickers"
  end.

Inductive sqlval : Type :=
| SNull
| SInt (z : Z)
| SText (s : pystr).

(** A stored row: the key the store generated for it and its columns, in
    the order of the INSERT statement. *)
Record row : Type := mkrow { rowid : Z; cols : list sqlval }.

(** The content of the database: the rows of each table, oldest first. *)
Record store : Type := mkstore {
  t_conversations : list row;
  t_participants : list row;
  t_messages : list row;
  t_photos : list row;
  t_shares : list row;
  t_files : list row;
  t_gifs : list row;
  t_videos : list row;
  t_audio_files : list row;
  t_reactions : list row;
  t_stickers : list row
}.

Definition rows_of (s : store) (t : table) : list row :=
  match t with
  | conversations => t_conversations s
  | participants => t_participants s
  | messages => t_messages s
  | photos => t_photos s
  | shares => t_shares s
  | files => t_files s
  | gifs => t_gifs s
  | videos => t_videos s
  | audio_files => t_audio_files s
  | reactions => t_reactions s
  | stickers => t_stickers s
  end.

Coercion rows_of : store >-> Funclass.

Definition empty_store : store :=
  mkstore [] [] [] [] [] [] [] [] [] [] [].

(** The store with the rows of table [t] replaced. *)
Definition upd (s : store) (t : table) (rows : list row) : store :=
  let pick t' := if table_eq_dec t' t then rows else s t' in
  mkstore (pick conversations) (pick participants) (pick messages)
    (pick photos) (pick shares) (pick files) (pick gifs) (pick videos)
    (pick audio_files) (pick reactions) (pick stickers).

(** A connection: what is committed, and what the open transaction sees.
    The [sqlite3] module opens a transaction before the first INSERT or
    DELETE and keeps it open until [commit]. *)
Record conn : Type := mkconn { committed : store; working : store }.

(** How [sqlite3] binds a Python value to a [?]: [None] is NULL, integers
    must fit 64 bits, text must be encodable, lists and dicts are refused. *)
Definition bind_param (v : json) : result sqlval :=
  match v with
  | JNull => OK SNull
  | JBool b => OK (SInt (Z.b2z b))
  | JInt z =>
      if (- 2 ^ 63 <=? z) && (z <? 2 ^ 63) then OK (SInt z)
      else Raise OverflowError
  | JStr s => (_ <- Codec.utf_8_encode s ;; OK (SText s))%result
  | JList _ | JObj _ => Raise InterfaceError
  end.

(** Modelled from the spec: the schema of [database.db], which the script
    opens but never creates.  A generated surrogate id is the key of an
    INTEGER PRIMARY KEY column: 1 in an empty table, otherwise one more
    than the largest key in use. *)
Definition next_rowid (rows : list row) : Z :=
  match rows with
  | [] => 1
  | r :: rs => 1 + fold_right Z.max (rowid r) (map rowid rs)
  end.

(** ** A state and exception monad *)

Definition St (S A : Type) : Type := S -> result A * S.

Definition ret {S A} (a : A) : St S A := fun s => (OK a, s).

Definition raise {S A} (e : exn) : St S A := fun s => (Raise e, s).

Definition bind {S A B} (m : St S A) (f : A -> St S B) : St S B :=
  fun s =>
    match m s with
    | (OK a, s') => f a s'
    | (Raise e, s') => (Raise e, s')
    end.

Definition lift {S A} (r : result A) : St S A := fun s => (r, s).

Definition get {S} : St S S := fun s => (OK s, s).

Definition put {S} (s : S) : St S unit := fun _ => (OK tt, s).

Declare Scope st_scope.
Delimit Scope st_scope with st.
Notation "x <- m ;; k" := (bind m (fun x => k))
  (at level 61, m at next level, right associativity) : st_scope.
Notation "m ;;; k" := (bind m (fun _ => k))
  (at level 61, right associativity) : st_scope.

(** [for x in l: body(x)] *)
Fixpoint for_each {S A} (l : list A) (body : A -> St S unit) : St S unit :=
  match l with
  | [] => ret tt
  | x :: r => (body x ;;; for_each r body)%st
  end.

(** ** [class Database] *)

Module Database.

Section Schema.

(** The constraints the schema puts on a new row (keys, NOT NULL, ...):
    the schema is not part of the script, so they are a parameter. *)
Variable accepts : table -> list row -> list sqlval -> bool.

(** [cursor.execute("INSERT INTO t (...) VALUES (?, ...)", params)].
    Every read of [cursor.lastrowid] in the script directly follows an
    INSERT on the same cursor, so the statement returns that key. *)
Definition execute_insert (t : table) (params : list json) : St conn Z :=
  fun c =>
    match rmap bind_param params with
    | Raise e => (Raise e, c)
    | OK vals =>
        let rows := working c t in
        if accepts t rows vals then
          let key := next_rowid rows in
          (OK key,
           {| committed := committed c;
              working := upd (working c) t (rows ++ [mkrow key vals]) |})
        else (Raise IntegrityError, c)
    end.

(** [cursor.execute("DELETE FROM t")] *)
Definition execute_delete (t : table) : St conn unit :=
  fun c => (OK tt, {| committed := committed c;
                      working := upd (working c) t [] |}).

(** [self.db.commit()] *)
Definition commit : St conn unit :=
  fun c => (OK tt, {| committed := working c; working := working c |}).

(** What [save] works on: the connection and the conversation object,
    whose participant dict the writer fills in. *)
Record world : Type :=
  mkworld { db : conn; conversation : Conversation.t }.

Definition on_db {A} (m : St conn A) : St world A :=
  fun w =>
    let (r, c) := m (db w) in (r, {| db := c; conversation := conversation w |}).

Definition set_participant (name : json) (v : option Z) : St world unit :=
  fun w =>
    match dict_set (Conversation.participants (conversation w)) name v with
    | OK d =>
        (OK tt,
         {| db := db w;
            conversation :=
              Conversation.set_participants (conversation w) d |})
    | Raise e => (Raise e, w)
    end.

(** A Python value used as a truth value in [result = result and ...]. *)
Inductive pyret : Type :=
| RBool (b : bool)
| RCursor
| RInt (z : Z).

Definition truthy (r : pyret) : bool :=
  match r with
  | RBool b => b
  | RCursor => true
  | RInt z => negb (z =? 0)
  end.

Definition py_int (i : Z) : json := JInt i.

Definition py_opt_int (i : option Z) : json :=
  match i with
  | Some z => JInt z
  | None => JNull
  end.

Definition _saveParticipant (convo_id : Z) (participant : json)
    (current : bool) : St world Z :=
  on_db (execute_insert participants
           [py_int convo_id; participant;
            py_int (if current then 1 else 0)]).

Definition _getParticipantId (name : json) : St world (option Z) :=
  (w <- get ;;
   match dict_get (Conversation.participants (conversation w)) name with
   | OK participant_id => ret participant_id
   | Raise KeyError =>
       (participant_id <-
          _saveParticipant (Conversation.id (conversation w)) name false ;;
        set_participant name (Some participant_id) ;;;
        ret (Some participant_id))
   | Raise e => raise e
   end)%st.

Definition _saveReaction (message_id : Z) (user_id : option Z)
    (reaction : json) : St world unit :=
  (_ <- on_db (execute_insert reactions
                 [py_int message_id; py_opt_int user_id; reaction]) ;;
   ret tt)%st.

Definition _saveAttachement (t : table) (message_id : Z) (item : json)
  : St world unit :=
  (uri <- lift (py_getitem item (lit "uri")) ;;
   filename <- lift (last_segment uri) ;;
   _ <- on_db (execute_insert t [py_int message_id; JStr filename]) ;;
   ret tt)%st.

Definition _saveSticker (message_id : Z) (sticker : json) : St world unit :=
  (path <- lift (py_getitem sticker (lit "uri")) ;;
   _ <- on_db (execute_insert stickers [py_int message_id; path]) ;;
   ret tt)%st.

(** [d[k] if k in d else None] *)
Definition get_or_none (d : json) (k : pystr) : result json :=
  (present <- py_contains k d ;;
   if present : bool then py_getitem d k else OK JNull)%result.

Definition _saveShare (message_id : Z) (share : json) : St world unit :=
  (link <- lift (get_or_none share (lit "link")) ;;
   share_text <- lift (get_or_none share (lit "share_text")) ;;
   _ <- on_db (execute_insert shares [py_int message_id; link; share_text]) ;;
   ret tt)%st.

Definition attachements : list table :=
  [photos; videos; files; audio_files; gifs].

(** [if k in item: for x in item[k]: body(x)] *)
Definition for_each_in (item : json) (k : pystr)
    (body : json -> St world unit) : St world unit :=
  (present <- lift (py_contains k item) ;;
   if present : bool then
     (v <- lift (py_getitem item k) ;;
      xs <- lift (py_iter v) ;;
      for_each xs body)
   else ret tt)%st.

(** [if k in item: body(item[k])] *)
Definition when_in (item : json) (k : pystr)
    (body : json -> St world unit) : St world unit :=
  (present <- lift (py_contains k item) ;;
   if present : bool then (v <- lift (py_getitem item k) ;; body v)
   else ret tt)%st.

Definition _saveMessage (item : json) : St world Z :=
  (content <- lift (get_or_none item (lit "content")) ;;
   timestamp_ms <- lift (py_getitem item (lit "timestamp_ms")) ;;
   epoch <- lift (py_floordiv timestamp_ms 1000) ;;
   sender_name <- lift (py_getitem item (lit "sender_name")) ;;
   sender_id <- _getParticipantId sender_name ;;
   type <- lift (py_getitem item (lit "type")) ;;
   w <- get ;;
   message_id <-
     on_db (execute_insert messages
              [py_int epoch; type; py_opt_int sender_id;
               py_int (Conversation.id (conversation w)); content]) ;;
   for_each_in item (lit "reactions") (fun reaction =>
     actor <- lift (py_getitem reaction (lit "actor")) ;;
     user_id <- _getParticipantId actor ;;
     symbol <- lift (py_getitem reaction (lit "reaction")) ;;
     _saveReaction message_id user_id symbol) ;;;
   for_each attachements (fun t =>
     for_each_in item (table_name t) (fun data =>
       _saveAttachement t message_id data)) ;;;
   when_in item (lit "share") (_saveShare message_id) ;;;
   when_in item (lit "sticker") (_saveSticker message_id) ;;;
   ret message_id)%st.

(** The loop of lines 112 and 113: [result = result and self._saveMessage]. *)
Fixpoint save_messages (msgs : list json) (result : pyret)
  : St world pyret :=
  match msgs with
  | [] => ret result
  | message :: r =>
      (result' <- (if truthy result
                   then (message_id <- _saveMessage message ;;
                         ret (RInt message_id))
                   else ret result) ;;
       save_messages r result')%st
  end.

Definition _saveConversation : St world pyret :=
  (w <- get ;;
   let md := JObj (Conversation.metadata (conversation w)) in
   title <- lift (py_getitem md (lit "title")) ;;
   thread_type <- lift (py_getitem md (lit "thread_type")) ;;
   thread_path <- lift (py_getitem md (lit "thread_path")) ;;
   _ <- on_db (execute_insert conversations
                 [py_int (Conversation.id (conversation w));
                  title; thread_type; thread_path]) ;;
   for_each (map fst (Conversation.participants (conversation w)))
     (fun participant =>
        participant_id <-
          _saveParticipant (Conversation.id (conversation w)) participant
            true ;;
        set_participant participant (Some participant_id)) ;;;
   save_messages (Conversation.messages (conversation w)) RCursor)%st.

(** [save] for an item that is a [Conversation]; an exception leaves
    before the commit. *)
Definition save (item : Conversation.t) : St conn pyret :=
  fun c =>
    match _saveConversation {| db := c; conversation := item |} with
    | (OK r, w) => (OK r, snd (commit (db w)))
    | (Raise e, w) => (Raise e, db w)
    end.

Definition _removeAll (t : table) : St conn pyret :=
  (execute_delete t ;;; ret RCursor)%st.

Definition all_tables : list table :=
  [conversations; participants; messages; photos; shares; files;
   gifs; videos; audio_files; reactions; stickers].

(** The loop of lines 84 and 85. *)
Fixpoint remove_tables (tables : list table) (result : pyret)
  : St conn pyret :=
  match tables with
  | [] => ret result
  | t :: r =>
      (result' <- (if truthy result then _removeAll t else ret result) ;;
       remove_tables r result')%st
  end.

(** [removeAll(Conversation)] *)
Definition removeAll : St conn pyret :=
  (result <- remove_tables all_tables (RBool true) ;;
   commit ;;;
   ret result)%st.

(** The script from line 190 on, for conversations that are already
    loaded: wipe, then save each one under its index. *)
Fixpoint save_all (convs : list Conversation.t) (convo_id : Z)
  : St conn unit :=
  match convs with
  | [] => ret tt
  | conversation :: r =>
      (_ <- save (Conversation.set_id conversation convo_id) ;;
       save_all r (convo_id + 1))%st
  end.

Definition run (convs : list Conversation.t) : St conn unit :=
  (_ <- removeAll ;; save_all convs 0)%st.

End Schema.

End Database.

(** ** The script: lines 14 and 15, and 188 to 210 *)

(** [getSubdirectories]: [os.scandir(root_directory)] is the argument
    [entries], each entry with its path and whether it is a directory. *)
Definition getSubdirectories (entries : list (pystr * bool)) : list pystr :=
  map fst (filter snd entries).

Module Script.

Section Files.

Variable accepts : table -> list row -> list sqlval -> bool.

(** [os.listdir] of a directory, and the tree that the JSON parser builds
    from the file at a path, before the hook runs on it.  Reading and
    parsing are outside the model: the files that the listing names are
    taken to exist and to hold JSON. *)
Variable listdir : pystr -> list pystr.
Variable parsed : pystr -> json.

(** Lines 201 to 203. *)
Fixpoint load_paths (messagePaths : list pystr)
    (conversation : Conversation.t) : result Conversation.t :=
  match messagePaths with
  | [] => OK conversation
  | messages_path :: r =>
      (doc <- loadJson (parsed messages_path) ;;
       conversation' <- Conversation.loadMessages conversation doc ;;
       load_paths r conversation')%result
  end.

(** Lines 196 to 203. *)
Definition load_directory (convo_id : Z) (convo_directory : pystr)
  : result Conversation.t :=
  let conversation :=
    Conversation.set_id (Conversation.init convo_directory) convo_id in
  let messagePaths :=
    getMessagePaths (listdir convo_directory) convo_directory in
  load_paths messagePaths conversation.

(** The loop of lines 194 to 208. *)
Fixpoint main_loop (conversations : list pystr) (convo_id : Z)
  : St conn unit :=
  match conversations with
  | [] => ret tt
  | convo_directory :: r =>
      (conversation <- lift (load_directory convo_id convo_directory) ;;
       _ <- Database.save accepts conversation ;;
       main_loop r (convo_id + 1))%st
  end.

(** The script, from the wipe on; [entries] is [os.scandir("messages")]. *)
Definition main (entries : list (pystr * bool)) : St conn unit :=
  (_ <- Database.removeAll ;;
   main_loop (getSubdirectories entries) 0)%st.

End Files.

End Script.

(** * Part II: the vocabulary of the properties *)

(** ** Text and its encodings *)

Definition octet (b : Z) : Prop := 0 <= b < 256.

Definition ascii_only (s : pystr) : Prop := Forall (fun c => 0 <= c < 128) s.

(** The defect of the export: text encoded as UTF-8 and read as Latin-1. *)
Definition mojibake (t : pystr) : result pystr :=
  (b <- Codec.utf_8_encode t ;; OK (Codec.latin_1_decode b))%result.

(** The octets of one code point, written with division and remainder. *)
Inductive encoded (c : Z) : pybytes -> Prop :=
| enc1 : 0 <= c < 0x80 -> encoded c [c]
| enc2 : 0x80 <= c < 0x800 ->
         encoded c [0xC0 + c / 64; 0x80 + c mod 64]
| enc3 : 0x800 <= c < 0x10000 -> ~ 0xD800 <= c <= 0xDFFF ->
         encoded c [0xE0 + c / 4096; 0x80 + (c / 64) mod 64; 0x80 + c mod 64]
| enc4 : 0x10000 <= c < 0x110000 ->
         encoded c [0xF0 + c / 262144; 0x80 + (c / 4096) mod 64;
                    0x80 + (c / 64) mod 64; 0x80 + c mod 64].

(** The export's defect on a field value: on the string itself, or on the
    strings that are elements of the list. *)
Definition corrupt_element (x : json) : result json :=
  match x with
  | JStr t => (s <- mojibake t ;; OK (JStr s))%result
  | _ => OK x
  end.

Definition corrupt_field (v : json) : result json :=
  match v with
  | JStr t => (s <- mojibake t ;; OK (JStr s))%result
  | JList l => (l' <- rmap corrupt_element l ;; OK (JList l'))%result
  | _ => OK v
  end.

Definition corrupt_object (obj : list (pystr * json))
  : result (list (pystr * json)) :=
  rmap (fun kv => (v <- corrupt_field (snd kv) ;; OK (fst kv, v))%result) obj.

(** [wide_in s v]: [s] is the string [v], or an element of the list [v]. *)
Definition wide_in (s : pystr) (v : json) : Prop :=
  v = JStr s \/ exists l, v = JList l /\ In (JStr s) l.

Definition encoding_error (e : exn) : Prop :=
  e = UnicodeEncodeError \/ e = UnicodeDecodeError.

(** [visits s v]: while loading the tree [v] the hook receives an object
    that has the string [s] as a member, or in a list that is a member. *)
Inductive visits (s : pystr) : json -> Prop :=
| visits_here o k v :
    In (k, v) o -> wide_in s v -> visits s (JObj o)
| visits_member o k v :
    In (k, v) o -> visits s v -> visits s (JObj o)
| visits_element l x :
    In x l -> visits s x -> visits s (JList l).

(** What the loader does with one member of an object. *)
Definition hook_member (kv : pystr * json) : result (pystr * json) :=
  (y <- object_hook (snd kv) ;; OK (fst kv, y))%result.

(** ** Reasoning about the state monad *)

(** [stable I m]: [m] keeps [I], whether it returns or raises. *)
Definition stable {S A} (I : S -> Prop) (m : St S A) : Prop :=
  forall s r s', I s -> m s = (r, s') -> I s'.

(** [triple P m Q]: from a state in [P], if [m] returns [a] then [Q a]
    holds of the state it leaves. *)
Definition triple {S A} (P : S -> Prop) (m : St S A) (Q : A -> S -> Prop)
  : Prop :=
  forall s a s', P s -> m s = (OK a, s') -> Q a s'.

(** [same_outside ts w0 w]: between [w0] and [w] nothing was committed, no
    table outside [ts] was written, and of the conversation only the
    participant dict may differ. *)
Definition same_outside (ts : list table) (w0 w : Database.world) : Prop :=
  committed (Database.db w) = committed (Database.db w0)
  /\ (forall t, ~ In t ts ->
        working (Database.db w) t = working (Database.db w0) t)
  /\ Conversation.id (Database.conversation w)
     = Conversation.id (Database.conversation w0)
  /\ Conversation.messages (Database.conversation w)
     = Conversation.messages (Database.conversation w0)
  /\ Conversation.metadata (Database.conversation w)
     = Conversation.metadata (Database.conversation w0).

(** [writes ts m]: [m] writes no table outside [ts]. *)
Definition writes {A} (ts : list table) (m : St Database.world A) : Prop :=
  forall w0, stable (same_outside ts w0) m.

(** ** Chunk documents *)

(** The message list of a chunk document, as [loadMessages] reads it. *)
Definition doc_messages (doc : json) : result (list json) :=
  (msgs <- py_getitem doc (lit "messages") ;; py_iter msgs)%result.

Definition messages_of (doc : json) : list json :=
  match doc_messages doc with
  | OK l => l
  | Raise _ => []
  end.

(** The metadata dict of lines 40 to 44. *)
Definition metadata_dict (title thread_type thread_path : json)
  : list (pystr * json) :=
  [(lit "title", title); (lit "thread_type", thread_type);
   (lit "thread_path", thread_path)].

Definition chunk_metadata (doc : json) : result (list (pystr * json)) :=
  (title <- py_getitem doc (lit "title") ;;
   thread_type <- py_getitem doc (lit "thread_type") ;;
   thread_path <- py_getitem doc (lit "thread_path") ;;
   OK (metadata_dict title thread_type thread_path))%result.

(** [self.metadata == metadata] *)
Definition same_metadata (m m' : list (pystr * json)) : bool :=
  py_eqb (JObj m) (JObj m').

(** ** Example data: a directory with two chunk files *)

Definition str (s : string) : json := JStr (lit s).

Definition obj (members : list (string * json)) : json :=
  JObj (map (fun kv => (lit (fst kv), snd kv)) members).

Open Scope string_scope.

(** Chunk 1: Alice and Bob in the roster, one message from Alice with a
    photo and a reaction by Carol, whose symbol is a heart read as Latin-1. *)
Definition chunk_1 : json :=
  obj [("title", str "Trip"); ("thread_type", str "RegularGroup");
       ("thread_path", str "inbox/trip_1");
       ("participants",
        JList [obj [("name", str "Alice")]; obj [("name", str "Bob")]]);
       ("messages",
        JList [obj [("sender_name", str "Alice");
                    ("timestamp_ms", JInt 1500000001999);
                    ("type", str "Generic");
                    ("content", str "hi");
                    ("reactions",
                     JList [obj [("reaction",
                                  JStr [226; 157; 164; 239; 184; 143]);
                                 ("actor", str "Carol")]]);
                    ("photos",
                     JList [obj [("uri",
                                  str "messages/inbox/trip_1/photos/p1.jpg");
                                 ("creation_timestamp", JInt 1500000001)]])]])].

(** Chunk 2: the same metadata, one message from Bob with a sticker. *)
Definition chunk_2 : json :=
  obj [("title", str "Trip"); ("thread_type", str "RegularGroup");
       ("thread_path", str "inbox/trip_1");
       ("participants",
        JList [obj [("name", str "Alice")]; obj [("name", str "Bob")]]);
       ("messages",
        JList [obj [("sender_name", str "Bob");
                    ("timestamp_ms", JInt 1500000002000);
                    ("type", str "Generic");
                    ("sticker", obj [("uri", str "/stickers/s1.webp")])]])].

(** A chunk of another conversation. *)
Definition chunk_other : json :=
  obj [("title", str "Work"); ("thread_type", str "RegularGroup");
       ("thread_path", str "inbox/trip_1");
       ("participants", JList []); ("messages", JList [])].

Close Scope string_scope.

Definition unwrap {A} (d : A) (r : result A) : A :=
  match r with
  | OK a => a
  | Raise _ => d
  end.

Definition trip_dir : pystr := lit "messages\trip_1".

(** The two chunks as [loadJson] returns them, and the conversation after
    each merge. *)
Definition loaded_1 : json := unwrap JNull (loadJson chunk_1).
Definition loaded_2 : json := unwrap JNull (loadJson chunk_2).

Definition trip_after_1 : Conversation.t :=
  unwrap (Conversation.init trip_dir)
    (Conversation.loadMessages (Conversation.init trip_dir) loaded_1).

Definition trip : Conversation.t :=
  unwrap (Conversation.init trip_dir)
    (Conversation.loadMessages trip_after_1 loaded_2).

(** ** File names and paths *)

(** [needle] occurs in [hay]. *)
Definition substring (needle hay : pystr) : Prop :=
  exists a b, hay = a ++ needle ++ b.

(** [s.endswith(suffix)], which the script does not call. *)
Definition ends_with (suffix s : pystr) : bool :=
  starts_with (rev suffix) (rev s).

(** The path of a file of [directory], as line 12 builds it. *)
Definition in_directory (directory x : pystr) : pystr :=
  directory ++ lit "\" ++ x.

(** ** The parts of [_saveMessage] *)

Section Parts.

Variable accepts : table -> list row -> list sqlval -> bool.

(** Lines 135 to 138. *)
Definition save_reactions (item : json) (message_id : Z)
  : St Database.world unit :=
  Database.for_each_in item (lit "reactions") (fun reaction =>
    actor <- lift (py_getitem reaction (lit "actor")) ;;
    user_id <- Database._getParticipantId accepts actor ;;
    symbol <- lift (py_getitem reaction (lit "reaction")) ;;
    Database._saveReaction accepts message_id user_id symbol)%st.

(** Lines 145 to 147, for one table. *)
Definition save_attachements_of (item : json) (message_id : Z) (t : table)
  : St Database.world unit :=
  Database.for_each_in item (table_name t) (fun data =>
    Database._saveAttachement accepts t message_id data).

(** Lines 149 to 153. *)
Definition save_share_and_sticker (item : json) (message_id : Z)
  : St Database.world unit :=
  (Database.when_in item (lit "share")
     (Database._saveShare accepts message_id) ;;;
   Database.when_in item (lit "sticker")
     (Database._saveSticker accepts message_id))%st.

(** The parameters of the INSERT into [messages]. *)
Definition message_params (epoch : Z) (type : json) (sender_id : option Z)
    (conversation_id : Z) (content : json) : list json :=
  [Database.py_int epoch; type; Database.py_opt_int sender_id;
   Database.py_int conversation_id; content].

End Parts.

(** ** What the spec says of the stored values *)

(** Reduction to seconds by truncation: the fractional part is dropped. *)
Definition truncated_seconds (timestamp_ms : Z) : Z :=
  Z.quot timestamp_ms 1000.

(** The records of an attachment kind in a message record. *)
Definition attachement_records (item : json) (t : table)
  : result (list json) :=
  (v <- py_getitem item (table_name t) ;; py_iter v)%result.

(** The columns of the row stored for an attachment with this URI. *)
Definition attachement_cols (message_id : Z) (uri : pystr) : list sqlval :=
  [SInt message_id; SText (last (str_split 47 uri) [])].

(** A world to run single statements in: an empty database and a
    conversation without roster. *)
Definition empty_conn : conn :=
  {| committed := empty_store; working := empty_store |}.

Definition fresh_world : Database.world :=
  {| Database.db := empty_conn;
     Database.conversation := Conversation.init trip_dir |}.

Definition accept_all (t : table) (rows : list row) (vals : list sqlval)
  : bool := true.

Open Scope string_scope.

(** A message dated one and a half seconds before the epoch. *)
Definition early_message : json :=
  obj [("sender_name", str "Alice"); ("timestamp_ms", JInt (-1500));
       ("type", str "Generic")].

(** A message with a photo whose URI has no directory part. *)
Definition bare_photo_message : json :=
  obj [("sender_name", str "Alice"); ("timestamp_ms", JInt 1500000001999);
       ("type", str "Generic");
       ("photos", JList [obj [("uri", str "p1.jpg")]])].

(** The one message of chunk 1. *)
Definition photo_message : json :=
  obj [("sender_name", str "Alice");
       ("timestamp_ms", JInt 1500000001999);
       ("type", str "Generic");
       ("content", str "hi");
       ("reactions",
        JList [obj [("reaction", JStr [0x2764; 0xFE0F]);
                    ("actor", str "Carol")]]);
       ("photos",
        JList [obj [("uri", str "messages/inbox/trip_1/photos/p1.jpg");
                    ("creation_timestamp", JInt 1500000001)]])].

Close Scope string_scope.

(** ** The parts of [_saveConversation] *)

Section ConversationParts.

Variable accepts : table -> list row -> list sqlval -> bool.

(** Lines 109 and 110, for the keys the dict has when the loop starts. *)
Definition save_roster (convo_id : Z) (names : list json)
  : St Database.world unit :=
  for_each names (fun participant =>
    participant_id <-
      Database._saveParticipant accepts convo_id participant true ;;
    Database.set_participant participant (Some participant_id))%st.

(** The parameters of the INSERT into [conversations]. *)
Definition conversation_params (c : Conversation.t)
    (title thread_type thread_path : json) : list json :=
  [Database.py_int (Conversation.id c); title; thread_type; thread_path].

End ConversationParts.

(** The dict of the conversation being saved, and its table. *)
Definition names_of (w : Database.world) : list (json * option Z) :=
  Conversation.participants (Database.conversation w).

Definition participant_rows (w : Database.world) : list row :=
  working (Database.db w) participants.

(** Every key in the table is positive, as the keys that the store
    generates are. *)
Definition positive_keys (rows : list row) : Prop :=
  Forall (fun r => 0 < rowid r) rows.

Open Scope string_scope.

(** The example conversation with one more message, whose content is a
    list: [sqlite3] cannot bind it, so its INSERT raises. *)
Definition broken_trip : Conversation.t :=
  {| Conversation.directory := Conversation.directory trip;
     Conversation.metadata := Conversation.metadata trip;
     Conversation.participants := Conversation.participants trip;
     Conversation.chunks_loaded := Conversation.chunks_loaded trip;
     Conversation.messages :=
       Conversation.messages trip
       ++ [obj [("sender_name", str "Dan"); ("timestamp_ms", JInt 7);
                ("type", str "Generic"); ("content", JList [JInt 1])]];
     Conversation.id := 0 |}.

Close Scope string_scope.

(** A database that holds rows of an earlier run. *)
Definition used_conn : conn :=
  snd (Database.save accept_all trip empty_conn).



(** ** Participants and their ids *)

(** The keys of a dict: hashable and pairwise different under [==]. *)
Definition keys_ok (ks : list json) : Prop :=
  Forall (fun k => hashable k = true) ks
  /\ ForallOrdPairs (fun a b => py_eqb a b = false) ks.

(** [extends d d']: every key of [d] has the same value in [d']. *)
Definition extends (d d' : list (json * option Z)) : Prop :=
  forall k v, dict_find k d = Some v -> dict_find k d' = Some v.

(** The dict entry [e] and the row [r] of one participant: the dict holds
    the key of the row, the row holds the conversation, the name and the
    flag. *)
Definition participant_row (cid current : Z) (e : json * option Z)
    (r : row) : Prop :=
  snd e = Some (rowid r)
  /\ rmap bind_param
       [Database.py_int cid; fst e; Database.py_int current] = OK (cols r).

(** Rows added to a table that held [before], each under the key the
    store generated for it. *)
Inductive generated (before : list row) : list row -> Prop :=
| generated_nil : generated before []
| generated_snoc added r :
    generated before added ->
    rowid r = next_rowid (before ++ added) ->
    generated before (added ++ [r]).

(** The state of the participants while a conversation is being saved:
    the entries of the roster and then those added on first reference,
    each with its row, appended to the rows [before]. *)
Definition participants_saved (before : list row) (cid : Z)
    (roster : list json) (w : Database.world) : Prop :=
  exists es1 es0 rows1 rows0,
    names_of w = es1 ++ es0
    /\ map fst es1 = roster
    /\ participant_rows w = before ++ rows1 ++ rows0
    /\ Forall2 (participant_row cid 1) es1 rows1
    /\ Forall2 (participant_row cid 0) es0 rows0
    /\ keys_ok (map fst (names_of w))
    /\ generated before (rows1 ++ rows0)
    /\ Conversation.id (Database.conversation w) = cid.

(** 1 for a name of the roster, 0 for any other. *)
Definition current_flag (roster : list json) (name : json) : Z :=
  if existsb (fun k => py_eqb k name) roster then 1 else 0.

(** The reaction records of a message record, as lines 135 and 136 read
    them. *)
Definition reaction_records (item : json) : result (list json) :=
  (present <- py_contains (lit "reactions") item ;;
   if present : bool
   then (v <- py_getitem item (lit "reactions") ;; py_iter v)
   else OK [])%result.

(** [references item name]: [name] is the sender of the message record
    [item] or the actor of one of its reactions. *)
Definition references (item : json) (name : json) : Prop :=
  py_getitem item (lit "sender_name") = OK name
  \/ exists records reaction,
       reaction_records item = OK records
       /\ In reaction records
       /\ py_getitem reaction (lit "actor") = OK name.

(** What [_getParticipantId] does to the state when the name is new. *)
Definition lazily_added (name : json) (key : Z) (w w' : Database.world)
  : Prop :=
  exists vals,
    rmap bind_param
      [Database.py_int (Conversation.id (Database.conversation w)); name;
       Database.py_int 0] = OK vals
    /\ key = next_rowid (participant_rows w)
    /\ participant_rows w' = participant_rows w ++ [mkrow key vals]
    /\ names_of w' = names_of w ++ [(name, Some key)]
    /\ Conversation.id (Database.conversation w')
       = Conversation.id (Database.conversation w).

(** The dict entry [e] and the row [r] of one participant of the
    conversation [cid], whose flag says whether the name is in [roster]. *)
Definition saved_as (cid : Z) (roster : list json) (e : json * option Z)
    (r : row) : Prop :=
  participant_row cid (current_flag roster (fst e)) e r.

(** The example conversation, about to be saved into an empty database. *)
Definition trip_world : Database.world :=
  {| Database.db := empty_conn; Database.conversation := trip |}.

(** ** Shapes of decoded values *)

(** [repaired s t]: the string [s] came out of the hook as [t]: [t] is
    what the repair returns for [s], and it is the text whose export
    defect is [s]. *)
Definition repaired (s t : pystr) : Prop :=
  repair s = OK t /\ mojibake t = OK s.

(** [kept_element x x']: the hook turned the list element [x] into [x']:
    a string into its repair, anything else into itself. *)
Definition kept_element (x x' : json) : Prop :=
  match x with
  | JStr s => exists t, x' = JStr t /\ repaired s t
  | _ => x' = x
  end.

(** [kept_field v v']: the hook turned the member value [v] into [v']: a
    string into its repair, a list into a list of the same length whose
    elements are kept, anything else into itself. *)
Definition kept_field (v v' : json) : Prop :=
  match v with
  | JStr s => exists t, v' = JStr t /\ repaired s t
  | JList l => exists l', v' = JList l' /\ Forall2 kept_element l l'
  | _ => v' = v
  end.

(** A tree in which every string value is ASCII. *)
Inductive ascii_tree : json -> Prop :=
| ascii_null : ascii_tree JNull
| ascii_bool b : ascii_tree (JBool b)
| ascii_int z : ascii_tree (JInt z)
| ascii_str s : ascii_only s -> ascii_tree (JStr s)
| ascii_list l : Forall ascii_tree l -> ascii_tree (JList l)
| ascii_obj o : Forall (fun kv => ascii_tree (snd kv)) o -> ascii_tree (JObj o).

(** ** Message records that are refused *)

(** What Python cannot divide: [None], a string, a list or a dict as the
    left operand of [//] raises [TypeError]. *)
Definition indivisible (v : json) : Prop :=
  match v with
  | JNull | JStr _ | JList _ | JObj _ => True
  | JBool _ | JInt _ => False
  end.

(** [refused o e]: why lines 125 and 126 raise [e] for the message record
    with the members [o]: the timestamp is missing, or it is there and
    cannot be divided, or it is an integer and the sender is missing. *)
Inductive refused (o : list (pystr * json)) : exn -> Prop :=
| refused_no_timestamp :
    assoc (lit "timestamp_ms") o = None -> refused o KeyError
| refused_timestamp v :
    assoc (lit "timestamp_ms") o = Some v -> indivisible v ->
    refused o TypeError
| refused_no_sender z :
    assoc (lit "timestamp_ms") o = Some (JInt z) ->
    assoc (lit "sender_name") o = None -> refused o KeyError.

(** ** Chunk documents of the export's schema *)

(** A chunk whose title, type and path are the strings [t], [y] and [p],
    whose roster is a list of objects with a string name, and whose
    messages are a list. *)
Definition schema_chunk (t y p : pystr) (doc : json) : Prop :=
  exists o ps ms,
    doc = JObj o
    /\ assoc (lit "title") o = Some (JStr t)
    /\ assoc (lit "thread_type") o = Some (JStr y)
    /\ assoc (lit "thread_path") o = Some (JStr p)
    /\ assoc (lit "participants") o = Some (JList ps)
    /\ Forall (fun q => exists name,
                 py_getitem q (lit "name") = OK (JStr name)) ps
    /\ assoc (lit "messages") o = Some (JList ms).

(** The roster of a chunk document, as line 48 reads it. *)
Definition roster_records (doc : json) : result (list json) :=
  (roster <- py_getitem doc (lit "participants") ;; py_iter roster)%result.

(** ** Optional parts of a message record *)

(** The column stored for an optional member: NULL when it is absent. *)
Definition optional_column (member : option json) (v : sqlval) : Prop :=
  match member with
  | None => v = SNull
  | Some j => bind_param j = OK v
  end.

(** The key of a message record whose content goes to table [t]. *)
Definition record_key (t : table) : option pystr :=
  match t with
  | reactions => Some (lit "reactions")
  | photos | videos | files | audio_files | gifs => Some (table_name t)
  | shares => Some (lit "share")
  | stickers => Some (lit "sticker")
  | conversations | participants | messages => None
  end.

(** The row of one reaction: the message, the id that the dict [names]
    holds for the actor, and the symbol. *)
Definition reaction_row (message_id : Z) (names : list (json * option Z))
    (reaction : json) (r : row) : Prop :=
  exists actor symbol user_id,
    py_getitem reaction (lit "actor") = OK actor
    /\ py_getitem reaction (lit "reaction") = OK symbol
    /\ dict_find actor names = Some user_id
    /\ rmap bind_param
         [Database.py_int message_id; Database.py_opt_int user_id; symbol]
       = OK (cols r).

(** The first column of a row. *)
Definition first_column (r : row) : sqlval := hd SNull (cols r).

(** The directories of the example, as [os.listdir] and the parser see
    them: one with the two chunks, one without any chunk file. *)
Definition example_listdir (directory : pystr) : list pystr :=
  if pystr_eqb directory trip_dir
  then [lit "message_1.json"; lit "photos"; lit "message_2.json"]
  else [lit "photos"].

Definition example_parsed (path : pystr) : json :=
  if pystr_eqb path (in_directory trip_dir (lit "message_1.json"))
  then chunk_1 else chunk_2.

Open Scope string_scope.

(** The one message of chunk 2, and a message that shares a link without
    a text. *)
Definition sticker_message : json :=
  obj [("sender_name", str "Bob"); ("timestamp_ms", JInt 1500000002000);
       ("type", str "Generic");
       ("sticker", obj [("uri", str "/stickers/s1.webp")])].

Definition share_message : json :=
  obj [("sender_name", str "Bob"); ("timestamp_ms", JInt 1500000003000);
       ("type", str "Share");
       ("share", obj [("link", str "https://example.org/a")])].

Close Scope string_scope.


(** What the script loads from a directory: the documents of its chunk
    files as [loadJson] returns them, merged into a new conversation. *)
Definition loads (listdir : pystr -> list pystr) (parsed : pystr -> json)
    (directory : pystr) (conversation : Conversation.t) : Prop :=
  exists docs,
    rmap loadJson (map parsed (getMessagePaths (listdir directory) directory))
    = OK docs
    /\ Conversation.loadAll (Conversation.init directory) docs
       = OK conversation.

(** The root of the example: the directory of the two chunks, a file,
    and a directory that holds no chunk file. *)
Definition empty_dir : pystr := lit "messages\empty_2".

Definition example_entries : list (pystr * bool) :=
  [(trip_dir, true); (lit "messages\notes.txt", false); (empty_dir, true)].

(** A parser under which the second chunk of the directory belongs to
    another conversation. *)
Definition mixed_parsed (path : pystr) : json :=
  if pystr_eqb path (in_directory trip_dir (lit "message_1.json"))
  then chunk_1 else chunk_other.

(** The row of a message record in the conversation [cid]: the second of
    its timestamp, its type, the id of a participant, the conversation,
    and its content or NULL. *)
Definition message_row (cid : Z) (item : json) (r : row) : Prop :=
  exists content timestamp_ms epoch type sender_id,
    Database.get_or_none item (lit "content") = OK content
    /\ py_getitem item (lit "timestamp_ms") = OK timestamp_ms
    /\ py_floordiv timestamp_ms 1000 = OK epoch
    /\ py_getitem item (lit "type") = OK type
    /\ rmap bind_param (message_params epoch type sender_id cid content)
       = OK (cols r).

(** What [save] returns for the rows it added to [messages]: the key of
    the last one, or the cursor when there is none. *)
Definition last_key (added : list row) (result : Database.pyret)
  : Database.pyret :=
  last (map (fun r => Database.RInt (rowid r)) added) result.

(** * Part III: properties *)

(** ** Bit operations as arithmetic *)

Lemma land_low_zero (x l n : Z) :
  0 <= n -> x mod 2 ^ n = 0 -> 0 <= l < 2 ^ n -> Z.land x l = 0.
Proof.
  intros Hn Hx Hl. apply Z.bits_inj'. intros i Hi.
  rewrite Z.land_spec, Z.bits_0.
  destruct (Z.lt_ge_cases i n) as [Hlt | Hge].
  - rewrite <- (Z.mod_pow2_bits_low x n i) by lia.
    rewrite Hx, Z.bits_0. reflexivity.
  - rewrite <- (Z.mod_small l (2 ^ n)) by lia.
    rewrite Z.mod_pow2_bits_high by lia. apply andb_false_r.
Qed.

Lemma lor_add_low (x l n : Z) :
  0 <= n -> x mod 2 ^ n = 0 -> 0 <= l < 2 ^ n -> Z.lor x l = x + l.
Proof.
  intros Hn Hx Hl. rewrite <- (Z.add_lor_land x l).
  rewrite (land_low_zero x l n) by assumption. lia.
Qed.

Lemma land_mask (x n : Z) : 0 <= n -> Z.land x (2 ^ n - 1) = x mod 2 ^ n.
Proof.
  intros Hn. rewrite <- Z.land_ones by assumption.
  rewrite Z.ones_equiv. f_equal; lia.
Qed.

Ltac bits_to_arith :=
  repeat match goal with
  | |- context [Z.shiftr ?x ?n] => rewrite (Z.shiftr_div_pow2 x n) by lia
  | |- context [Z.shiftl ?x ?n] => rewrite (Z.shiftl_mul_pow2 x n) by lia
  | |- context [Z.land ?x 0x3F] => change (Z.land x 0x3F) with (Z.land x (2 ^ 6 - 1)); rewrite (land_mask x 6) by lia
  | |- context [Z.land ?x 0x1F] => change (Z.land x 0x1F) with (Z.land x (2 ^ 5 - 1)); rewrite (land_mask x 5) by lia
  | |- context [Z.land ?x 0x0F] => change (Z.land x 0x0F) with (Z.land x (2 ^ 4 - 1)); rewrite (land_mask x 4) by lia
  | |- context [Z.land ?x 0x07] => change (Z.land x 0x07) with (Z.land x (2 ^ 3 - 1)); rewrite (land_mask x 3) by lia
  end.

Lemma lead2 c : 0x80 <= c < 0x800 -> Z.lor 0xC0 (Z.shiftr c 6) = 0xC0 + c / 64.
Proof.
  intros H. rewrite Z.shiftr_div_pow2 by lia. change (2 ^ 6) with 64.
  apply (lor_add_low _ _ 6); [lia | reflexivity | ].
  change (2 ^ 6) with 64.
  Z.div_mod_to_equations. lia.
Qed.


Lemma lor_shifted (h l n : Z) :
  0 <= n -> 0 <= l < 2 ^ n -> Z.lor (h * 2 ^ n) l = h * 2 ^ n + l.
Proof.
  intros Hn Hl. apply (lor_add_low _ _ n); try assumption.
  apply Z.mod_mul. apply Z.pow_nonzero; lia.
Qed.

Ltac split_tests :=
  repeat match goal with
  | |- context [?a <? ?b] => destruct (Z.ltb_spec a b); try lia
  | |- context [?a <=? ?b] => destruct (Z.leb_spec a b); try lia
  | |- context [?a =? ?b] => destruct (Z.eqb_spec a b); try lia
  end.

Lemma rbind_ext {A B} (m : result A) (f g : A -> result B) :
  (forall a, f a = g a) -> rbind m f = rbind m g.
Proof. intros H. destruct m; cbn; auto. Qed.

Lemma decode_1 b r :
  0 <= b < 0x80 ->
  Codec.utf_8_decode (b :: r) = (s <- Codec.utf_8_decode r ;; OK (b :: s))%result.
Proof. intros H. cbn [Codec.utf_8_decode]. split_tests. reflexivity. Qed.

Lemma decode_2 b0 b1 r :
  0xC2 <= b0 < 0xE0 -> 0x80 <= b1 < 0xC0 ->
  Codec.utf_8_decode (b0 :: b1 :: r)
  = (s <- Codec.utf_8_decode r ;;
     OK ((b0 - 0xC0) * 64 + (b1 - 0x80) :: s))%result.
Proof.
  intros H0 H1. cbn [Codec.utf_8_decode]. unfold Codec.is_continuation.
  split_tests. cbn [andb negb].
  apply rbind_ext. intros s. do 2 f_equal.
  bits_to_arith.
  rewrite lor_shifted by (try lia; apply Z.mod_pos_bound; lia).
  change (2 ^ 6) with 64. change (2 ^ 5) with 32.
  Z.div_mod_to_equations. lia.
Qed.

Lemma decode_3 b0 b1 b2 r :
  0xE0 <= b0 < 0xF0 -> 0x80 <= b1 < 0xC0 -> 0x80 <= b2 < 0xC0 ->
  (b0 = 0xE0 -> 0xA0 <= b1) -> (b0 = 0xED -> b1 < 0xA0) ->
  Codec.utf_8_decode (b0 :: b1 :: b2 :: r)
  = (s <- Codec.utf_8_decode r ;;
     OK ((b0 - 0xE0) * 4096 + (b1 - 0x80) * 64 + (b2 - 0x80) :: s))%result.
Proof.
  intros H0 H1 H2 Hlo Hhi. cbn [Codec.utf_8_decode]. unfold Codec.is_continuation.
  split_tests; cbn [andb orb negb];
    apply rbind_ext; intros s; do 2 f_equal;
    bits_to_arith;
    rewrite (lor_shifted _ _ 12)
      by (try lia; change (2 ^ 12) with 4096; change (2 ^ 6) with 64;
          Z.div_mod_to_equations; lia);
    change (2 ^ 12) with (2 ^ 6 * 2 ^ 6);
    rewrite Z.mul_assoc, <- Z.mul_add_distr_r;
    rewrite lor_shifted by (try lia; apply Z.mod_pos_bound; lia);
    change (2 ^ 6) with 64; change (2 ^ 4) with 16;
    Z.div_mod_to_equations; lia.
Qed.

Lemma decode_4 b0 b1 b2 b3 r :
  0xF0 <= b0 < 0xF5 ->
  0x80 <= b1 < 0xC0 -> 0x80 <= b2 < 0xC0 -> 0x80 <= b3 < 0xC0 ->
  (b0 = 0xF0 -> 0x90 <= b1) -> (b0 = 0xF4 -> b1 < 0x90) ->
  Codec.utf_8_decode (b0 :: b1 :: b2 :: b3 :: r)
  = (s <- Codec.utf_8_decode r ;;
     OK ((b0 - 0xF0) * 262144 + (b1 - 0x80) * 4096 + (b2 - 0x80) * 64
         + (b3 - 0x80) :: s))%result.
Proof.
  intros H0 H1 H2 H3 Hlo Hhi. cbn [Codec.utf_8_decode]. unfold Codec.is_continuation.
  split_tests; cbn [andb orb negb];
    apply rbind_ext; intros s; do 2 f_equal;
    bits_to_arith;
    rewrite (lor_shifted _ _ 18)
      by (try lia; change (2 ^ 18) with 262144; change (2 ^ 12) with 4096;
          change (2 ^ 6) with 64; Z.div_mod_to_equations; lia);
    change (2 ^ 18) with (2 ^ 6 * 2 ^ 12);
    rewrite Z.mul_assoc, <- Z.mul_add_distr_r;
    rewrite (lor_shifted _ _ 12)
      by (try lia; change (2 ^ 12) with 4096;
          change (2 ^ 6) with 64; Z.div_mod_to_equations; lia);
    change (2 ^ 12) with (2 ^ 6 * 2 ^ 6);
    rewrite Z.mul_assoc, <- Z.mul_add_distr_r;
    rewrite lor_shifted by (try lia; apply Z.mod_pos_bound; lia);
    change (2 ^ 6) with 64; change (2 ^ 3) with 8;
    Z.div_mod_to_equations; lia.
Qed.

Lemma OK_inj {A} (a b : A) : OK a = OK b -> a = b.
Proof. intros E. injection E. auto. Qed.

Lemma utf_8_encode_char_encoded c bs :
  Codec.utf_8_encode_char c = OK bs -> encoded c bs.
Proof.
  unfold Codec.utf_8_encode_char. split_tests; cbn [andb]; intros E;
    try discriminate E; apply OK_inj in E; subst bs.
  - apply enc1; lia.
  - bits_to_arith. change (2 ^ 6) with 64.
    rewrite (lor_add_low 0xC0 _ 6), (lor_add_low 0x80 _ 6);
      try reflexivity; try lia; change (2 ^ 6) with 64;
      try (Z.div_mod_to_equations; lia).
    apply enc2; lia.
  - bits_to_arith. change (2 ^ 6) with 64. change (2 ^ 12) with 4096.
    rewrite (lor_add_low 0xE0 _ 5), !(lor_add_low 0x80 _ 6);
      try reflexivity; try lia; change (2 ^ 6) with 64; change (2 ^ 5) with 32;
      try (Z.div_mod_to_equations; lia).
    apply enc3; lia.
  - bits_to_arith. change (2 ^ 6) with 64. change (2 ^ 12) with 4096.
    rewrite (lor_add_low 0xE0 _ 5), !(lor_add_low 0x80 _ 6);
      try reflexivity; try lia; change (2 ^ 6) with 64; change (2 ^ 5) with 32;
      try (Z.div_mod_to_equations; lia).
    apply enc3; lia.
  - bits_to_arith. change (2 ^ 6) with 64. change (2 ^ 12) with 4096.
    change (2 ^ 18) with 262144.
    rewrite (lor_add_low 0xF0 _ 4), !(lor_add_low 0x80 _ 6);
      try reflexivity; try lia; change (2 ^ 6) with 64; change (2 ^ 4) with 16;
      try (Z.div_mod_to_equations; lia).
    apply enc4; lia.
Qed.

Lemma encoded_octets c bs :
  encoded c bs -> Forall (fun b => 0 <= b < 256) bs.
Proof.
  intros [H | H | H Hs | H]; repeat constructor;
    Z.div_mod_to_equations; lia.
Qed.

Lemma utf_8_decode_encoded c bs r :
  encoded c bs ->
  Codec.utf_8_decode (bs ++ r) = (s <- Codec.utf_8_decode r ;; OK (c :: s))%result.
Proof.
  intros [H | H | H Hs | H]; cbn [app].
  - apply decode_1. lia.
  - rewrite decode_2 by (Z.div_mod_to_equations; lia).
    apply rbind_ext. intros s. do 2 f_equal. Z.div_mod_to_equations. lia.
  - rewrite decode_3 by (Z.div_mod_to_equations; lia).
    apply rbind_ext. intros s. do 2 f_equal. Z.div_mod_to_equations. lia.
  - rewrite decode_4 by (Z.div_mod_to_equations; lia).
    apply rbind_ext. intros s. do 2 f_equal. Z.div_mod_to_equations. lia.
Qed.

(** ** The repair step on strings *)

Lemma rbind_OK {A B} (m : result A) (f : A -> result B) (b : B) :
  rbind m f = OK b -> exists a, m = OK a /\ f a = OK b.
Proof. destruct m; cbn; intros E; [eauto | discriminate]. Qed.

Lemma latin_1_encode_octets b :
  Forall octet b -> Codec.latin_1_encode b = OK b.
Proof.
  unfold Codec.latin_1_encode.
  induction 1 as [| x r Hx _ IH]; cbn [rmap]; [reflexivity |].
  unfold Codec.latin_1_encode_char at 1. unfold octet in Hx.
  split_tests. cbn [andb rbind]. rewrite IH. reflexivity.
Qed.

Lemma latin_1_encode_wide s c :
  In c s -> 0xFF < c -> Codec.latin_1_encode s = Raise UnicodeEncodeError.
Proof.
  unfold Codec.latin_1_encode.
  induction s as [| x r IH]; intros Hin Hc; [destruct Hin |].
  cbn [rmap]. unfold Codec.latin_1_encode_char at 1.
  destruct ((0 <=? x) && (x <? 256)) eqn:Hx; cbn [rbind]; [| reflexivity].
  destruct Hin as [-> | Hin].
  - apply andb_prop in Hx. destruct Hx as [_ Hx].
    apply Z.ltb_lt in Hx. lia.
  - rewrite (IH Hin Hc). reflexivity.
Qed.

Lemma utf_8_encode_octets t b :
  Codec.utf_8_encode t = OK b -> Forall octet b.
Proof.
  revert b. induction t as [| c r IH]; cbn [Codec.utf_8_encode]; intros b E.
  - apply OK_inj in E. subst b. constructor.
  - apply rbind_OK in E. destruct E as (bs & Ec & E).
    apply rbind_OK in E. destruct E as (rest & Er & E).
    apply OK_inj in E. subst b. apply Forall_app. split.
    + apply (encoded_octets c). apply utf_8_encode_char_encoded, Ec.
    + apply IH, Er.
Qed.

Lemma utf_8_decode_encode t b :
  Codec.utf_8_encode t = OK b -> Codec.utf_8_decode b = OK t.
Proof.
  revert b. induction t as [| c r IH]; cbn [Codec.utf_8_encode]; intros b E.
  - apply OK_inj in E. subst b. reflexivity.
  - apply rbind_OK in E. destruct E as (bs & Ec & E).
    apply rbind_OK in E. destruct E as (rest & Er & E).
    apply OK_inj in E. subst b.
    rewrite (utf_8_decode_encoded c) by apply utf_8_encode_char_encoded, Ec.
    rewrite (IH rest Er). reflexivity.
Qed.

Lemma repair_mojibake t s : mojibake t = OK s -> repair s = OK t.
Proof.
  unfold mojibake, repair. intros E.
  apply rbind_OK in E. destruct E as (b & Eb & E).
  apply OK_inj in E. subst s. unfold Codec.latin_1_decode.
  rewrite latin_1_encode_octets by apply (utf_8_encode_octets t), Eb.
  cbn [rbind]. apply utf_8_decode_encode, Eb.
Qed.

Lemma utf_8_encode_ascii s :
  ascii_only s -> Codec.utf_8_encode s = OK s.
Proof.
  induction 1 as [| c r Hc _ IH]; cbn [Codec.utf_8_encode]; [reflexivity |].
  unfold Codec.utf_8_encode_char. split_tests.
  cbn [rbind]. rewrite IH. reflexivity.
Qed.

Lemma repair_ascii s : ascii_only s -> repair s = OK s.
Proof.
  intros H. apply repair_mojibake. unfold mojibake.
  rewrite utf_8_encode_ascii by assumption. reflexivity.
Qed.

(** ** The repair step on objects *)

Lemma rmap_inverse {A B} (f : A -> result B) (g : B -> result A) l l' :
  (forall x y, f x = OK y -> g y = OK x) ->
  rmap f l = OK l' -> rmap g l' = OK l.
Proof.
  intros Hfg. revert l'. induction l as [| x r IH]; cbn [rmap]; intros l' E.
  - apply OK_inj in E. subst l'. reflexivity.
  - apply rbind_OK in E. destruct E as (y & Ey & E).
    apply rbind_OK in E. destruct E as (ys & Eys & E).
    apply OK_inj in E. subst l'. cbn [rmap].
    rewrite (Hfg x y Ey). cbn [rbind]. rewrite (IH ys Eys). reflexivity.
Qed.

Lemma repair_corrupt_element x x' :
  corrupt_element x = OK x' -> repair_element x' = OK x.
Proof.
  destruct x; cbn [corrupt_element]; intros E;
    try (apply OK_inj in E; subst x'; reflexivity).
  apply rbind_OK in E. destruct E as (s' & Es & E).
  apply OK_inj in E. subst x'. cbn [repair_element].
  rewrite (repair_mojibake s s' Es). reflexivity.
Qed.

Lemma repair_corrupt_field v v' :
  corrupt_field v = OK v' -> repair_field v' = OK v.
Proof.
  destruct v; cbn [corrupt_field]; intros E;
    try (apply OK_inj in E; subst v'; reflexivity).
  - apply rbind_OK in E. destruct E as (s' & Es & E).
    apply OK_inj in E. subst v'. cbn [repair_field].
    rewrite (repair_mojibake s s' Es). reflexivity.
  - apply rbind_OK in E. destruct E as (l' & El & E).
    apply OK_inj in E. subst v'. cbn [repair_field].
    rewrite (rmap_inverse corrupt_element repair_element l l'
               repair_corrupt_element El).
    reflexivity.
Qed.

Lemma parseJsonObject_corrupt obj obj' :
  corrupt_object obj = OK obj' -> parseJsonObject obj' = OK obj.
Proof.
  unfold corrupt_object, parseJsonObject. apply rmap_inverse.
  intros [k v] [k' v']. cbn [fst snd]. intros E.
  apply rbind_OK in E. destruct E as (w & Ew & E).
  apply OK_inj in E. injection E as <- <-.
  rewrite (repair_corrupt_field v w Ew). reflexivity.
Qed.

Lemma repair_wide s c :
  In c s -> 0xFF < c -> repair s = Raise UnicodeEncodeError.
Proof.
  intros Hin Hc. unfold repair.
  rewrite (latin_1_encode_wide s c Hin Hc). reflexivity.
Qed.

Lemma latin_1_encode_error s e :
  Codec.latin_1_encode s = Raise e -> e = UnicodeEncodeError.
Proof.
  unfold Codec.latin_1_encode. induction s as [| x r IH]; cbn [rmap].
  - discriminate.
  - unfold Codec.latin_1_encode_char at 1.
    destruct ((0 <=? x) && (x <? 256)); cbn [rbind].
    + destruct (rmap Codec.latin_1_encode_char r); cbn [rbind].
      * discriminate.
      * intros E. apply IH. injection E as ->. reflexivity.
    + intros E. injection E as <-. reflexivity.
Qed.

Lemma utf_8_decode_error_bounded n b e :
  (List.length b <= n)%nat ->
  Codec.utf_8_decode b = Raise e -> e = UnicodeDecodeError.
Proof.
  revert b. induction n as [| n IH]; intros b Hn.
  - destruct b; [cbn; discriminate | cbn in Hn; lia].
  - destruct b as [| b0 r0]; [cbn; discriminate |].
    cbn [Codec.utf_8_decode].
    repeat match goal with
      | |- context [if ?t then _ else _] => destruct t
      | |- context [match ?r with [] => _ | _ :: _ => _ end] =>
          is_var r; destruct r
      end;
      try (intros E; discriminate E);
      try (intros E; injection E as <-; reflexivity);
      match goal with
      | |- rbind (Codec.utf_8_decode ?r) _ = _ -> _ =>
          destruct (Codec.utf_8_decode r) eqn:Er; cbn [rbind];
          [intros E; discriminate E
          | intros E; injection E as <-; apply (IH r);
            [cbn [List.length] in Hn |- *; lia | exact Er]]
      end.
Qed.

Lemma repair_error s e : repair s = Raise e -> encoding_error e.
Proof.
  unfold repair. destruct (Codec.latin_1_encode s) as [b |] eqn:Eb;
    cbn [rbind]; intros E.
  - right. apply (utf_8_decode_error_bounded (List.length b) b); auto.
  - left. injection E as <-. apply (latin_1_encode_error s), Eb.
Qed.

(** ** Induction on decoded JSON values *)

Section json_induction.

Variable P : json -> Prop.
Hypothesis Hnull : P JNull.
Hypothesis Hbool : forall b, P (JBool b).
Hypothesis Hint : forall z, P (JInt z).
Hypothesis Hstr : forall s, P (JStr s).
Hypothesis Hlist : forall l, Forall P l -> P (JList l).
Hypothesis Hobj : forall o, Forall (fun kv => P (snd kv)) o -> P (JObj o).

Fixpoint json_nested_ind (v : json) : P v :=
  match v with
  | JNull => Hnull
  | JBool b => Hbool b
  | JInt z => Hint z
  | JStr s => Hstr s
  | JList l =>
      Hlist l
        ((fix elems (l : list json) : Forall P l :=
            match l with
            | [] => Forall_nil P
            | x :: r => Forall_cons x (json_nested_ind x) (elems r)
            end) l)
  | JObj o =>
      Hobj o
        ((fix members (o : list (pystr * json))
            : Forall (fun kv => P (snd kv)) o :=
            match o with
            | [] => Forall_nil _
            | kv :: r =>
                Forall_cons kv (json_nested_ind (snd kv)) (members r)
            end) o)
  end.

End json_induction.

(** ** Errors of the hook *)

Lemma rmap_Raise {A B} (f : A -> result B) l e :
  rmap f l = Raise e -> exists x, In x l /\ f x = Raise e.
Proof.
  induction l as [| x r IH]; cbn [rmap]; [discriminate |].
  destruct (f x) as [y |] eqn:Ex; cbn [rbind].
  - destruct (rmap f r) as [ys |]; cbn [rbind]; [discriminate |].
    intros E. destruct (IH E) as (x' & Hin & Hx'). exists x'. split.
    + right. exact Hin.
    + exact Hx'.
  - intros E. exists x. split; [left; reflexivity | congruence].
Qed.

Lemma rmap_In {A B} (f : A -> result B) l l' x :
  rmap f l = OK l' -> In x l -> exists y, In y l' /\ f x = OK y.
Proof.
  revert l'. induction l as [| x0 r IH]; cbn [rmap]; intros l' E Hin.
  - destruct Hin.
  - apply rbind_OK in E. destruct E as (y & Ey & E).
    apply rbind_OK in E. destruct E as (ys & Eys & E).
    apply OK_inj in E. subst l'. destruct Hin as [-> | Hin].
    + exists y. split; [left; reflexivity | exact Ey].
    + destruct (IH ys Eys Hin) as (y' & Hy' & Ey').
      exists y'. split; [right; exact Hy' | exact Ey'].
Qed.

Lemma rmap_raises {A B} (f : A -> result B) l x e :
  In x l -> f x = Raise e -> exists e', rmap f l = Raise e'.
Proof.
  intros Hin Ex. destruct (rmap f l) as [l' |] eqn:E; [| eauto].
  destruct (rmap_In f l l' x E Hin) as (y & _ & Ey). congruence.
Qed.

Lemma repair_element_error x e :
  repair_element x = Raise e -> encoding_error e.
Proof.
  destruct x; cbn [repair_element]; try discriminate.
  destruct (repair s) eqn:Es; cbn [rbind]; [discriminate |].
  intros E. injection E as <-. apply (repair_error s), Es.
Qed.

Lemma repair_field_error v e :
  repair_field v = Raise e -> encoding_error e.
Proof.
  destruct v; cbn [repair_field]; try discriminate.
  - destruct (repair s) eqn:Es; cbn [rbind]; [discriminate |].
    intros E. injection E as <-. apply (repair_error s), Es.
  - destruct (rmap repair_element l) eqn:El; cbn [rbind]; [discriminate |].
    intros E. injection E as <-.
    destruct (rmap_Raise _ _ _ El) as (x & _ & Ex).
    apply (repair_element_error x), Ex.
Qed.

Lemma parseJsonObject_error obj e :
  parseJsonObject obj = Raise e -> encoding_error e.
Proof.
  unfold parseJsonObject. intros E.
  destruct (rmap_Raise _ _ _ E) as ([k v] & _ & Ekv). cbn [fst snd] in Ekv.
  destruct (repair_field v) eqn:Ev; cbn [rbind] in Ekv; [discriminate |].
  injection Ekv as <-. apply (repair_field_error v), Ev.
Qed.

Lemma repair_field_wide s c v :
  In c s -> 0xFF < c -> wide_in s v -> exists e, repair_field v = Raise e.
Proof.
  intros Hin Hc [-> | (l & -> & Hl)]; cbn [repair_field].
  - rewrite (repair_wide s c Hin Hc). cbn [rbind]. eauto.
  - destruct (rmap_raises repair_element l (JStr s) UnicodeEncodeError Hl)
      as (e & E).
    + cbn [repair_element]. rewrite (repair_wide s c Hin Hc). reflexivity.
    + rewrite E. cbn [rbind]. eauto.
Qed.

Lemma parseJsonObject_wide s c obj k v :
  In c s -> 0xFF < c -> In (k, v) obj -> wide_in s v ->
  exists e, parseJsonObject obj = Raise e /\ encoding_error e.
Proof.
  intros Hin Hc Hkv Hw.
  destruct (repair_field_wide s c v Hin Hc Hw) as (e0 & E0).
  destruct (rmap_raises
              (fun kv => (v <- repair_field (snd kv) ;; OK (fst kv, v))%result)
              obj (k, v) e0 Hkv) as (e & E).
  - cbn [fst snd]. rewrite E0. reflexivity.
  - exists e. split; [exact E |]. apply (parseJsonObject_error obj), E.
Qed.

Lemma object_hook_list l :
  object_hook (JList l)
  = (l' <- rmap object_hook l ;; OK (JList l'))%result.
Proof.
  cbn [object_hook]. f_equal.
  induction l as [| x r IH]; cbn [rmap]; [reflexivity |].
  rewrite IH. reflexivity.
Qed.

Lemma object_hook_obj o :
  object_hook (JObj o)
  = (o' <- rmap hook_member o ;; o'' <- parseJsonObject o' ;;
     OK (JObj o''))%result.
Proof.
  cbn [object_hook]. f_equal.
  induction o as [| [k x] r IH]; cbn [rmap]; [reflexivity |].
  rewrite IH.
  change (hook_member (k, x)) with (y <- object_hook x ;; OK (k, y))%result.
  destruct (object_hook x); reflexivity.
Qed.

Lemma object_hook_error v e :
  object_hook v = Raise e -> encoding_error e.
Proof.
  revert e. induction v as [| b | z | s | l IH | o IH] using json_nested_ind;
    intros e; try (cbn [object_hook]; discriminate).
  - rewrite object_hook_list.
    destruct (rmap object_hook l) eqn:El; cbn [rbind]; [discriminate |].
    intros E. injection E as <-.
    destruct (rmap_Raise _ _ _ El) as (x & Hx & Ex).
    rewrite Forall_forall in IH. apply (IH x Hx), Ex.
  - rewrite object_hook_obj.
    destruct (rmap hook_member o) as [o' |] eqn:Eo; cbn [rbind].
    + destruct (parseJsonObject o') eqn:Ep; cbn [rbind]; [discriminate |].
      intros E. injection E as <-. apply (parseJsonObject_error o'), Ep.
    + intros E. injection E as <-.
      destruct (rmap_Raise _ _ _ Eo) as ([k x] & Hx & Ex).
      unfold hook_member in Ex. cbn [fst snd] in Ex.
      destruct (object_hook x) eqn:Eh; cbn [rbind] in Ex; [discriminate |].
      injection Ex as <-. rewrite Forall_forall in IH.
      apply (IH (k, x) Hx), Eh.
Qed.

Lemma wide_in_hook s v v' :
  wide_in s v -> object_hook v = OK v' -> wide_in s v'.
Proof.
  intros [-> | (l & -> & Hl)].
  - cbn [object_hook]. intros E. apply OK_inj in E. subst v'.
    left. reflexivity.
  - rewrite object_hook_list. intros E.
    apply rbind_OK in E. destruct E as (l' & El & E).
    apply OK_inj in E. subst v'.
    destruct (rmap_In _ _ _ _ El Hl) as (y & Hy & Ey).
    cbn [object_hook] in Ey. apply OK_inj in Ey. subst y.
    right. exists l'. split; [reflexivity | exact Hy].
Qed.

Lemma object_hook_visits s c v :
  In c s -> 0xFF < c -> visits s v -> exists e, object_hook v = Raise e.
Proof.
  intros Hin Hc.
  induction 1 as [o k v Hkv Hw | o k v Hkv _ IH | l x Hx _ IH].
  - rewrite object_hook_obj.
    destruct (rmap hook_member o) as [o' |] eqn:Eo; cbn [rbind]; [| eauto].
    destruct (rmap_In _ _ _ _ Eo Hkv) as ([k' v'] & Hkv' & Ekv).
    unfold hook_member in Ekv. cbn [fst snd] in Ekv.
    apply rbind_OK in Ekv. destruct Ekv as (y & Ey & Ekv).
    apply OK_inj in Ekv. injection Ekv as <- <-.
    destruct (parseJsonObject_wide s c o' k y Hin Hc Hkv'
                (wide_in_hook s v y Hw Ey)) as (e & E & _).
    rewrite E. cbn [rbind]. eauto.
  - rewrite object_hook_obj. destruct IH as (e & E).
    destruct (rmap_raises hook_member o (k, v) e Hkv) as (e' & E').
    + unfold hook_member. cbn [fst snd]. rewrite E. reflexivity.
    + rewrite E'. cbn [rbind]. eauto.
  - rewrite object_hook_list. destruct IH as (e & E).
    destruct (rmap_raises object_hook l x e Hx E) as (e' & E').
    rewrite E'. cbn [rbind]. eauto.
Qed.

(** ** C1 and C10: the repair step *)

(** C1: a string that is UTF-8 text read as Latin-1 is repaired to the
    original text; so is an object whose string members and whose strings
    in list members carry that defect; and the repair leaves a string of
    ASCII characters as it is. *)
Theorem repair_recovers_text :
  (forall t s, mojibake t = OK s -> repair s = OK t)
  /\ (forall obj obj',
        corrupt_object obj = OK obj' -> parseJsonObject obj' = OK obj)
  /\ (forall s, ascii_only s -> repair s = OK s).
Proof.
  split; [| split].
  - exact repair_mojibake.
  - exact parseJsonObject_corrupt.
  - exact repair_ascii.
Qed.

Lemma repair_recovers_text_witness :
  repair [226; 157; 164; 239; 184; 143] = OK [0x2764; 0xFE0F]
  /\ parseJsonObject
       [(lit "reaction", JStr [240; 159; 152; 128]);
        (lit "tags", JList [JStr [195; 169]; JInt 7]);
        (lit "n", JInt 1)]
     = OK [(lit "reaction", JStr [0x1F600]);
           (lit "tags", JList [JStr [0xE9]; JInt 7]);
           (lit "n", JInt 1)]
  /\ repair (lit "hello") = OK (lit "hello").
Proof.
  split; [| split].
  - apply (proj1 repair_recovers_text [0x2764; 0xFE0F]). reflexivity.
  - apply (proj1 (proj2 repair_recovers_text)). reflexivity.
  - apply (proj2 (proj2 repair_recovers_text)).
    repeat constructor; cbn; lia.
Defined.

(** C10: a string with a code point above U+00FF is not repaired and not
    kept: the repair raises [UnicodeEncodeError], the hook raises an
    encoding error on every object that has such a string as a member or
    in a list member, and so does the load of every tree in which the hook
    meets such an object. *)
Theorem repair_raises_on_wide_text (s : pystr) (c : Z) :
  In c s -> 0xFF < c ->
  repair s = Raise UnicodeEncodeError
  /\ (forall obj k v,
        In (k, v) obj -> wide_in s v ->
        exists e, parseJsonObject obj = Raise e /\ encoding_error e)
  /\ (forall doc,
        visits s doc -> exists e, loadJson doc = Raise e /\ encoding_error e).
Proof.
  intros Hin Hc. split; [| split].
  - apply (repair_wide s c Hin Hc).
  - intros obj k v. apply (parseJsonObject_wide s c obj k v Hin Hc).
  - intros doc Hv. unfold loadJson.
    destruct (object_hook_visits s c doc Hin Hc Hv) as (e & E).
    exists e. split; [exact E |]. apply (object_hook_error doc), E.
Qed.

Lemma repair_raises_on_wide_text_witness :
  repair [0x1F600] = Raise UnicodeEncodeError
  /\ exists e,
       loadJson (JObj [(lit "messages",
                        JList [JObj [(lit "content", JStr [0x1F600])]])])
       = Raise e /\ encoding_error e.
Proof.
  assert (Hin : In 0x1F600 [0x1F600]) by (left; reflexivity).
  assert (Hc : 0xFF < 0x1F600) by lia.
  destruct (repair_raises_on_wide_text [0x1F600] 0x1F600 Hin Hc)
    as (Hr & _ & Hd).
  split; [exact Hr |]. apply Hd.
  eapply visits_member; [left; reflexivity |].
  eapply visits_element; [left; reflexivity |].
  eapply visits_here; [left; reflexivity |]. left. reflexivity.
Defined.

(** ** Stores *)

Lemma rows_of_upd (s : store) t rows t' :
  upd s t rows t' = if table_eq_dec t' t then rows else s t'.
Proof. destruct t', t; reflexivity. Qed.

Lemma upd_same (s : store) t rows : upd s t rows t = rows.
Proof.
  rewrite rows_of_upd. destruct (table_eq_dec t t); [reflexivity | tauto].
Qed.

Lemma upd_other (s : store) t rows t' :
  t' <> t -> upd s t rows t' = s t'.
Proof.
  intros Hn. rewrite rows_of_upd.
  destruct (table_eq_dec t' t); [tauto | reflexivity].
Qed.

Lemma store_ext (s s' : store) : (forall t, s t = s' t) -> s = s'.
Proof.
  intros H. destruct s, s'.
  pose proof (H conversations). pose proof (H participants).
  pose proof (H messages). pose proof (H photos). pose proof (H shares).
  pose proof (H files). pose proof (H gifs). pose proof (H videos).
  pose proof (H audio_files). pose proof (H reactions).
  pose proof (H stickers). cbn in *. congruence.
Qed.

(** ** The state monad *)

Lemma bind_OK {S A B} (m : St S A) (f : A -> St S B) s b s' :
  bind m f s = (OK b, s') ->
  exists a s1, m s = (OK a, s1) /\ f a s1 = (OK b, s').
Proof.
  unfold bind. destruct (m s) as [[a | e] s1]; intros E.
  - exists a, s1. split; [reflexivity | exact E].
  - discriminate E.
Qed.

Lemma lift_OK {S A} (r : result A) (s : S) a s' :
  lift r s = (OK a, s') -> r = OK a /\ s' = s.
Proof. unfold lift. intros E. injection E as -> ->. split; reflexivity. Qed.

Lemma ret_OK {S A} (x : A) (s : S) a s' :
  ret x s = (OK a, s') -> a = x /\ s' = s.
Proof. unfold ret. intros E. injection E as -> ->. split; reflexivity. Qed.

Lemma get_OK {S} (s : S) a s' :
  get s = (OK a, s') -> a = s /\ s' = s.
Proof. unfold get. intros E. injection E as -> ->. split; reflexivity. Qed.

Lemma stable_ret {S A} (I : S -> Prop) (a : A) : stable I (ret a).
Proof. intros s r s' H E. injection E as _ <-. exact H. Qed.

Lemma stable_raise {S A} (I : S -> Prop) e : stable I (@raise S A e).
Proof. intros s r s' H E. injection E as _ <-. exact H. Qed.

Lemma stable_lift {S A} (I : S -> Prop) (x : result A) : stable I (lift x).
Proof. intros s r s' H E. injection E as _ <-. exact H. Qed.

Lemma stable_get {S} (I : S -> Prop) : stable I get.
Proof. intros s r s' H E. injection E as _ <-. exact H. Qed.

Lemma stable_bind {S A B} (I : S -> Prop) (m : St S A) (f : A -> St S B) :
  stable I m -> (forall a, stable I (f a)) -> stable I (bind m f).
Proof.
  intros Hm Hf s r s' H. unfold bind.
  destruct (m s) as [[a | e] s1] eqn:Em; intros E.
  - apply (Hf a s1 r s'); [apply (Hm s (OK a) s1 H Em) | exact E].
  - injection E as _ <-. apply (Hm s (Raise e) s1 H Em).
Qed.

Lemma stable_for_each {S A} (I : S -> Prop) (l : list A)
    (body : A -> St S unit) :
  (forall x, In x l -> stable I (body x)) -> stable I (for_each l body).
Proof.
  induction l as [| x r IH]; intros Hb; cbn [for_each].
  - apply stable_ret.
  - apply stable_bind.
    + apply Hb. left. reflexivity.
    + intros _. apply IH. intros y Hy. apply Hb. right. exact Hy.
Qed.

Lemma stable_if {S A} (I : S -> Prop) (b : bool) (m1 m2 : St S A) :
  stable I m1 -> stable I m2 -> stable I (if b then m1 else m2).
Proof. destruct b; auto. Qed.

(** ** Which tables an operation writes *)

Lemma same_outside_refl ts w : same_outside ts w w.
Proof. repeat split. Qed.

Lemma writes_weaken {A} ts ts' (m : St Database.world A) :
  incl ts ts' -> writes ts m -> writes ts' m.
Proof.
  intros Hincl Hm w0 s r s' (Hc & Ht & Hrest) E.
  destruct (Hm s s r s' (same_outside_refl ts s) E) as (Hc' & Ht' & Hrest').
  split; [congruence |]. split.
  - intros t Hn. rewrite Ht' by (intros Hin; apply Hn, Hincl, Hin).
    apply Ht, Hn.
  - destruct Hrest as (H1 & H2 & H3). destruct Hrest' as (H1' & H2' & H3').
    repeat split; congruence.
Qed.

Lemma writes_run {A} ts (m : St Database.world A) w r w' :
  writes ts m -> m w = (r, w') -> same_outside ts w w'.
Proof. intros Hm E. apply (Hm w w r w' (same_outside_refl ts w) E). Qed.

Section Writes.

Variable accepts : table -> list row -> list sqlval -> bool.

Lemma writes_insert t params :
  writes [t] (Database.on_db (Database.execute_insert accepts t params)).
Proof.
  intros w0 [[cm wk] conv] r w' (Hc & Ht & Hrest).
  unfold Database.on_db, Database.execute_insert. cbn in *.
  destruct (rmap bind_param params) as [vals |];
    [destruct (accepts t (wk t) vals) |];
    intros E; injection E as _ <-; unfold same_outside; cbn;
    (split; [exact Hc |]; split; [| exact Hrest]); try exact Ht.
  intros t' Hn. rewrite rows_of_upd.
  destruct (table_eq_dec t' t) as [-> | _].
  - destruct Hn. left. reflexivity.
  - apply Ht, Hn.
Qed.

Lemma writes_set_participant name v :
  writes [] (Database.set_participant name v).
Proof.
  intros w0 w r w' (Hc & Ht & Hrest). unfold Database.set_participant.
  destruct (dict_set _ name v); intros E; injection E as _ <-;
    unfold same_outside; cbn;
    (split; [exact Hc |]; split; [exact Ht | exact Hrest]).
Qed.

Lemma stable_insert ts w0 t params :
  In t ts ->
  stable (same_outside ts w0)
    (Database.on_db (Database.execute_insert accepts t params)).
Proof.
  intros Hin. apply (writes_weaken [t] ts).
  - intros t' [<- | []]. exact Hin.
  - apply writes_insert.
Qed.

Lemma stable_set_participant ts w0 name v :
  stable (same_outside ts w0) (Database.set_participant name v).
Proof.
  apply (writes_weaken [] ts).
  - intros t' [].
  - apply writes_set_participant.
Qed.

End Writes.

(** Solves [stable (same_outside ts w0) m] for straight-line code. *)
Ltac stable_auto :=
  repeat first
    [ apply stable_ret | apply stable_raise | apply stable_lift
    | apply stable_get
    | apply stable_set_participant
    | apply stable_insert; cbn; tauto
    | apply stable_bind; [| intros ?]
    | apply stable_for_each; intros ? _
    | match goal with
      | |- stable _ (match ?x with _ => _ end) => destruct x
      end ].


Section Frames.

Variable accepts : table -> list row -> list sqlval -> bool.

Lemma writes_saveParticipant convo_id participant current :
  writes [participants]
    (Database._saveParticipant accepts convo_id participant current).
Proof. intros w0. unfold Database._saveParticipant. stable_auto. Qed.

Lemma writes_getParticipantId name :
  writes [participants] (Database._getParticipantId accepts name).
Proof.
  intros w0. unfold Database._getParticipantId, Database._saveParticipant.
  stable_auto.
Qed.

Lemma stable_getParticipantId ts w0 name :
  In participants ts ->
  stable (same_outside ts w0) (Database._getParticipantId accepts name).
Proof.
  intros Hin. apply (writes_weaken [participants] ts).
  - intros t' [<- | []]. exact Hin.
  - apply writes_getParticipantId.
Qed.

Lemma writes_saveReaction message_id user_id reaction :
  writes [reactions]
    (Database._saveReaction accepts message_id user_id reaction).
Proof. intros w0. unfold Database._saveReaction. stable_auto. Qed.

Lemma writes_saveAttachement t message_id item :
  writes [t] (Database._saveAttachement accepts t message_id item).
Proof. intros w0. unfold Database._saveAttachement. stable_auto. Qed.

Lemma writes_saveSticker message_id sticker :
  writes [stickers] (Database._saveSticker accepts message_id sticker).
Proof. intros w0. unfold Database._saveSticker. stable_auto. Qed.

Lemma writes_saveShare message_id share :
  writes [shares] (Database._saveShare accepts message_id share).
Proof. intros w0. unfold Database._saveShare. stable_auto. Qed.

Lemma stable_for_each_in (I : Database.world -> Prop) item k body :
  (forall x, stable I (body x)) ->
  stable I (Database.for_each_in item k body).
Proof.
  intros Hb. unfold Database.for_each_in. stable_auto. apply Hb.
Qed.

Lemma stable_when_in (I : Database.world -> Prop) item k body :
  (forall x, stable I (body x)) ->
  stable I (Database.when_in item k body).
Proof.
  intros Hb. unfold Database.when_in. stable_auto. apply Hb.
Qed.

(** The part of [_saveMessage] after the INSERT into [messages]. *)
Lemma writes_reactions_loop item message_id :
  writes [participants; reactions]
    (Database.for_each_in item (lit "reactions") (fun reaction =>
       actor <- lift (py_getitem reaction (lit "actor")) ;;
       user_id <- Database._getParticipantId accepts actor ;;
       symbol <- lift (py_getitem reaction (lit "reaction")) ;;
       Database._saveReaction accepts message_id user_id symbol)%st).
Proof.
  intros w0. apply stable_for_each_in. intros reaction.
  unfold Database._saveReaction. stable_auto.
Qed.

Lemma writes_attachement_loop t item message_id :
  writes [t]
    (Database.for_each_in item (table_name t) (fun data =>
       Database._saveAttachement accepts t message_id data)).
Proof.
  intros w0. apply stable_for_each_in. intros data.
  apply writes_saveAttachement.
Qed.

Lemma writes_saveMessage item :
  writes [participants; messages; reactions; photos; videos; files;
          audio_files; gifs; shares; stickers]
    (Database._saveMessage accepts item).
Proof.
  intros w0. unfold Database._saveMessage. stable_auto.
Qed.

Lemma writes_save_messages msgs result :
  writes [participants; messages; reactions; photos; videos; files;
          audio_files; gifs; shares; stickers]
    (Database.save_messages accepts msgs result).
Proof.
  intros w0. revert result.
  induction msgs as [| message r IH]; intros result;
    cbn [Database.save_messages].
  - apply stable_ret.
  - apply stable_bind; [| intros result'; apply IH].
    destruct (Database.truthy result); [| apply stable_ret].
    apply stable_bind; [apply writes_saveMessage | intros; apply stable_ret].
Qed.

Lemma writes_saveConversation :
  writes Database.all_tables (Database._saveConversation accepts).
Proof.
  intros w0. unfold Database._saveConversation.
  apply stable_bind; [apply stable_get | intros w].
  do 3 (apply stable_bind; [apply stable_lift | intros ?]).
  apply stable_bind; [apply stable_insert; cbn; tauto | intros _].
  apply stable_bind.
  - apply stable_for_each. intros participant _.
    apply stable_bind; [| intros; apply stable_set_participant].
    apply stable_insert. cbn. tauto.
  - intros _.
    apply (writes_weaken
             [participants; messages; reactions; photos; videos; files;
              audio_files; gifs; shares; stickers] Database.all_tables).
    + intros t Ht. cbn in Ht |- *. tauto.
    + apply writes_save_messages.
Qed.

End Frames.

(** ** C2 and C3: merging chunks *)

Lemma loadMessages_inv self doc self' :
  Conversation.loadMessages self doc = OK self' ->
  exists m more self1,
    chunk_metadata doc = OK m
    /\ doc_messages doc = OK more
    /\ Conversation.messages self1 = Conversation.messages self
    /\ Conversation.chunks_loaded self1 = Conversation.chunks_loaded self
    /\ (Conversation.metadata self = [] ->
        Conversation.metadata self1 = m)
    /\ (Conversation.metadata self <> [] ->
        self1 = self /\ same_metadata (Conversation.metadata self) m = true)
    /\ self' = {| Conversation.directory := Conversation.directory self1;
                  Conversation.metadata := Conversation.metadata self1;
                  Conversation.participants :=
                    Conversation.participants self1;
                  Conversation.chunks_loaded :=
                    Conversation.chunks_loaded self1 + 1;
                  Conversation.messages :=
                    Conversation.messages self1 ++ more;
                  Conversation.id := Conversation.id self1 |}.
Proof.
  unfold Conversation.loadMessages, chunk_metadata, doc_messages.
  intros E.
  apply rbind_OK in E. destruct E as (title & -> & E).
  apply rbind_OK in E. destruct E as (thread_type & -> & E).
  apply rbind_OK in E. destruct E as (thread_path & -> & E).
  apply rbind_OK in E. destruct E as (self1 & E1 & E).
  apply rbind_OK in E. destruct E as (msgs & -> & E).
  apply rbind_OK in E. destruct E as (more & Emore & E).
  apply OK_inj in E. cbn [rbind].
  exists (metadata_dict title thread_type thread_path), more, self1.
  split; [reflexivity |]. split; [exact Emore |].
  destruct (Conversation.metadata self) as [| kv md] eqn:Emd.
  - apply rbind_OK in E1. destruct E1 as (roster & _ & E1).
    apply rbind_OK in E1. destruct E1 as (ps & _ & E1).
    apply rbind_OK in E1. destruct E1 as (d & _ & E1).
    apply OK_inj in E1. subst self1. cbn.
    split; [reflexivity |]. split; [reflexivity |].
    split; [intros _; reflexivity |].
    split; [intros H; destruct H; reflexivity | symmetry; exact E].
  - fold (metadata_dict title thread_type thread_path) in E1.
    fold (same_metadata (kv :: md)
            (metadata_dict title thread_type thread_path)) in E1.
    destruct (same_metadata (kv :: md) _) eqn:Esame; [| discriminate E1].
    apply OK_inj in E1. subst self1.
    split; [reflexivity |]. split; [reflexivity |].
    split; [intros H; discriminate H |].
    split; [intros _; split; reflexivity | symmetry; exact E].
Qed.

Lemma loadMessages_messages self doc self' :
  Conversation.loadMessages self doc = OK self' ->
  Conversation.messages self' = Conversation.messages self ++ messages_of doc
  /\ Conversation.chunks_loaded self' = Conversation.chunks_loaded self + 1.
Proof.
  intros E. destruct (loadMessages_inv self doc self' E)
    as (m & more & self1 & _ & Emore & Hm & Hc & _ & _ & ->).
  unfold messages_of. rewrite Emore. cbn. rewrite Hm, Hc. split; reflexivity.
Qed.



Lemma pystr_eqb_eq a b : pystr_eqb a b = true <-> a = b.
Proof.
  unfold pystr_eqb. destruct (list_eq_dec Z.eq_dec a b); split;
    auto; discriminate.
Qed.

Lemma pystr_eqb_refl a : pystr_eqb a a = true.
Proof. apply pystr_eqb_eq. reflexivity. Qed.

Lemma same_metadata_dict a b c a' b' c' :
  same_metadata (metadata_dict a b c) (metadata_dict a' b' c')
  = py_eqb a a' && py_eqb b b' && py_eqb c c'.
Proof.
  unfold same_metadata, metadata_dict.
  cbn -[py_eqb]. cbn [py_eqb List.length Nat.eqb assoc].
  vm_compute (pystr_eqb (lit "title") (lit "title")).
  vm_compute (pystr_eqb (lit "thread_type") (lit "title")).
  vm_compute (pystr_eqb (lit "thread_type") (lit "thread_type")).
  vm_compute (pystr_eqb (lit "thread_path") (lit "title")).
  vm_compute (pystr_eqb (lit "thread_path") (lit "thread_type")).
  vm_compute (pystr_eqb (lit "thread_path") (lit "thread_path")).
  cbn [andb]. rewrite andb_true_r, andb_assoc. reflexivity.
Qed.

Lemma same_metadata_strings t y p t' y' p' :
  same_metadata (metadata_dict (JStr t) (JStr y) (JStr p))
                (metadata_dict (JStr t') (JStr y') (JStr p')) = true
  <-> (t, y, p) = (t', y', p').
Proof.
  rewrite same_metadata_dict. cbn [py_eqb].
  rewrite !andb_true_iff, !pystr_eqb_eq. split.
  - intros [[-> ->] ->]. reflexivity.
  - intros E. injection E as -> -> ->. auto.
Qed.

Lemma loadMessages_metadata self doc self' :
  Conversation.loadMessages self doc = OK self' ->
  Conversation.metadata self' <> []
  /\ (Conversation.metadata self = [] ->
      chunk_metadata doc = OK (Conversation.metadata self'))
  /\ (Conversation.metadata self <> [] ->
      Conversation.metadata self' = Conversation.metadata self).
Proof.
  intros E. destruct (loadMessages_inv self doc self' E)
    as (m & more & self1 & Em & _ & _ & _ & Hfirst & Hnext & ->).
  cbn [Conversation.metadata].
  destruct (Conversation.metadata self) as [| kv md] eqn:Emd.
  - rewrite (Hfirst eq_refl). split; [| split].
    + unfold chunk_metadata in Em.
      apply rbind_OK in Em. destruct Em as (a & _ & Em).
      apply rbind_OK in Em. destruct Em as (b & _ & Em).
      apply rbind_OK in Em. destruct Em as (c & _ & Em).
      apply OK_inj in Em. subst m. discriminate.
    + intros _. exact Em.
    + intros H. destruct H. reflexivity.
  - destruct Hnext as (-> & _); [discriminate |].
    rewrite Emd. split; [discriminate |]. split.
    + intros H. discriminate H.
    + intros _. reflexivity.
Qed.

(** C3: once a conversation has absorbed a chunk its metadata is set; a
    further chunk whose metadata dict differs from it raises the
    assertion's error, and one whose metadata dict is equal is merged and
    leaves the stored metadata as it is.  For string-valued titles, types
    and paths the two dicts are equal exactly when the three strings are. *)
Theorem loadMessages_checks_metadata
    (self0 self : Conversation.t) (doc0 doc : json)
    (m : list (pystr * json)) :
  Conversation.loadMessages self0 doc0 = OK self ->
  chunk_metadata doc = OK m ->
  (same_metadata (Conversation.metadata self) m = false ->
   Conversation.loadMessages self doc = Raise AssertionError)
  /\ (same_metadata (Conversation.metadata self) m = true ->
      forall more, doc_messages doc = OK more ->
      exists self',
        Conversation.loadMessages self doc = OK self'
        /\ Conversation.metadata self' = Conversation.metadata self
        /\ Conversation.participants self' = Conversation.participants self)
  /\ (forall t y p t' y' p',
        Conversation.metadata self
        = metadata_dict (JStr t) (JStr y) (JStr p) ->
        m = metadata_dict (JStr t') (JStr y') (JStr p') ->
        (same_metadata (Conversation.metadata self) m = true
         <-> (t, y, p) = (t', y', p'))).
Proof.
  intros E0 Em.
  destruct (loadMessages_metadata self0 doc0 self E0) as (Hset & _ & _).
  unfold chunk_metadata in Em.
  apply rbind_OK in Em. destruct Em as (a & Ea & Em).
  apply rbind_OK in Em. destruct Em as (b & Eb & Em).
  apply rbind_OK in Em. destruct Em as (c & Ec & Em).
  apply OK_inj in Em. subst m.
  split; [| split].
  - intros Hdiff. unfold Conversation.loadMessages.
    rewrite Ea, Eb, Ec. cbn [rbind].
    destruct (Conversation.metadata self) as [| kv md] eqn:Emd;
      [destruct Hset; reflexivity |].
    fold (metadata_dict a b c).
    fold (same_metadata (kv :: md) (metadata_dict a b c)).
    rewrite Hdiff. reflexivity.
  - intros Hsame more Emore. unfold Conversation.loadMessages.
    rewrite Ea, Eb, Ec. cbn [rbind].
    destruct (Conversation.metadata self) as [| kv md] eqn:Emd;
      [destruct Hset; reflexivity |].
    fold (metadata_dict a b c).
    fold (same_metadata (kv :: md) (metadata_dict a b c)).
    rewrite Hsame. cbn [rbind].
    unfold doc_messages in Emore.
    apply rbind_OK in Emore. destruct Emore as (msgs & Emsgs & Emore).
    rewrite Emsgs. cbn [rbind]. rewrite Emore. cbn [rbind].
    eexists. split; [reflexivity |]. cbn. split; [exact Emd | reflexivity].
  - intros t y p t' y' p' -> E. injection E as -> -> ->.
    apply same_metadata_strings.
Qed.

Lemma loadMessages_checks_metadata_witness :
  Conversation.loadMessages trip_after_1 chunk_other = Raise AssertionError
  /\ exists self',
       Conversation.loadMessages trip_after_1 loaded_2 = OK self'
       /\ Conversation.metadata self' = Conversation.metadata trip_after_1
       /\ Conversation.participants self'
          = Conversation.participants trip_after_1.
Proof.
  assert (E0 : Conversation.loadMessages (Conversation.init trip_dir)
                 loaded_1 = OK trip_after_1) by (vm_compute; reflexivity).
  split.
  - apply (loadMessages_checks_metadata (Conversation.init trip_dir)
             trip_after_1 loaded_1 chunk_other
             (metadata_dict (str "Work") (str "RegularGroup")
                (str "inbox/trip_1")) E0);
      vm_compute; reflexivity.
  - apply (loadMessages_checks_metadata (Conversation.init trip_dir)
             trip_after_1 loaded_1 loaded_2
             (metadata_dict (str "Trip") (str "RegularGroup")
                (str "inbox/trip_1")) E0)
      with (more := messages_of loaded_2);
      vm_compute; reflexivity.
Defined.

(** ** C9: discovery of the chunk files *)

Lemma starts_with_prefix p s :
  starts_with p s = true <-> exists b, s = p ++ b.
Proof.
  revert s. induction p as [| a p IH]; intros s; cbn [starts_with].
  - split; [intros _; exists s; reflexivity | reflexivity].
  - destruct s as [| c s].
    + split; [discriminate | intros [b E]; discriminate E].
    + rewrite andb_true_iff, Z.eqb_eq, IH. split.
      * intros [-> [b ->]]. exists b. reflexivity.
      * intros [b E]. injection E as -> ->. split; [reflexivity |].
        exists b. reflexivity.
Qed.

Lemma contains_substring needle hay :
  contains needle hay = true <-> substring needle hay.
Proof.
  unfold substring. induction hay as [| c r IH]; cbn [contains].
  - rewrite orb_false_r, starts_with_prefix. split.
    + intros [b E]. exists [], b. exact E.
    + intros (a & b & E). destruct a as [| x a]; [| discriminate E].
      exists b. exact E.
  - rewrite orb_true_iff, starts_with_prefix, IH. split.
    + intros [[b E] | (a & b & E)].
      * exists [], b. exact E.
      * exists (c :: a), b. rewrite E. reflexivity.
    + intros (a & b & E). destruct a as [| x a].
      * left. exists b. exact E.
      * right. injection E as -> E. exists a, b. exact E.
Qed.

Lemma ends_with_substring suffix s :
  ends_with suffix s = true -> substring suffix s.
Proof.
  unfold ends_with, substring. rewrite starts_with_prefix.
  intros [b E]. exists (rev b), [].
  rewrite app_nil_r, <- (rev_involutive s), E, rev_app_distr, rev_involutive.
  reflexivity.
Qed.

Lemma isMessageFile_substrings f :
  isMessageFile f = true
  <-> substring (lit ".json") f /\ substring (lit "message") f.
Proof.
  unfold isMessageFile.
  rewrite andb_true_iff, !contains_substring. reflexivity.
Qed.

(** C9, as the code has it: the files returned are, in the order of the
    directory listing, those whose name has both ['.json'] and ['message']
    somewhere in it, each prefixed with the directory and a backslash.
    Every file that ends in ['.json'] and has the marker is among them. *)
Theorem getMessagePaths_lists_marked_files
    (all_files : list pystr) (directory : pystr) :
  getMessagePaths all_files directory
  = map (in_directory directory) (filter isMessageFile all_files)
  /\ (forall f, isMessageFile f = true
                <-> substring (lit ".json") f /\ substring (lit "message") f)
  /\ (forall f, In f all_files ->
                ends_with (lit ".json") f = true ->
                contains (lit "message") f = true ->
                In (in_directory directory f)
                   (getMessagePaths all_files directory)).
Proof.
  split; [reflexivity |]. split; [exact isMessageFile_substrings |].
  intros f Hin Hend Hmark. unfold getMessagePaths.
  apply (in_map (in_directory directory)). apply filter_In.
  split; [exact Hin |]. apply isMessageFile_substrings. split.
  - apply ends_with_substring, Hend.
  - apply contains_substring, Hmark.
Qed.

Lemma getMessagePaths_lists_marked_files_witness :
  In (in_directory (lit "messages\trip_1") (lit "message_1.json"))
     (getMessagePaths [lit "photos"; lit "message_1.json"]
        (lit "messages\trip_1")).
Proof.
  apply (getMessagePaths_lists_marked_files
           [lit "photos"; lit "message_1.json"] (lit "messages\trip_1")).
  - right. left. reflexivity.
  - reflexivity.
  - reflexivity.
Defined.

(** C9 as the spec words it fails: a file whose name has ['.json'] in the
    middle and does not end with it is returned. *)
Lemma getMessagePaths_returns_non_suffix :
  ends_with (lit ".json") (lit "message_1.json.bak") = false
  /\ getMessagePaths [lit "message_1.json.bak"] (lit "messages\trip_1")
     = [lit "messages\trip_1\message_1.json.bak"].
Proof. split; reflexivity. Qed.

(** ** [split] and the last segment *)

Lemma str_split_no_sep sep s : ~ In sep s -> str_split sep s = [s].
Proof.
  induction s as [| c r IH]; intros Hn; cbn [str_split]; [reflexivity |].
  destruct (Z.eqb_spec c sep) as [-> | _].
  - destruct Hn. left. reflexivity.
  - rewrite IH by (intros H; apply Hn; right; exact H). reflexivity.
Qed.

Lemma str_split_at_sep sep a b :
  exists w ws,
    str_split sep (a ++ sep :: b) = (w :: ws) ++ str_split sep b.
Proof.
  induction a as [| c a (w & ws & IH)]; cbn [app str_split].
  - rewrite Z.eqb_refl. exists [], []. reflexivity.
  - destruct (c =? sep).
    + exists [], (w :: ws). rewrite IH. reflexivity.
    + rewrite IH. exists (c :: w), ws. reflexivity.
Qed.

Lemma str_split_not_nil sep s : str_split sep s <> [].
Proof.
  destruct s as [| c r]; cbn [str_split]; [discriminate |].
  destruct (c =? sep); [discriminate |].
  destruct (str_split sep r); discriminate.
Qed.

Lemma last_app_not_nil {A} (l l' : list A) d :
  l' <> [] -> last (l ++ l') d = last l' d.
Proof.
  intros Hn. induction l as [| x l IH]; [reflexivity |].
  cbn [app]. rewrite <- IH. destruct (l ++ l') eqn:E; [| reflexivity].
  apply app_eq_nil in E. destruct E as [_ E]. destruct (Hn E).
Qed.

Lemma last_segment_no_slash s :
  ~ In 47 s -> last (str_split 47 s) [] = s.
Proof. intros Hn. rewrite str_split_no_sep by exact Hn. reflexivity. Qed.

Lemma last_segment_after_slash a b :
  ~ In 47 b -> last (str_split 47 (a ++ 47 :: b)) [] = b.
Proof.
  intros Hn. destruct (str_split_at_sep 47 a b) as (w & ws & ->).
  rewrite last_app_not_nil by apply str_split_not_nil.
  apply last_segment_no_slash, Hn.
Qed.

Lemma last_segment_shorter a b :
  ~ In 47 b -> last (str_split 47 (a ++ 47 :: b)) [] <> a ++ 47 :: b.
Proof.
  intros Hn. rewrite (last_segment_after_slash a b Hn). intros E.
  apply Hn. rewrite E. apply in_or_app. right. left. reflexivity.
Qed.

(** ** Single statements *)

Section Statements.

Variable accepts : table -> list row -> list sqlval -> bool.

Lemma insert_OK t params w key w' :
  Database.on_db (Database.execute_insert accepts t params) w = (OK key, w') ->
  exists vals,
    rmap bind_param params = OK vals
    /\ key = next_rowid (working (Database.db w) t)
    /\ working (Database.db w') t
       = working (Database.db w) t ++ [mkrow key vals]
    /\ Database.conversation w' = Database.conversation w.
Proof.
  destruct w as [[cm wk] conv].
  unfold Database.on_db, Database.execute_insert. cbn.
  destruct (rmap bind_param params) as [vals |]; [| discriminate].
  destruct (accepts t (wk t) vals); [| discriminate].
  intros E. injection E as <- <-. exists vals. cbn.
  rewrite upd_same. repeat split.
Qed.

Lemma insert_Raise t params w e w' :
  Database.on_db (Database.execute_insert accepts t params) w = (Raise e, w') ->
  w' = w.
Proof.
  destruct w as [[cm wk] conv].
  unfold Database.on_db, Database.execute_insert. cbn.
  destruct (rmap bind_param params) as [vals |];
    [destruct (accepts t (wk t) vals) |];
    intros E; try discriminate E; injection E as _ <-; reflexivity.
Qed.

Lemma bind_param_int z v : bind_param (JInt z) = OK v -> v = SInt z.
Proof.
  cbn [bind_param]. destruct ((- 2 ^ 63 <=? z) && (z <? 2 ^ 63));
    [| discriminate].
  intros E. apply OK_inj in E. auto.
Qed.

End Statements.

(** ** [_saveMessage], step by step *)

Section SaveMessage.

Variable accepts : table -> list row -> list sqlval -> bool.

Lemma writes_save_reactions item message_id :
  writes [participants; reactions] (save_reactions accepts item message_id).
Proof. intros w0. unfold save_reactions. stable_auto. Qed.

Lemma writes_save_attachements_of item message_id t :
  writes [t] (save_attachements_of accepts item message_id t).
Proof. intros w0. unfold save_attachements_of. stable_auto. Qed.

Lemma writes_save_share_and_sticker item message_id :
  writes [shares; stickers] (save_share_and_sticker accepts item message_id).
Proof. intros w0. unfold save_share_and_sticker. stable_auto. Qed.

Lemma saveMessage_inv item w message_id w' :
  Database._saveMessage accepts item w = (OK message_id, w') ->
  exists content timestamp_ms epoch sender_name sender_id type w1 w2 w3 w4,
    Database.get_or_none item (lit "content") = OK content
    /\ py_getitem item (lit "timestamp_ms") = OK timestamp_ms
    /\ py_floordiv timestamp_ms 1000 = OK epoch
    /\ py_getitem item (lit "sender_name") = OK sender_name
    /\ Database._getParticipantId accepts sender_name w = (OK sender_id, w1)
    /\ py_getitem item (lit "type") = OK type
    /\ Database.on_db
         (Database.execute_insert accepts messages
            (message_params epoch type sender_id
               (Conversation.id (Database.conversation w1)) content)) w1
       = (OK message_id, w2)
    /\ save_reactions accepts item message_id w2 = (OK tt, w3)
    /\ for_each Database.attachements
         (save_attachements_of accepts item message_id) w3 = (OK tt, w4)
    /\ save_share_and_sticker accepts item message_id w4 = (OK tt, w').
Proof.
  unfold Database._saveMessage. intros E.
  apply bind_OK in E. destruct E as (content & s & E1 & E).
  apply lift_OK in E1. destruct E1 as (Econtent & ->).
  apply bind_OK in E. destruct E as (timestamp_ms & s & E1 & E).
  apply lift_OK in E1. destruct E1 as (Ets & ->).
  apply bind_OK in E. destruct E as (epoch & s & E1 & E).
  apply lift_OK in E1. destruct E1 as (Eepoch & ->).
  apply bind_OK in E. destruct E as (sender_name & s & E1 & E).
  apply lift_OK in E1. destruct E1 as (Esender & ->).
  apply bind_OK in E. destruct E as (sender_id & w1 & Eid & E).
  apply bind_OK in E. destruct E as (type & s & E1 & E).
  apply lift_OK in E1. destruct E1 as (Etype & ->).
  apply bind_OK in E. destruct E as (w1' & s & E1 & E).
  apply get_OK in E1. destruct E1 as (-> & ->).
  apply bind_OK in E. destruct E as (mid & w2 & Eins & E).
  apply bind_OK in E. destruct E as ([] & w3 & Ereact & E).
  apply bind_OK in E. destruct E as ([] & w4 & Eatt & E).
  apply bind_OK in E. destruct E as ([] & w5 & Eshare & E).
  apply bind_OK in E. destruct E as ([] & w6 & Esticker & E).
  apply ret_OK in E. destruct E as (-> & ->).
  exists content, timestamp_ms, epoch, sender_name, sender_id, type,
    w1, w2, w3, w4.
  repeat (split; [assumption |]).
  unfold save_share_and_sticker, bind. rewrite Eshare. exact Esticker.
Qed.

(** The row that [_saveMessage] adds to [messages]. *)
Lemma saveMessage_row item w message_id w' :
  Database._saveMessage accepts item w = (OK message_id, w') ->
  exists content timestamp_ms epoch sender_name sender_id type vals,
    Database.get_or_none item (lit "content") = OK content
    /\ py_getitem item (lit "timestamp_ms") = OK timestamp_ms
    /\ py_floordiv timestamp_ms 1000 = OK epoch
    /\ py_getitem item (lit "sender_name") = OK sender_name
    /\ py_getitem item (lit "type") = OK type
    /\ rmap bind_param
         (message_params epoch type sender_id
            (Conversation.id (Database.conversation w)) content) = OK vals
    /\ message_id = next_rowid (working (Database.db w) messages)
    /\ working (Database.db w') messages
       = working (Database.db w) messages ++ [mkrow message_id vals].
Proof.
  intros E. destruct (saveMessage_inv item w message_id w' E)
    as (content & timestamp_ms & epoch & sender_name & sender_id & type
        & w1 & w2 & w3 & w4
        & Ec & Ets & Eep & Esn & Eid & Ety & Eins & Er & Ea & Es).
  destruct (insert_OK accepts _ _ _ _ _ Eins) as (vals & Ev & Hk & Hrows & _).
  destruct (writes_run _ _ _ _ _ (writes_getParticipantId accepts sender_name)
              Eid) as (_ & H1 & Hid & _).
  destruct (writes_run _ _ _ _ _ (writes_save_reactions item message_id) Er)
    as (_ & H3 & _).
  assert (H4 : same_outside Database.attachements w3 w4).
  { refine (writes_run Database.attachements _ _ _ _ _ Ea).
    intros w0. apply stable_for_each. intros t Ht.
    apply (writes_weaken [t] Database.attachements).
    - intros t' [<- | []]. exact Ht.
    - apply writes_save_attachements_of. }
  destruct H4 as (_ & H4 & _).
  destruct (writes_run _ _ _ _ _
              (writes_save_share_and_sticker item message_id) Es)
    as (_ & H5 & _).
  exists content, timestamp_ms, epoch, sender_name, sender_id, type, vals.
  repeat (split; [assumption |]).
  rewrite <- Hid. split; [exact Ev |].
  rewrite <- (H1 messages) by (cbn; intuition discriminate).
  split; [exact Hk |].
  rewrite H5 by (cbn; intuition discriminate).
  rewrite H4 by (cbn; intuition discriminate).
  rewrite H3 by (cbn; intuition discriminate).
  exact Hrows.
Qed.

End SaveMessage.

(** ** C6: the stored timestamp *)

(** C6, as the code has it: the row of a message whose [timestamp_ms] is
    the integer [z] holds [z // 1000], the floor of the division: the whole
    second at or before the instant.  That is the truncation of [z] to
    seconds whenever [z] is not negative. *)
Theorem saveMessage_stores_floor_seconds
    (accepts : table -> list row -> list sqlval -> bool)
    (item : json) (w : Database.world) (message_id : Z)
    (w' : Database.world) (z : Z) :
  Database._saveMessage accepts item w = (OK message_id, w') ->
  py_getitem item (lit "timestamp_ms") = OK (JInt z) ->
  (exists rest,
     working (Database.db w') messages
     = working (Database.db w) messages
       ++ [mkrow message_id (SInt (z / 1000) :: rest)])
  /\ 1000 * (z / 1000) <= z < 1000 * (z / 1000) + 1000
  /\ (0 <= z -> z / 1000 = truncated_seconds z).
Proof.
  intros E Ez.
  destruct (saveMessage_row accepts item w message_id w' E)
    as (content & timestamp_ms & epoch & sender_name & sender_id & type
        & vals & _ & Ets & Eep & _ & _ & Ev & _ & Hrows).
  rewrite Ez in Ets. apply OK_inj in Ets. subst timestamp_ms.
  cbn [py_floordiv] in Eep. apply OK_inj in Eep. subst epoch.
  split; [| split].
  - unfold message_params in Ev. cbn [rmap] in Ev.
    apply rbind_OK in Ev. destruct Ev as (v0 & E0 & Ev).
    apply rbind_OK in Ev. destruct Ev as (rest & _ & Ev).
    apply OK_inj in Ev. subst vals.
    apply bind_param_int in E0. subst v0.
    exists rest. exact Hrows.
  - Z.div_mod_to_equations. lia.
  - intros Hz. unfold truncated_seconds. symmetry.
    apply Z.quot_div_nonneg; lia.
Qed.

Lemma saveMessage_stores_floor_seconds_witness :
  (exists rest,
     working (Database.db
                (snd (Database._saveMessage accept_all photo_message
                        fresh_world))) messages
     = working (Database.db fresh_world) messages
       ++ [mkrow 1 (SInt (1500000001999 / 1000) :: rest)])
  /\ 1000 * (1500000001999 / 1000) <= 1500000001999
     < 1000 * (1500000001999 / 1000) + 1000
  /\ (0 <= 1500000001999
      -> 1500000001999 / 1000 = truncated_seconds 1500000001999).
Proof.
  apply (saveMessage_stores_floor_seconds accept_all photo_message
           fresh_world 1).
  - vm_compute. reflexivity.
  - vm_compute. reflexivity.
Defined.

(** C6 as the spec words it fails before the epoch: the message dated
    -1500 ms is stored with second -2, and truncation gives -1. *)
Lemma saveMessage_floors_negative_timestamp :
  working (Database.db
             (snd (Database._saveMessage accept_all early_message
                     fresh_world))) messages
  = [mkrow 1 [SInt (-2); SText (lit "Generic"); SInt 1; SInt 0; SNull]]
  /\ truncated_seconds (-1500) = -1.
Proof. split; vm_compute; reflexivity. Qed.

(** ** C7: the stored attachment name *)

Section Attachements.

Variable accepts : table -> list row -> list sqlval -> bool.

Lemma saveAttachement_row t message_id data w w' :
  Database._saveAttachement accepts t message_id data w = (OK tt, w') ->
  exists uri key,
    py_getitem data (lit "uri") = OK (JStr uri)
    /\ working (Database.db w') t
       = working (Database.db w) t
         ++ [mkrow key (attachement_cols message_id uri)].
Proof.
  unfold Database._saveAttachement. intros E.
  apply bind_OK in E. destruct E as (uri & s & E1 & E).
  apply lift_OK in E1. destruct E1 as (Euri & ->).
  apply bind_OK in E. destruct E as (filename & s & E1 & E).
  apply lift_OK in E1. destruct E1 as (Efile & ->).
  apply bind_OK in E. destruct E as (key & w1 & Eins & E).
  apply ret_OK in E. destruct E as (_ & ->).
  destruct uri as [| | | u | |]; try discriminate Efile.
  cbn [last_segment] in Efile. apply OK_inj in Efile. subst filename.
  destruct (insert_OK accepts _ _ _ _ _ Eins) as (vals & Ev & _ & Hrows & _).
  cbn [rmap] in Ev.
  apply rbind_OK in Ev. destruct Ev as (v0 & E0 & Ev).
  apply rbind_OK in Ev. destruct Ev as (vs & E1 & Ev).
  apply OK_inj in Ev. subst vals.
  apply bind_param_int in E0. subst v0.
  apply rbind_OK in E1. destruct E1 as (v1 & E1 & Evs).
  apply OK_inj in Evs. subst vs.
  cbn [bind_param] in E1.
  apply rbind_OK in E1. destruct E1 as (b & _ & E1).
  apply OK_inj in E1. subst v1.
  exists u, key. split; [exact Euri | exact Hrows].
Qed.

Lemma saveAttachement_rows t message_id records w w' :
  for_each records
    (fun data => Database._saveAttachement accepts t message_id data) w
  = (OK tt, w') ->
  exists uris added,
    Forall2 (fun data uri => py_getitem data (lit "uri") = OK (JStr uri))
      records uris
    /\ working (Database.db w') t = working (Database.db w) t ++ added
    /\ map cols added = map (attachement_cols message_id) uris.
Proof.
  revert w. induction records as [| data r IH]; intros w; cbn [for_each].
  - intros E. apply ret_OK in E. destruct E as (_ & ->).
    exists [], []. split; [constructor |].
    split; [symmetry; apply app_nil_r | reflexivity].
  - intros E. apply bind_OK in E. destruct E as ([] & w1 & E1 & E).
    destruct (saveAttachement_row t message_id data w w1 E1)
      as (uri & key & Euri & Hrow).
    destruct (IH w1 E) as (uris & added & Huris & Hrows & Hcols).
    exists (uri :: uris),
      (mkrow key (attachement_cols message_id uri) :: added).
    split; [constructor; assumption |]. split.
    + rewrite Hrows, Hrow, <- app_assoc. reflexivity.
    + cbn [map cols]. rewrite Hcols. reflexivity.
Qed.

Lemma save_attachements_of_rows item message_id t records w w' :
  save_attachements_of accepts item message_id t w = (OK tt, w') ->
  py_contains (table_name t) item = OK true ->
  attachement_records item t = OK records ->
  exists uris added,
    Forall2 (fun data uri => py_getitem data (lit "uri") = OK (JStr uri))
      records uris
    /\ working (Database.db w') t = working (Database.db w) t ++ added
    /\ map cols added = map (attachement_cols message_id) uris.
Proof.
  unfold save_attachements_of, Database.for_each_in, attachement_records.
  intros E Hin Erec.
  apply bind_OK in E. destruct E as (present & s & E1 & E).
  apply lift_OK in E1. destruct E1 as (Ep & ->).
  rewrite Hin in Ep. apply OK_inj in Ep. subst present.
  apply bind_OK in E. destruct E as (v & s & E1 & E).
  apply lift_OK in E1. destruct E1 as (Ev & ->).
  apply bind_OK in E. destruct E as (xs & s & E1 & E).
  apply lift_OK in E1. destruct E1 as (Exs & ->).
  rewrite Ev in Erec. cbn [rbind] in Erec. rewrite Exs in Erec.
  apply OK_inj in Erec. subst xs.
  apply (saveAttachement_rows t message_id records w w' E).
Qed.

(** In the loop over the five kinds, the table [t] is written by its own
    iteration only. *)
Lemma attachements_loop_at item message_id t ts w w' :
  NoDup ts -> In t ts ->
  for_each ts (save_attachements_of accepts item message_id) w = (OK tt, w') ->
  exists wa wb,
    working (Database.db wa) t = working (Database.db w) t
    /\ save_attachements_of accepts item message_id t wa = (OK tt, wb)
    /\ working (Database.db w') t = working (Database.db wb) t.
Proof.
  revert w. induction ts as [| t0 r IH]; intros w Hnd Hin; [destruct Hin |].
  cbn [for_each]. intros E.
  apply bind_OK in E. destruct E as ([] & w1 & E1 & E).
  inversion Hnd as [| ? ? Hnotin Hnd']. subst.
  destruct (table_eq_dec t0 t) as [-> | Hne].
  - exists w, w1. split; [reflexivity |]. split; [exact E1 |].
    assert (H : same_outside r w1 w').
    { refine (writes_run r _ _ _ _ _ E).
      intros w0. apply stable_for_each. intros t' Ht'.
      apply (writes_weaken [t'] r).
      - intros t'' [<- | []]. exact Ht'.
      - apply writes_save_attachements_of. }
    destruct H as (_ & H & _). apply H, Hnotin.
  - destruct Hin as [Heq | Hin]; [destruct (Hne Heq) |].
    destruct (IH w1 Hnd' Hin E) as (wa & wb & Ha & Hab & Hb).
    exists wa, wb. split; [| split; assumption].
    rewrite Ha.
    destruct (writes_run _ _ _ _ _
                (writes_save_attachements_of accepts item message_id t0) E1)
      as (_ & H & _).
    apply H. intros [Heq | []]. apply Hne, Heq.
Qed.

End Attachements.

(** C7, as the code has it: for each of the five kinds that a message
    record has, [_saveMessage] adds to the table of that kind one row per
    record, in order, holding the message id and the last segment of the
    record's URI.  The last segment is what follows the last ['/'], which
    is shorter than the URI; a URI without ['/'] is its own last segment
    and is stored whole. *)
Theorem saveMessage_stores_last_segment
    (accepts : table -> list row -> list sqlval -> bool)
    (item : json) (w : Database.world) (message_id : Z)
    (w' : Database.world) (t : table) (records : list json) :
  Database._saveMessage accepts item w = (OK message_id, w') ->
  In t Database.attachements ->
  py_contains (table_name t) item = OK true ->
  attachement_records item t = OK records ->
  (exists uris added,
     Forall2 (fun data uri => py_getitem data (lit "uri") = OK (JStr uri))
       records uris
     /\ working (Database.db w') t = working (Database.db w) t ++ added
     /\ map cols added = map (attachement_cols message_id) uris)
  /\ (forall a b, ~ In 47 b ->
        attachement_cols message_id (a ++ 47 :: b)
        = [SInt message_id; SText b]
        /\ b <> a ++ 47 :: b)
  /\ (forall uri, ~ In 47 uri ->
        attachement_cols message_id uri = [SInt message_id; SText uri]).
Proof.
  intros E Ht Hin Erec. split; [| split].
  - destruct (saveMessage_inv accepts item w message_id w' E)
      as (content & timestamp_ms & epoch & sender_name & sender_id & type
          & w1 & w2 & w3 & w4
          & _ & _ & _ & _ & Eid & _ & Eins & Er & Ea & Es).
    assert (Hnd : NoDup Database.attachements).
    { unfold Database.attachements.
      repeat constructor; cbn; intuition discriminate. }
    destruct (attachements_loop_at accepts item message_id t _ w3 w4 Hnd Ht Ea)
      as (wa & wb & Ha & Hab & Hb).
    destruct (save_attachements_of_rows accepts item message_id t records
                wa wb Hab Hin Erec) as (uris & added & Huris & Hrows & Hcols).
    exists uris, added. split; [exact Huris |]. split; [| exact Hcols].
    destruct (writes_run _ _ _ _ _
                (writes_getParticipantId accepts sender_name) Eid)
      as (_ & H1 & _).
    destruct (writes_run _ _ _ _ _ (writes_insert accepts messages _) Eins)
      as (_ & H2 & _).
    destruct (writes_run _ _ _ _ _
                (writes_save_reactions accepts item message_id) Er)
      as (_ & H3 & _).
    destruct (writes_run _ _ _ _ _
                (writes_save_share_and_sticker accepts item message_id) Es)
      as (_ & H5 & _).
    assert (Hout : ~ In t [participants] /\ ~ In t [messages]
                   /\ ~ In t [participants; reactions]
                   /\ ~ In t [shares; stickers]).
    { unfold Database.attachements in Ht. cbn in Ht |- *.
      intuition (subst; discriminate). }
    destruct Hout as (O1 & O2 & O3 & O5).
    rewrite (H5 t O5), Hb, Hrows, Ha, (H3 t O3), (H2 t O2), (H1 t O1).
    reflexivity.
  - intros a b Hb. unfold attachement_cols.
    rewrite (last_segment_after_slash a b Hb). split; [reflexivity |].
    intros Eq. apply Hb. rewrite Eq. apply in_or_app. right. left.
    reflexivity.
  - intros uri Hn. unfold attachement_cols.
    rewrite (last_segment_no_slash uri Hn). reflexivity.
Qed.

Lemma saveMessage_stores_last_segment_witness :
  exists uris added,
    Forall2 (fun data uri => py_getitem data (lit "uri") = OK (JStr uri))
      (unwrap [] (attachement_records photo_message photos)) uris
    /\ working (Database.db
                  (snd (Database._saveMessage accept_all photo_message
                          fresh_world))) photos
       = working (Database.db fresh_world) photos ++ added
    /\ map cols added = map (attachement_cols 1) uris.
Proof.
  apply (saveMessage_stores_last_segment accept_all photo_message
           fresh_world 1
           (snd (Database._saveMessage accept_all photo_message fresh_world))
           photos
           (unwrap [] (attachement_records photo_message photos))).
  - vm_compute. reflexivity.
  - left. reflexivity.
  - vm_compute. reflexivity.
  - vm_compute. reflexivity.
Defined.

(** C7 as the spec words it fails for a URI without ['/']: the row holds
    the full URI. *)
Lemma saveMessage_stores_whole_bare_uri :
  attachement_records bare_photo_message photos
  = OK [JObj [(lit "uri", JStr (lit "p1.jpg"))]]
  /\ working (Database.db
                (snd (Database._saveMessage accept_all bare_photo_message
                        fresh_world))) photos
     = [mkrow 1 [SInt 1; SText (lit "p1.jpg")]].
Proof. split; vm_compute; reflexivity. Qed.

(** ** Dictionaries *)

Lemma py_eqb_refl k : hashable k = true -> py_eqb k k = true.
Proof.
  destruct k; cbn; try discriminate; intros _.
  - reflexivity.
  - destruct b; reflexivity.
  - apply Z.eqb_refl.
  - apply pystr_eqb_refl.
Qed.

Lemma pystr_eqb_sym a b : pystr_eqb a b = pystr_eqb b a.
Proof.
  unfold pystr_eqb.
  destruct (list_eq_dec Z.eq_dec a b), (list_eq_dec Z.eq_dec b a);
    congruence.
Qed.

Lemma py_eqb_sym a b :
  hashable a = true -> hashable b = true -> py_eqb a b = py_eqb b a.
Proof.
  destruct a, b; cbn; try discriminate; intros _ _; try reflexivity.
  - destruct b, b0; reflexivity.
  - apply Z.eqb_sym.
  - apply Z.eqb_sym.
  - apply Z.eqb_sym.
  - apply pystr_eqb_sym.
Qed.

Lemma dict_find_app {V} k (d d' : list (json * V)) :
  dict_find k (d ++ d')
  = match dict_find k d with
    | Some v => Some v
    | None => dict_find k d'
    end.
Proof.
  induction d as [| [k0 v0] r IH]; cbn [app dict_find]; [reflexivity |].
  destruct (py_eqb k0 k); [reflexivity | exact IH].
Qed.

Lemma dict_find_None {V} k (d : list (json * V)) :
  dict_find k d = None <-> Forall (fun e => py_eqb (fst e) k = false) d.
Proof.
  induction d as [| [k0 v0] r IH]; cbn [dict_find].
  - split; [constructor | reflexivity].
  - destruct (py_eqb k0 k) eqn:E.
    + split; [discriminate |]. intros H. inversion H; subst.
      cbn in *. congruence.
    + rewrite IH. split.
      * intros H. constructor; assumption.
      * intros H. inversion H. assumption.
Qed.

Lemma dict_store_absent {V} k (v : V) d :
  dict_find k d = None -> dict_store k v d = d ++ [(k, v)].
Proof.
  induction d as [| [k0 v0] r IH]; cbn [dict_find dict_store app];
    [reflexivity |].
  destruct (py_eqb k0 k); [discriminate |].
  intros H. rewrite (IH H). reflexivity.
Qed.

Lemma dict_store_at {V} k (v v0 : V) d d' :
  hashable k = true ->
  Forall (fun e => py_eqb (fst e) k = false) d ->
  dict_store k v (d ++ (k, v0) :: d') = d ++ (k, v) :: d'.
Proof.
  intros Hk. induction 1 as [| [k1 v1] r H1 _ IH]; cbn [app dict_store].
  - rewrite (py_eqb_refl k Hk). reflexivity.
  - cbn [fst] in H1. rewrite H1, IH. reflexivity.
Qed.

(** ** [_saveConversation] and [save], step by step *)

Section SaveConversation.

Variable accepts : table -> list row -> list sqlval -> bool.

Lemma saveConversation_inv w r w' :
  Database._saveConversation accepts w = (OK r, w') ->
  exists title thread_type thread_path key w1 w2,
    let c := Database.conversation w in
    py_getitem (JObj (Conversation.metadata c)) (lit "title") = OK title
    /\ py_getitem (JObj (Conversation.metadata c)) (lit "thread_type")
       = OK thread_type
    /\ py_getitem (JObj (Conversation.metadata c)) (lit "thread_path")
       = OK thread_path
    /\ Database.on_db
         (Database.execute_insert accepts conversations
            (conversation_params c title thread_type thread_path)) w
       = (OK key, w1)
    /\ save_roster accepts (Conversation.id c)
         (map fst (Conversation.participants c)) w1 = (OK tt, w2)
    /\ Database.save_messages accepts (Conversation.messages c)
         Database.RCursor w2 = (OK r, w').
Proof.
  unfold Database._saveConversation. intros E.
  apply bind_OK in E. destruct E as (w0 & s & E1 & E).
  apply get_OK in E1. destruct E1 as (-> & ->).
  apply bind_OK in E. destruct E as (title & s & E1 & E).
  apply lift_OK in E1. destruct E1 as (Et & ->).
  apply bind_OK in E. destruct E as (thread_type & s & E1 & E).
  apply lift_OK in E1. destruct E1 as (Ey & ->).
  apply bind_OK in E. destruct E as (thread_path & s & E1 & E).
  apply lift_OK in E1. destruct E1 as (Ep & ->).
  apply bind_OK in E. destruct E as (key & w1 & Eins & E).
  apply bind_OK in E. destruct E as ([] & w2 & Eroster & E).
  exists title, thread_type, thread_path, key, w1, w2. cbn zeta.
  repeat (split; [assumption |]). exact E.
Qed.

Lemma writes_save_roster convo_id names :
  writes [participants] (save_roster accepts convo_id names).
Proof.
  intros w0. unfold save_roster. apply stable_for_each.
  intros participant _. unfold Database._saveParticipant. stable_auto.
Qed.

(** The row that [_saveConversation] adds to [conversations]. *)
Lemma saveConversation_row w r w' :
  Database._saveConversation accepts w = (OK r, w') ->
  exists key vals,
    working (Database.db w') conversations
    = working (Database.db w) conversations ++ [mkrow key vals].
Proof.
  intros E. destruct (saveConversation_inv w r w' E)
    as (title & thread_type & thread_path & key & w1 & w2
        & _ & _ & _ & Eins & Eroster & Emsgs).
  destruct (insert_OK accepts _ _ _ _ _ Eins) as (vals & _ & _ & Hrows & _).
  destruct (writes_run _ _ _ _ _ (writes_save_roster _ _) Eroster)
    as (_ & H2 & _).
  destruct (writes_run _ _ _ _ _ (writes_save_messages accepts _ _) Emsgs)
    as (_ & H3 & _).
  exists key, vals.
  rewrite H3 by (cbn; intuition discriminate).
  rewrite H2 by (cbn; intuition discriminate).
  exact Hrows.
Qed.

Lemma save_inv item c res c' :
  Database.save accepts item c = (res, c') ->
  exists w',
    Database._saveConversation accepts
      {| Database.db := c; Database.conversation := item |} = (res, w')
    /\ match res with
       | OK _ => c' = {| committed := working (Database.db w');
                         working := working (Database.db w') |}
       | Raise _ => c' = Database.db w'
       end.
Proof.
  unfold Database.save.
  destruct (Database._saveConversation accepts _) as [[r | e] w'];
    intros E; injection E as <- <-; exists w'; split; reflexivity.
Qed.

End SaveConversation.

(** ** C4: participants and their ids *)

Section Participants.

Variable accepts : table -> list row -> list sqlval -> bool.

Lemma dict_get_KeyError {V} (d : list (json * V)) k :
  dict_get d k = Raise KeyError ->
  hashable k = true /\ dict_find k d = None.
Proof.
  unfold dict_get. destruct (hashable k); [| discriminate].
  destruct (dict_find k d); [discriminate |]. auto.
Qed.

Lemma dict_get_OK {V} (d : list (json * V)) k v :
  dict_get d k = OK v -> hashable k = true /\ dict_find k d = Some v.
Proof.
  unfold dict_get. destruct (hashable k); [| discriminate].
  destruct (dict_find k d); [| discriminate].
  intros E. apply OK_inj in E. subst. auto.
Qed.

(** The two things [_getParticipantId] can do: leave the state as it is,
    or add the name with a new row and return its key. *)
Lemma getParticipantId_step name w r w' :
  Database._getParticipantId accepts name w = (r, w') ->
  (w' = w
   /\ forall v, r = OK v ->
        hashable name = true /\ dict_find name (names_of w) = Some v)
  \/ (exists key,
        r = OK (Some key)
        /\ hashable name = true
        /\ dict_find name (names_of w) = None
        /\ lazily_added name key w w').
Proof.
  unfold Database._getParticipantId, bind, get.
  destruct (dict_get (Conversation.participants (Database.conversation w))
              name) as [v | e] eqn:Eget.
  - unfold ret. intros E. injection E as <- <-. left.
    split; [reflexivity |]. intros v' Ev. apply OK_inj in Ev. subst v'.
    apply dict_get_OK, Eget.
  - destruct e; try (unfold raise; intros E; injection E as <- <-; left;
                     split; [reflexivity | intros v Ev; discriminate Ev]).
    destruct (dict_get_KeyError _ _ Eget) as (Hh & Hnone).
    destruct (Database._saveParticipant accepts _ name false w)
      as [[key | e] w1] eqn:Esave.
    + unfold Database._saveParticipant in Esave.
      destruct (insert_OK accepts _ _ _ _ _ Esave)
        as (vals & Ev & Hkey & Hrows & Hconv).
      unfold Database.set_participant, dict_set. intros E.
      rewrite Hconv, Hh in E. unfold ret in E. injection E as <- <-. right.
      exists key. split; [reflexivity |]. split; [exact Hh |].
      split; [exact Hnone |]. exists vals.
      split; [exact Ev |]. split; [exact Hkey |]. split; [exact Hrows |].
      split; [| reflexivity].
      unfold names_of. cbn. apply dict_store_absent, Hnone.
    + intros E. injection E as <- <-. left.
      unfold Database._saveParticipant in Esave.
      rewrite (insert_Raise accepts _ _ _ _ _ Esave).
      split; [reflexivity | intros v Ev; discriminate Ev].
Qed.

Lemma extends_refl d : extends d d.
Proof. intros k v H. exact H. Qed.

Lemma extends_trans d1 d2 d3 :
  extends d1 d2 -> extends d2 d3 -> extends d1 d3.
Proof. intros H1 H2 k v H. apply H2, H1, H. Qed.

Lemma extends_app d e : extends d (d ++ e).
Proof. intros k v H. rewrite dict_find_app, H. reflexivity. Qed.

Lemma getParticipantId_extends d0 name :
  stable (fun w => extends d0 (names_of w))
    (Database._getParticipantId accepts name).
Proof.
  intros w r w' H E.
  destruct (getParticipantId_step name w r w' E)
    as [(-> & _) | (key & _ & _ & _ & (vals & _ & _ & _ & Hn & _))].
  - exact H.
  - rewrite Hn. apply (extends_trans _ _ _ H), extends_app.
Qed.

Lemma insert_same_names (I : list (json * option Z) -> Prop) t params :
  stable (fun w => I (names_of w))
    (Database.on_db (Database.execute_insert accepts t params)).
Proof.
  intros [[cm wk] conv] r w' H. unfold Database.on_db,
    Database.execute_insert. cbn.
  destruct (rmap bind_param params); [destruct (accepts _ _ _) |];
    intros E; injection E as _ <-; exact H.
Qed.

Lemma getParticipantId_known name w v :
  hashable name = true ->
  dict_find name (names_of w) = Some v ->
  Database._getParticipantId accepts name w = (OK v, w).
Proof.
  intros Hh Hf. unfold Database._getParticipantId, bind, get, dict_get.
  fold (names_of w). rewrite Hh, Hf. reflexivity.
Qed.

Lemma getParticipantId_found name w v w' :
  Database._getParticipantId accepts name w = (OK v, w') ->
  hashable name = true /\ dict_find name (names_of w') = Some v.
Proof.
  intros E. destruct (getParticipantId_step name w (OK v) w' E)
    as [(-> & H) | (key & Ev & Hh & Hnone & (vals & _ & _ & _ & Hn & _))].
  - apply H. reflexivity.
  - split; [exact Hh |]. rewrite Hn, dict_find_app, Hnone.
    cbn [dict_find]. rewrite (py_eqb_refl name Hh). congruence.
Qed.

End Participants.

(** *** Keys of a dict and keys of a table *)

Lemma ForallOrdPairs_snoc {A} (R : A -> A -> Prop) l x :
  ForallOrdPairs R l -> Forall (fun a => R a x) l ->
  ForallOrdPairs R (l ++ [x]).
Proof.
  induction 1 as [| a l Ha _ IH]; intros Hx; cbn [app].
  - repeat constructor.
  - inversion Hx as [| ? ? Hax Hlx]. subst. constructor.
    + apply Forall_app. split; [exact Ha | repeat constructor; exact Hax].
    + apply IH, Hlx.
Qed.

Lemma ForallOrdPairs_before {A} (R : A -> A -> Prop) l1 x l2 :
  ForallOrdPairs R (l1 ++ x :: l2) -> Forall (fun a => R a x) l1.
Proof.
  induction l1 as [| a l1 IH]; cbn [app]; intros H; [constructor |].
  inversion H as [| ? ? Ha Hl]. subst. constructor.
  - rewrite Forall_forall in Ha. apply Ha. apply in_or_app.
    right. left. reflexivity.
  - apply IH, Hl.
Qed.

Lemma keys_ok_snoc ks k :
  keys_ok ks -> hashable k = true ->
  Forall (fun k' => py_eqb k' k = false) ks -> keys_ok (ks ++ [k]).
Proof.
  intros [Hh Hp] Hk Hnew. split.
  - apply Forall_app. split; [exact Hh | repeat constructor; exact Hk].
  - apply ForallOrdPairs_snoc; assumption.
Qed.

Lemma fold_max_ge x l y :
  y = x \/ In y l -> y <= fold_right Z.max x l.
Proof.
  induction l as [| z l IH]; cbn [fold_right In].
  - intros [-> | []]. lia.
  - intros [H | [-> | H]]; [pose proof (IH (or_introl H)) | |
                             pose proof (IH (or_intror H))]; lia.
Qed.

Lemma next_rowid_gt rows r : In r rows -> rowid r < next_rowid rows.
Proof.
  destruct rows as [| r0 rs]; intros Hin; [destruct Hin |].
  cbn [next_rowid].
  assert (rowid r <= fold_right Z.max (rowid r0) (map rowid rs)); [| lia].
  apply fold_max_ge. destruct Hin as [-> | Hin].
  - left. reflexivity.
  - right. apply in_map, Hin.
Qed.

Lemma next_rowid_positive rows :
  positive_keys rows -> 0 < next_rowid rows.
Proof.
  destruct rows as [| r0 rs]; intros H; [reflexivity |].
  inversion H. subst.
  pose proof (next_rowid_gt (r0 :: rs) r0 (or_introl eq_refl)). lia.
Qed.

Lemma generated_new before added :
  generated before added ->
  NoDup (map rowid added)
  /\ forall r, In r added -> ~ In (rowid r) (map rowid before).
Proof.
  induction 1 as [| added r _ [IHn IHb] Hr].
  - split; [constructor | intros r []].
  - assert (Hgt : forall r0, In r0 (before ++ added) -> rowid r0 < rowid r).
    { intros r0 H0. rewrite Hr. apply next_rowid_gt, H0. }
    split.
    + rewrite map_app. cbn [map]. apply NoDup_app.
      { exact IHn. }
      { repeat constructor. intros []. }
      { intros k Hk [<- | []]. apply in_map_iff in Hk.
        destruct Hk as (r0 & E0 & H0).
        pose proof (Hgt r0 (in_or_app _ _ _ (or_intror H0))). lia. }
    + intros r1 H1 Hin. apply in_app_or in H1.
      destruct H1 as [H1 | [<- | []]]; [apply (IHb r1 H1 Hin) |].
      apply in_map_iff in Hin. destruct Hin as (r0 & E0 & H0).
      pose proof (Hgt r0 (in_or_app _ _ _ (or_introl H0))). lia.
Qed.

Lemma dict_find_In {V} k (d : list (json * V)) v :
  dict_find k d = Some v -> exists k', In (k', v) d.
Proof.
  induction d as [| [k0 v0] r IH]; cbn [dict_find]; [discriminate |].
  destruct (py_eqb k0 k).
  - intros E. injection E as ->. exists k0. left. reflexivity.
  - intros E. destruct (IH E) as (k' & H). exists k'. right. exact H.
Qed.

Lemma dict_find_key {V} k (d : list (json * V)) :
  hashable k = true -> In k (map fst d) -> exists v, dict_find k d = Some v.
Proof.
  intros Hk. induction d as [| [k0 v0] r IH]; cbn [map fst In dict_find];
    [intros [] |].
  destruct (py_eqb k0 k) eqn:E; [eauto |].
  intros [-> | H]; [| exact (IH H)].
  rewrite (py_eqb_refl k Hk) in E. discriminate E.
Qed.

(** *** What the message phase keeps *)

(** Solves [stable I m] for straight-line code, given a tactic for the
    statements that touch the state. *)
Ltac stable_by leaf :=
  repeat first
    [ apply stable_ret | apply stable_raise | apply stable_lift
    | apply stable_get
    | leaf
    | apply stable_bind; [| intros ?]
    | apply stable_for_each; intros ? _
    | match goal with
      | |- stable _ (match ?x with _ => _ end) => destruct x
      end ].

Section MessagePhase.

Variable accepts : table -> list row -> list sqlval -> bool.

Lemma saveMessage_extends d0 item :
  stable (fun w => extends d0 (names_of w))
    (Database._saveMessage accepts item).
Proof.
  unfold Database._saveMessage.
  stable_by ltac:(first [ apply getParticipantId_extends
                        | apply (insert_same_names accepts (extends d0)) ]).
Qed.

Lemma save_reactions_extends d0 item message_id :
  stable (fun w => extends d0 (names_of w))
    (save_reactions accepts item message_id).
Proof.
  unfold save_reactions.
  stable_by ltac:(first [ apply getParticipantId_extends
                        | apply (insert_same_names accepts (extends d0)) ]).
Qed.

Lemma save_attachements_extends d0 item message_id :
  stable (fun w => extends d0 (names_of w))
    (for_each Database.attachements
       (save_attachements_of accepts item message_id)).
Proof.
  unfold save_attachements_of.
  stable_by ltac:(first [ apply getParticipantId_extends
                        | apply (insert_same_names accepts (extends d0)) ]).
Qed.

Lemma save_share_and_sticker_extends d0 item message_id :
  stable (fun w => extends d0 (names_of w))
    (save_share_and_sticker accepts item message_id).
Proof.
  unfold save_share_and_sticker.
  stable_by ltac:(first [ apply getParticipantId_extends
                        | apply (insert_same_names accepts (extends d0)) ]).
Qed.

Lemma save_messages_extends d0 msgs result :
  stable (fun w => extends d0 (names_of w))
    (Database.save_messages accepts msgs result).
Proof.
  revert result. induction msgs as [| message r IH]; intros result;
    cbn [Database.save_messages].
  - apply stable_ret.
  - apply stable_bind; [| intros result'; apply IH].
    destruct (Database.truthy result); [| apply stable_ret].
    apply stable_bind; [apply saveMessage_extends | intros; apply stable_ret].
Qed.

Lemma insert_participants_saved before cid roster t params :
  t <> participants ->
  stable (participants_saved before cid roster)
    (Database.on_db (Database.execute_insert accepts t params)).
Proof.
  intros Ht w r w' H E. destruct r as [key | e].
  - destruct (insert_OK accepts _ _ _ _ _ E) as (_ & _ & _ & _ & Hconv).
    destruct (writes_run _ _ _ _ _ (writes_insert accepts t params) E)
      as (_ & Hrows & _).
    unfold participants_saved, names_of, participant_rows in *.
    rewrite Hconv, Hrows; [exact H |].
    intros [Heq | []]. apply Ht. exact Heq.
  - rewrite (insert_Raise accepts _ _ _ _ _ E). exact H.
Qed.

Lemma getParticipantId_participants_saved before cid roster name :
  stable (participants_saved before cid roster)
    (Database._getParticipantId accepts name).
Proof.
  intros w r w' H E.
  destruct (getParticipantId_step accepts name w r w' E)
    as [(-> & _) | (key & _ & Hh & Hnone & (vals & Ev & Hkey & Hrows & Hn
                                            & Hid))];
    [exact H |].
  destruct H as (es1 & es0 & rows1 & rows0
                 & Hnames & Hroster & Hprows & H1 & H0 & Hkeys & Hgen & Hcid).
  exists es1, (es0 ++ [(name, Some key)]), rows1,
    (rows0 ++ [mkrow key vals]).
  split; [rewrite Hn, Hnames, app_assoc; reflexivity |].
  split; [exact Hroster |].
  split; [rewrite Hrows, Hprows, <- !app_assoc; reflexivity |].
  split; [exact H1 |].
  split.
  { apply Forall2_app; [exact H0 |]. repeat constructor.
    cbn [fst snd cols]. rewrite <- Hcid. exact Ev. }
  split.
  { rewrite Hn, map_app. cbn [map fst]. apply keys_ok_snoc.
    - exact Hkeys.
    - exact Hh.
    - apply dict_find_None in Hnone. rewrite Forall_forall in Hnone |- *.
      intros k' Hk'. apply in_map_iff in Hk'.
      destruct Hk' as (e & <- & He). apply Hnone, He. }
  split; [| congruence].
  rewrite app_assoc. apply generated_snoc; [exact Hgen |].
  cbn [rowid]. rewrite Hkey, Hprows, app_assoc. reflexivity.
Qed.

Lemma saveMessage_participants_saved before cid roster item :
  stable (participants_saved before cid roster)
    (Database._saveMessage accepts item).
Proof.
  unfold Database._saveMessage, Database.attachements.
  stable_by ltac:(first [ apply getParticipantId_participants_saved
                        | apply insert_participants_saved; discriminate ]).
Qed.

Lemma save_messages_participants_saved before cid roster msgs result :
  stable (participants_saved before cid roster)
    (Database.save_messages accepts msgs result).
Proof.
  revert result. induction msgs as [| message r IH]; intros result;
    cbn [Database.save_messages].
  - apply stable_ret.
  - apply stable_bind; [| intros result'; apply IH].
    destruct (Database.truthy result); [| apply stable_ret].
    apply stable_bind;
      [apply saveMessage_participants_saved | intros; apply stable_ret].
Qed.

End MessagePhase.

(** *** The roster *)

Section Roster.

Variable accepts : table -> list row -> list sqlval -> bool.

Lemma set_participant_OK name v w w' :
  Database.set_participant name v w = (OK tt, w') ->
  names_of w' = dict_store name v (names_of w)
  /\ Database.db w' = Database.db w
  /\ Conversation.id (Database.conversation w')
     = Conversation.id (Database.conversation w).
Proof.
  unfold Database.set_participant, dict_set, names_of.
  destruct (hashable name); [| discriminate].
  intros E. injection E as <-. repeat split.
Qed.

Lemma save_roster_progress before cid rest :
  forall es1 rows1 w w',
    names_of w = es1 ++ rest ->
    participant_rows w = before ++ rows1 ->
    Forall2 (participant_row cid 1) es1 rows1 ->
    keys_ok (map fst (es1 ++ rest)) ->
    generated before rows1 ->
    Conversation.id (Database.conversation w) = cid ->
    save_roster accepts cid (map fst rest) w = (OK tt, w') ->
    exists es1' rows1',
      names_of w' = es1'
      /\ map fst es1' = map fst (es1 ++ rest)
      /\ participant_rows w' = before ++ rows1'
      /\ Forall2 (participant_row cid 1) es1' rows1'
      /\ generated before rows1'
      /\ Conversation.id (Database.conversation w') = cid.
Proof.
  induction rest as [| [k v0] rest IH];
    intros es1 rows1 w w' Hn Hrows H1 Hkeys Hgen Hcid E.
  - cbn [map save_roster for_each] in E. apply ret_OK in E.
    destruct E as (_ & ->). rewrite app_nil_r in *.
    exists es1, rows1. repeat split; assumption.
  - cbn [map fst] in E. unfold save_roster in E. cbn [for_each] in E.
    fold (save_roster accepts cid (map fst rest)) in E.
    apply bind_OK in E. destruct E as ([] & w2 & Ebody & E).
    apply bind_OK in Ebody. destruct Ebody as (key & w1 & Esave & Eset).
    unfold Database._saveParticipant in Esave.
    destruct (insert_OK accepts _ _ _ _ _ Esave)
      as (vals & Ev & Hkey & Hrows1 & Hconv1).
    destruct (set_participant_OK _ _ _ _ Eset) as (Hn2 & Hdb2 & Hid2).
    assert (Hk : hashable k = true
                 /\ Forall (fun e => py_eqb (fst e) k = false) es1).
    { destruct Hkeys as (Hh & Hp). rewrite map_app in Hh, Hp.
      cbn [map fst] in Hh, Hp. split.
      - apply Forall_app in Hh. destruct Hh as (_ & Hh).
        inversion Hh. assumption.
      - apply ForallOrdPairs_before in Hp.
        rewrite Forall_forall in Hp |- *. intros e He.
        apply Hp, in_map, He. }
    destruct Hk as (Hh & Hbefore).
    assert (Hmap : map fst ((es1 ++ [(k, Some key)]) ++ rest)
                   = map fst (es1 ++ (k, v0) :: rest)).
    { rewrite <- app_assoc, !map_app. reflexivity. }
    rewrite <- Hmap.
    apply (IH (es1 ++ [(k, Some key)]) (rows1 ++ [mkrow key vals]) w2 w').
    + rewrite Hn2. unfold names_of at 1. rewrite Hconv1.
      fold (names_of w). rewrite Hn, <- app_assoc. cbn [app].
      apply dict_store_at; assumption.
    + unfold participant_rows in *. rewrite Hdb2, Hrows1, Hrows.
      rewrite <- app_assoc. reflexivity.
    + apply Forall2_app; [exact H1 |]. repeat constructor.
      cbn [fst snd cols]. exact Ev.
    + rewrite Hmap. exact Hkeys.
    + apply generated_snoc; [exact Hgen |]. cbn [rowid].
      unfold participant_rows in Hrows. rewrite Hkey, Hrows. reflexivity.
    + rewrite Hid2, Hconv1. exact Hcid.
    + exact E.
Qed.

Lemma saveConversation_participants_saved w r w' :
  keys_ok (map fst (names_of w)) ->
  Database._saveConversation accepts w = (OK r, w') ->
  participants_saved (participant_rows w)
    (Conversation.id (Database.conversation w)) (map fst (names_of w)) w'.
Proof.
  intros Hkeys E. destruct (saveConversation_inv accepts w r w' E)
    as (title & thread_type & thread_path & key & w1 & w2
        & _ & _ & _ & Eins & Eroster & Emsgs).
  destruct (insert_OK accepts _ _ _ _ _ Eins) as (_ & _ & _ & _ & Hconv1).
  destruct (writes_run _ _ _ _ _ (writes_insert accepts _ _) Eins)
    as (_ & Hrows1 & _).
  destruct (save_roster_progress (participant_rows w)
              (Conversation.id (Database.conversation w)) (names_of w)
              [] [] w1 w2) as (es1 & rows1 & Hn & Hroster & Hrows & H1
                               & Hgen & Hid).
  - unfold names_of. rewrite Hconv1. reflexivity.
  - unfold participant_rows. rewrite app_nil_r. apply Hrows1.
    cbn. intuition discriminate.
  - constructor.
  - exact Hkeys.
  - constructor.
  - rewrite Hconv1. reflexivity.
  - exact Eroster.
  - apply (save_messages_participants_saved accepts _ _ _
             (Conversation.messages (Database.conversation w))
             Database.RCursor w2 (OK r) w'); [| exact Emsgs].
    exists es1, [], rows1, []. rewrite !app_nil_r.
    split; [exact Hn |]. split; [exact Hroster |].
    split; [exact Hrows |]. split; [exact H1 |].
    split; [constructor |]. split; [| split; assumption].
    rewrite Hn, Hroster. exact Hkeys.
Qed.

End Roster.

(** *** Every referenced name is resolved *)

Section References.

Variable accepts : table -> list row -> list sqlval -> bool.

Ltac extends_auto d0 :=
  stable_by ltac:(first [ apply getParticipantId_extends
                        | apply (insert_same_names accepts (extends d0)) ]).

Lemma reactions_loop_references message_id records :
  forall w w',
    for_each records (fun reaction =>
      actor <- lift (py_getitem reaction (lit "actor")) ;;
      user_id <- Database._getParticipantId accepts actor ;;
      symbol <- lift (py_getitem reaction (lit "reaction")) ;;
      Database._saveReaction accepts message_id user_id symbol)%st w
    = (OK tt, w') ->
    forall reaction name,
      In reaction records ->
      py_getitem reaction (lit "actor") = OK name ->
      exists v, dict_find name (names_of w') = Some v.
Proof.
  induction records as [| x r IH]; intros w w' E reaction name Hin Hname;
    [destruct Hin |].
  cbn [for_each] in E.
  apply bind_OK in E. destruct E as ([] & wb & Ebody & E).
  destruct Hin as [-> | Hin]; [| apply (IH wb w' E reaction name Hin Hname)].
  apply bind_OK in Ebody. destruct Ebody as (actor & s & E1 & Ebody).
  apply lift_OK in E1. destruct E1 as (Eactor & ->).
  rewrite Hname in Eactor. apply OK_inj in Eactor. subst actor.
  apply bind_OK in Ebody. destruct Ebody as (user_id & wa & Eid & Ebody).
  destruct (getParticipantId_found accepts name w user_id wa Eid)
    as (_ & Hfound).
  exists user_id.
  assert (Hb : extends (names_of wa) (names_of wb)).
  { refine (_ : (fun w => extends (names_of wa) (names_of w)) wb).
    eapply (stable_bind (fun w => extends (names_of wa) (names_of w)));
      [| | apply extends_refl | exact Ebody].
    - apply stable_lift.
    - intros symbol. unfold Database._saveReaction.
      extends_auto (names_of wa). }
  assert (Hrest : extends (names_of wb) (names_of w')).
  { refine (_ : (fun w => extends (names_of wb) (names_of w)) w').
    eapply (stable_for_each (fun w => extends (names_of wb) (names_of w)));
      [| apply extends_refl | exact E].
    intros y _. unfold Database._saveReaction.
    extends_auto (names_of wb). }
  apply Hrest, Hb, Hfound.
Qed.

Lemma save_reactions_references item message_id w w' :
  save_reactions accepts item message_id w = (OK tt, w') ->
  forall records reaction name,
    reaction_records item = OK records ->
    In reaction records ->
    py_getitem reaction (lit "actor") = OK name ->
    exists v, dict_find name (names_of w') = Some v.
Proof.
  unfold save_reactions, Database.for_each_in, reaction_records.
  intros E records reaction name Erec Hin Hname.
  apply bind_OK in E. destruct E as (present & s & E1 & E).
  apply lift_OK in E1. destruct E1 as (Ep & ->).
  rewrite Ep in Erec. cbn [rbind] in Erec. destruct present.
  - apply bind_OK in E. destruct E as (v & s & E1 & E).
    apply lift_OK in E1. destruct E1 as (Ev & ->).
    apply bind_OK in E. destruct E as (xs & s & E1 & E).
    apply lift_OK in E1. destruct E1 as (Exs & ->).
    rewrite Ev in Erec. cbn [rbind] in Erec. rewrite Exs in Erec.
    apply OK_inj in Erec. subst xs.
    apply (reactions_loop_references message_id records w w' E
             reaction name Hin Hname).
  - apply OK_inj in Erec. subst records. destruct Hin.
Qed.

Lemma saveMessage_references item w message_id w' name :
  Database._saveMessage accepts item w = (OK message_id, w') ->
  references item name ->
  exists v, dict_find name (names_of w') = Some v.
Proof.
  intros E Href.
  destruct (saveMessage_inv accepts item w message_id w' E)
    as (content & timestamp_ms & epoch & sender_name & sender_id & type
        & w1 & w2 & w3 & w4
        & _ & _ & _ & Esn & Eid & _ & Eins & Er & Ea & Es).
  assert (H34 : extends (names_of w3) (names_of w')).
  { apply (extends_trans _ (names_of w4)).
    - apply (save_attachements_extends accepts (names_of w3) item message_id
               w3 (OK tt) w4 (extends_refl _) Ea).
    - apply (save_share_and_sticker_extends accepts (names_of w4) item
               message_id w4 (OK tt) w' (extends_refl _) Es). }
  destruct Href as [Hsender | (records & reaction & Erec & Hin & Hactor)].
  - rewrite Hsender in Esn. apply OK_inj in Esn. subst sender_name.
    destruct (getParticipantId_found accepts name w sender_id w1 Eid)
      as (_ & Hfound).
    exists sender_id. apply H34.
    apply (save_reactions_extends accepts (names_of w2) item message_id
             w2 (OK tt) w3 (extends_refl _) Er).
    apply (insert_same_names accepts (extends (names_of w1)) _ _
             w1 (OK message_id) w2 (extends_refl _) Eins).
    exact Hfound.
  - destruct (save_reactions_references item message_id w2 w3 Er
                records reaction name Erec Hin Hactor) as (v & Hv).
    exists v. apply H34, Hv.
Qed.

Lemma save_messages_references msgs :
  forall result w r w',
    positive_keys (working (Database.db w) messages) ->
    Database.truthy result = true ->
    Database.save_messages accepts msgs result w = (OK r, w') ->
    List.length (working (Database.db w') messages)
    = (List.length (working (Database.db w) messages)
       + List.length msgs)%nat
    /\ forall item name,
         In item msgs -> references item name ->
         exists v, dict_find name (names_of w') = Some v.
Proof.
  induction msgs as [| message rest IH]; intros result w r w' Hpos Ht E.
  - cbn [Database.save_messages] in E. apply ret_OK in E.
    destruct E as (_ & ->). split; [cbn; lia | intros item name []].
  - cbn [Database.save_messages] in E. rewrite Ht in E.
    apply bind_OK in E. destruct E as (result' & w1' & E1 & E).
    apply bind_OK in E1. destruct E1 as (message_id & w1 & Emsg & E1).
    apply ret_OK in E1. destruct E1 as (-> & ->).
    destruct (saveMessage_row accepts message w message_id w1 Emsg)
      as (content & timestamp_ms & epoch & sender_name & sender_id & type
          & vals & _ & _ & _ & _ & _ & _ & Hid & Hrows).
    assert (Hmid : 0 < message_id).
    { rewrite Hid. apply next_rowid_positive, Hpos. }
    destruct (IH (Database.RInt message_id) w1 r w') as (Hlen & Hrefs).
    + rewrite Hrows. apply Forall_app. split; [exact Hpos |].
      repeat constructor. exact Hmid.
    + cbn [Database.truthy]. destruct (Z.eqb_spec message_id 0);
        [lia | reflexivity].
    + exact E.
    + split.
      * rewrite Hlen, Hrows, length_app. cbn [List.length]. lia.
      * intros item name [<- | Hin] Href; [| apply (Hrefs item name Hin Href)].
        destruct (saveMessage_references message w message_id w1 name Emsg
                    Href)
          as (v & Hv).
        exists v.
        apply (save_messages_extends accepts (names_of w1) rest
                 (Database.RInt message_id) w1 (OK r) w'
                 (extends_refl _) E).
        exact Hv.
Qed.

End References.

(** *** One id for each name *)

Lemma ForallOrdPairs_cross {A} (R : A -> A -> Prop) l1 l2 a b :
  ForallOrdPairs R (l1 ++ l2) -> In a l1 -> In b l2 -> R a b.
Proof.
  induction l1 as [| x l1 IH]; cbn [app]; intros H Ha Hb; [destruct Ha |].
  inversion H as [| ? ? Hx Hl]. subst. destruct Ha as [-> | Ha].
  - rewrite Forall_forall in Hx. apply Hx, in_or_app. right. exact Hb.
  - apply (IH Hl Ha Hb).
Qed.

Lemma Forall2_impl_In {A B} (R R' : A -> B -> Prop) l l' :
  (forall x y, In x l -> R x y -> R' x y) ->
  Forall2 R l l' -> Forall2 R' l l'.
Proof.
  intros H F. induction F as [| x y l l' Hxy _ IH]; constructor.
  - apply H; [left; reflexivity | exact Hxy].
  - apply IH. intros x' y' Hin. apply H. right. exact Hin.
Qed.

Lemma Forall2_In_l {A B} (R : A -> B -> Prop) l l' x :
  Forall2 R l l' -> In x l -> exists y, In y l' /\ R x y.
Proof.
  induction 1 as [| a b l l' Hab _ IH]; intros Hin; [destruct Hin |].
  destruct Hin as [-> | Hin].
  - exists b. split; [left; reflexivity | exact Hab].
  - destruct (IH Hin) as (y & Hy & Hxy). exists y.
    split; [right; exact Hy | exact Hxy].
Qed.

Lemma participants_saved_rows before cid roster w :
  participants_saved before cid roster w ->
  exists added,
    participant_rows w = before ++ added
    /\ Forall2 (saved_as cid roster) (names_of w) added
    /\ keys_ok (map fst (names_of w))
    /\ NoDup (map rowid added)
    /\ (forall r, In r added -> ~ In (rowid r) (map rowid before))
    /\ incl roster (map fst (names_of w)).
Proof.
  intros (es1 & es0 & rows1 & rows0
          & Hn & Hroster & Hrows & H1 & H0 & Hkeys & Hgen & Hcid).
  destruct (generated_new before _ Hgen) as (Hnd & Hnew).
  exists (rows1 ++ rows0). split; [exact Hrows |].
  split; [| split; [exact Hkeys | split; [exact Hnd | split; [exact Hnew |]]]].
  - rewrite Hn. rewrite Hn, map_app in Hkeys. destruct Hkeys as (Hh & Hp).
    apply Forall2_app.
    + apply (Forall2_impl_In (participant_row cid 1)); [| exact H1].
      intros e r He Hr. unfold saved_as, current_flag.
      replace (existsb (fun k => py_eqb k (fst e)) roster) with true;
        [exact Hr |].
      symmetry. apply existsb_exists. exists (fst e). split.
      * rewrite <- Hroster. apply in_map, He.
      * apply py_eqb_refl. rewrite Forall_forall in Hh. apply Hh.
        apply in_or_app. left. apply in_map, He.
    + apply (Forall2_impl_In (participant_row cid 0)); [| exact H0].
      intros e r He Hr. unfold saved_as, current_flag.
      replace (existsb (fun k => py_eqb k (fst e)) roster) with false;
        [exact Hr |].
      symmetry. apply not_true_is_false. intros Hex.
      apply existsb_exists in Hex. destruct Hex as (k & Hk & Hke).
      rewrite <- Hroster in Hk.
      rewrite (ForallOrdPairs_cross _ _ _ k (fst e) Hp Hk
                 (in_map fst _ _ He)) in Hke.
      discriminate Hke.
  - rewrite Hn, map_app, Hroster. apply incl_appl, incl_refl.
Qed.

(** C4: while a conversation is saved, [_getParticipantId] adds a name
    that the dict does not have with a new row, flagged not current, and
    records the key of that row; from then on the same name gets the same
    key, whatever is saved afterwards.  When the whole conversation has
    been saved, the rows added to [participants] and the entries of the
    dict correspond one to one, under pairwise different names and
    pairwise different new keys, the flag of a row telling whether the
    name is in the roster; and every name of the roster, every sender and
    every reaction actor has its key in the dict. *)
Theorem participants_get_one_id
    (accepts : table -> list row -> list sqlval -> bool) :
  (forall w name v w1,
     dict_find name (names_of w) = None ->
     Database._getParticipantId accepts name w = (OK v, w1) ->
     exists key, v = Some key /\ lazily_added name key w w1)
  /\ (forall w name v w1 msgs result out w2,
        Database._getParticipantId accepts name w = (OK v, w1) ->
        Database.save_messages accepts msgs result w1 = (out, w2) ->
        Database._getParticipantId accepts name w2 = (OK v, w2))
  /\ (forall w r w',
        keys_ok (map fst (names_of w)) ->
        positive_keys (working (Database.db w) messages) ->
        Database._saveConversation accepts w = (OK r, w') ->
        exists added,
          participant_rows w' = participant_rows w ++ added
          /\ Forall2
               (saved_as (Conversation.id (Database.conversation w))
                  (map fst (names_of w)))
               (names_of w') added
          /\ keys_ok (map fst (names_of w'))
          /\ NoDup (map rowid added)
          /\ (forall r0, In r0 added ->
                ~ In (rowid r0) (map rowid (participant_rows w)))
          /\ (forall name,
                In name (map fst (names_of w))
                \/ (exists item,
                      In item (Conversation.messages
                                 (Database.conversation w))
                      /\ references item name) ->
                exists key,
                  dict_find name (names_of w') = Some (Some key))).
Proof.
  split; [| split].
  - intros w name v w1 Hnone E.
    destruct (getParticipantId_step accepts name w (OK v) w1 E)
      as [(_ & H) | (key & Ev & _ & _ & Hadd)].
    + destruct (H v eq_refl) as (_ & Hf). congruence.
    + apply OK_inj in Ev. exists key. split; assumption.
  - intros w name v w1 msgs result out w2 E Emsgs.
    destruct (getParticipantId_found accepts name w v w1 E) as (Hh & Hf).
    apply getParticipantId_known; [exact Hh |].
    apply (save_messages_extends accepts (names_of w1) msgs result
             w1 out w2 (extends_refl _) Emsgs).
    exact Hf.
  - intros w r w' Hkeys Hpos E.
    pose proof (saveConversation_participants_saved accepts w r w' Hkeys E)
      as Hsaved.
    destruct (participants_saved_rows _ _ _ _ Hsaved)
      as (added & Hrows & Hpairs & Hkeys' & Hnd & Hnew & Hincl).
    exists added. repeat (split; [assumption |]).
    assert (Hsome : forall name v,
               dict_find name (names_of w') = Some v ->
               exists key, dict_find name (names_of w') = Some (Some key)).
    { intros name v Hv. destruct (dict_find_In _ _ _ Hv) as (k' & Hin).
      destruct (Forall2_In_l _ _ _ _ Hpairs Hin) as (r0 & _ & (Hr0 & _)).
      cbn [snd] in Hr0. subst v. exists (rowid r0). exact Hv. }
    intros name [Hroster | (item & Hitem & Href)].
    + destruct Hkeys' as (Hh & _). rewrite Forall_forall in Hh.
      destruct (dict_find_key name (names_of w')
                  (Hh name (Hincl name Hroster)) (Hincl name Hroster))
        as (v & Hv).
      apply (Hsome name v Hv).
    + destruct (saveConversation_inv accepts w r w' E)
        as (title & thread_type & thread_path & key & w1 & w2
            & _ & _ & _ & Eins & Eroster & Emsgs).
      destruct (writes_run _ _ _ _ _ (writes_insert accepts _ _) Eins)
        as (_ & H1 & _).
      destruct (writes_run _ _ _ _ _ (writes_save_roster accepts _ _) Eroster)
        as (_ & H2 & _).
      destruct (save_messages_references accepts
                  (Conversation.messages (Database.conversation w))
                  Database.RCursor w2 r w')
        as (_ & Hrefs); [| reflexivity | exact Emsgs |].
      * rewrite H2, H1 by (cbn; intuition discriminate). exact Hpos.
      * destruct (Hrefs item name Hitem Href) as (v & Hv).
        apply (Hsome name v Hv).
Qed.

Lemma participants_get_one_id_witness :
  exists added,
    participant_rows (snd (Database._saveConversation accept_all trip_world))
    = participant_rows trip_world ++ added
    /\ Forall2
         (saved_as (Conversation.id (Database.conversation trip_world))
            (map fst (names_of trip_world)))
         (names_of (snd (Database._saveConversation accept_all trip_world)))
         added
    /\ keys_ok
         (map fst
            (names_of (snd (Database._saveConversation accept_all
                              trip_world))))
    /\ NoDup (map rowid added)
    /\ (forall r0, In r0 added ->
          ~ In (rowid r0) (map rowid (participant_rows trip_world)))
    /\ (forall name,
          In name (map fst (names_of trip_world))
          \/ (exists item,
                In item (Conversation.messages
                           (Database.conversation trip_world))
                /\ references item name) ->
          exists key,
            dict_find name
              (names_of (snd (Database._saveConversation accept_all
                                trip_world)))
            = Some (Some key)).
Proof.
  apply (proj2 (proj2 (participants_get_one_id accept_all))
           trip_world (Database.RInt 2)).
  - split.
    + repeat constructor.
    + repeat constructor.
  - constructor.
  - vm_compute. reflexivity.
Defined.

(** The ids of the example: Alice and Bob of the roster get 1 and 2 and
    are current, Carol, who only reacts, gets 3 and is not. *)
Example trip_participants :
  names_of (snd (Database._saveConversation accept_all trip_world))
  = [(str "Alice", Some 1); (str "Bob", Some 2); (str "Carol", Some 3)]
  /\ map cols
       (participant_rows
          (snd (Database._saveConversation accept_all trip_world)))
     = [[SInt 0; SText (lit "Alice"); SInt 1];
        [SInt 0; SText (lit "Bob"); SInt 1];
        [SInt 0; SText (lit "Carol"); SInt 0]].
Proof. split; vm_compute; reflexivity. Qed.

(** *** The dict that the script builds has proper keys *)

Lemma dict_store_keys {V} k (v : V) d :
  keys_ok (map fst d) -> hashable k = true ->
  keys_ok (map fst (dict_store k v d)).
Proof.
  intros Hkeys Hk.
  destruct (dict_find k d) as [v0 |] eqn:Ef.
  - replace (map fst (dict_store k v d)) with (map fst d); [exact Hkeys |].
    clear Hkeys. induction d as [| [k0 x0] r IH]; [discriminate Ef |].
    cbn [dict_find dict_store map fst] in *.
    destruct (py_eqb k0 k); [reflexivity |].
    cbn [map fst]. f_equal. exact (IH Ef).
  - rewrite (dict_store_absent k v d Ef), map_app. cbn [map fst].
    apply keys_ok_snoc; [exact Hkeys | exact Hk |].
    apply dict_find_None in Ef. rewrite Forall_forall in Ef |- *.
    intros k' Hk'. apply in_map_iff in Hk'.
    destruct Hk' as (e & <- & He). apply Ef, He.
Qed.

Lemma register_keys ps :
  forall d d',
    keys_ok (map fst d) -> Conversation.register ps d = OK d' ->
    keys_ok (map fst d').
Proof.
  induction ps as [| p r IH]; intros d d' Hkeys; cbn [Conversation.register].
  - intros E. apply OK_inj in E. subst d'. exact Hkeys.
  - intros E. apply rbind_OK in E. destruct E as (name & _ & E).
    apply rbind_OK in E. destruct E as (d1 & E1 & E).
    unfold dict_set in E1. destruct (hashable name) eqn:Hh;
      [| discriminate E1].
    apply OK_inj in E1. subst d1.
    apply (IH _ d' (dict_store_keys name None d Hkeys Hh) E).
Qed.

Lemma loadMessages_keys self doc self' :
  keys_ok (map fst (Conversation.participants self)) ->
  Conversation.loadMessages self doc = OK self' ->
  keys_ok (map fst (Conversation.participants self')).
Proof.
  unfold Conversation.loadMessages. intros Hkeys E.
  apply rbind_OK in E. destruct E as (title & _ & E).
  apply rbind_OK in E. destruct E as (thread_type & _ & E).
  apply rbind_OK in E. destruct E as (thread_path & _ & E).
  apply rbind_OK in E. destruct E as (self1 & E1 & E).
  apply rbind_OK in E. destruct E as (msgs & _ & E).
  apply rbind_OK in E. destruct E as (more & _ & E).
  apply OK_inj in E. subst self'. cbn [Conversation.participants].
  destruct (Conversation.metadata self).
  - apply rbind_OK in E1. destruct E1 as (roster & _ & E1).
    apply rbind_OK in E1. destruct E1 as (ps & _ & E1).
    apply rbind_OK in E1. destruct E1 as (d & Ed & E1).
    apply OK_inj in E1. subst self1. cbn [Conversation.participants].
    apply (register_keys ps _ d Hkeys Ed).
  - destruct (py_eqb _ _); [| discriminate E1].
    apply OK_inj in E1. subst self1. exact Hkeys.
Qed.

(** Every conversation that the script saves satisfies the first
    hypothesis of C4. *)
Lemma loadAll_keys docs :
  forall self self',
    keys_ok (map fst (Conversation.participants self)) ->
    Conversation.loadAll self docs = OK self' ->
    keys_ok (map fst (Conversation.participants self')).
Proof.
  induction docs as [| d r IH]; intros self self' Hkeys;
    cbn [Conversation.loadAll].
  - intros E. apply OK_inj in E. subst self'. exact Hkeys.
  - intros E. apply rbind_OK in E. destruct E as (self1 & E1 & E).
    apply (IH self1 self' (loadMessages_keys self d self1 Hkeys E1) E).
Qed.

(** *** The keys of [messages] stay positive *)

Section PositiveKeys.

Variable accepts : table -> list row -> list sqlval -> bool.

Lemma insert_positive_keys t params :
  stable (fun w => positive_keys (working (Database.db w) messages))
    (Database.on_db (Database.execute_insert accepts t params)).
Proof.
  intros w r w' H E. destruct r as [key | e].
  - destruct (insert_OK accepts _ _ _ _ _ E) as (vals & _ & Hkey & Hrows & _).
    destruct (table_eq_dec t messages) as [-> | Hne].
    + rewrite Hrows. apply Forall_app. split; [exact H |].
      repeat constructor. cbn [rowid]. rewrite Hkey.
      apply next_rowid_positive, H.
    + destruct (writes_run _ _ _ _ _ (writes_insert accepts t params) E)
        as (_ & Hsame & _).
      rewrite Hsame; [exact H |].
      intros [Heq | []]. apply Hne. exact Heq.
  - rewrite (insert_Raise accepts _ _ _ _ _ E). exact H.
Qed.

Lemma set_participant_positive_keys name v :
  stable (fun w => positive_keys (working (Database.db w) messages))
    (Database.set_participant name v).
Proof.
  intros w r w' H. unfold Database.set_participant.
  destruct (dict_set _ name v); intros E; injection E as _ <-; exact H.
Qed.

Ltac positive_auto :=
  stable_by ltac:(first [ apply insert_positive_keys
                        | apply set_participant_positive_keys ]).

Lemma save_messages_positive_keys msgs result :
  stable (fun w => positive_keys (working (Database.db w) messages))
    (Database.save_messages accepts msgs result).
Proof.
  revert result. induction msgs as [| message r IH]; intros result;
    cbn [Database.save_messages].
  - apply stable_ret.
  - apply stable_bind; [| intros result'; apply IH].
    destruct (Database.truthy result); [| apply stable_ret].
    apply stable_bind; [| intros; apply stable_ret].
    unfold Database._saveMessage. positive_auto.
Qed.

Lemma saveConversation_positive_keys :
  stable (fun w => positive_keys (working (Database.db w) messages))
    (Database._saveConversation accepts).
Proof.
  unfold Database._saveConversation.
  apply stable_bind; [apply stable_get | intros w0].
  positive_auto. apply save_messages_positive_keys.
Qed.

(** A run starts from empty tables, and a [save] that starts from
    positive keys in [messages] leaves positive keys there: every
    conversation of a run is saved under the second hypothesis of C4. *)
Lemma save_positive_keys item c r c' :
  positive_keys (working c messages) ->
  Database.save accepts item c = (r, c') ->
  positive_keys (working c' messages).
Proof.
  intros H E. destruct (save_inv accepts item c r c' E) as (w' & Ew & Hc).
  pose proof (saveConversation_positive_keys
                {| Database.db := c; Database.conversation := item |}
                r w' H Ew) as H'.
  destruct r; subst c'; exact H'.
Qed.

End PositiveKeys.

(** ** C5: [save] commits all or nothing *)

Section Save.

Variable accepts : table -> list row -> list sqlval -> bool.

Lemma save_Raise item c e c' :
  Database.save accepts item c = (Raise e, c') -> committed c' = committed c.
Proof.
  intros E. destruct (save_inv accepts item c _ c' E) as (w' & Ew & ->).
  destruct (writes_run _ _ _ _ _ (writes_saveConversation accepts) Ew)
    as (Hcm & _).
  exact Hcm.
Qed.

Lemma saveConversation_message_rows w r w' :
  positive_keys (working (Database.db w) messages) ->
  Database._saveConversation accepts w = (OK r, w') ->
  List.length (working (Database.db w') messages)
  = (List.length (working (Database.db w) messages)
     + List.length (Conversation.messages (Database.conversation w)))%nat.
Proof.
  intros Hpos E. destruct (saveConversation_inv accepts w r w' E)
    as (title & thread_type & thread_path & key & w1 & w2
        & _ & _ & _ & Eins & Eroster & Emsgs).
  destruct (writes_run _ _ _ _ _ (writes_insert accepts _ _) Eins)
    as (_ & H1 & _).
  destruct (writes_run _ _ _ _ _ (writes_save_roster accepts _ _) Eroster)
    as (_ & H2 & _).
  assert (H12 : working (Database.db w2) messages
                = working (Database.db w) messages).
  { rewrite H2, H1 by (cbn; intuition discriminate). reflexivity. }
  destruct (save_messages_references accepts
              (Conversation.messages (Database.conversation w))
              Database.RCursor w2 r w') as (Hlen & _);
    [rewrite H12; exact Hpos | reflexivity | exact Emsgs |].
  rewrite Hlen, H12. reflexivity.
Qed.

Lemma save_OK item c r c' :
  Database.save accepts item c = (OK r, c') ->
  committed c' = working c'
  /\ (exists w',
        Database._saveConversation accepts
          {| Database.db := c; Database.conversation := item |} = (OK r, w')
        /\ committed c' = working (Database.db w'))
  /\ (exists key vals,
        committed c' conversations
        = working c conversations ++ [mkrow key vals])
  /\ (positive_keys (working c messages) ->
      List.length (committed c' messages)
      = (List.length (working c messages)
         + List.length (Conversation.messages item))%nat).
Proof.
  intros E. destruct (save_inv accepts item c _ c' E) as (w' & Ew & ->).
  cbn [committed working]. split; [reflexivity |]. split; [| split].
  - exists w'. split; [exact Ew | reflexivity].
  - apply (saveConversation_row accepts _ r w' Ew).
  - intros Hpos.
    apply (saveConversation_message_rows
             {| Database.db := c; Database.conversation := item |}
             r w' Hpos Ew).
Qed.

End Save.



(** What a failed [save] leaves behind is pending, not committed: the
    rows written before the failing statement stay in the open
    transaction, which the script never commits because it stops. *)
Lemma save_failure_leaves_pending_rows :
  fst (Database.save accept_all broken_trip empty_conn) = Raise InterfaceError
  /\ List.length
       (working (snd (Database.save accept_all broken_trip empty_conn))
          messages) = 2%nat
  /\ committed (snd (Database.save accept_all broken_trip empty_conn)) messages
     = [].
Proof. repeat split; vm_compute; reflexivity. Qed.

(** ** C8: [removeAll] *)

Section RemoveAll.

Variable accepts : table -> list row -> list sqlval -> bool.

Lemma removeAll_empties c :
  Database.removeAll c = (OK Database.RCursor, empty_conn).
Proof. destruct c as [cm wk]. reflexivity. Qed.

Lemma save_conversations item c r c' :
  committed c = working c ->
  Database.save accepts item c = (OK r, c') ->
  committed c' = working c'
  /\ List.length (committed c' conversations)
     = S (List.length (committed c conversations)).
Proof.
  intros Hc E.
  destruct (save_OK accepts item c r c' E) as (H1 & _ & (key & vals & H3) & _).
  split; [exact H1 |]. rewrite H3, Hc, length_app. cbn. lia.
Qed.

Lemma save_all_conversations convs i c c' :
  committed c = working c ->
  Database.save_all accepts convs i c = (OK tt, c') ->
  committed c' = working c'
  /\ List.length (committed c' conversations)
     = (List.length (committed c conversations) + List.length convs)%nat.
Proof.
  revert i c. induction convs as [| conv r IH]; intros i c Hc;
    cbn [Database.save_all].
  - intros E. apply ret_OK in E. destruct E as (_ & ->).
    split; [exact Hc |]. cbn. lia.
  - intros E. apply bind_OK in E. destruct E as (res & c1 & E1 & E).
    destruct (save_conversations _ c res c1 Hc E1) as (Hc1 & Hlen1).
    destruct (IH _ c1 Hc1 E) as (Hc' & Hlen').
    split; [exact Hc' |]. rewrite Hlen', Hlen1. cbn. lia.
Qed.

End RemoveAll.

(** C8: [removeAll] leaves every table empty, in the transaction and
    committed.  So a run, which clears and then saves the conversations,
    ends as the same run on an empty database does, whatever the database
    held before, and when it succeeds it leaves one row in [conversations]
    for each conversation. *)
Theorem removeAll_then_save_all
    (accepts : table -> list row -> list sqlval -> bool) (c : conn) :
  Database.removeAll c = (OK Database.RCursor, empty_conn)
  /\ (forall t, committed empty_conn t = [] /\ working empty_conn t = [])
  /\ (forall convs, Database.run accepts convs c
                    = Database.run accepts convs empty_conn)
  /\ (forall convs c',
        Database.run accepts convs c = (OK tt, c') ->
        List.length (committed c' conversations) = List.length convs).
Proof.
  split; [apply removeAll_empties |].
  split; [intros t; destruct t; split; reflexivity |].
  split.
  - intros convs. unfold Database.run, bind.
    rewrite !removeAll_empties. reflexivity.
  - intros convs c'. unfold Database.run, bind.
    rewrite removeAll_empties. intros E.
    destruct (save_all_conversations accepts convs 0 empty_conn c' eq_refl E)
      as (_ & Hlen).
    exact Hlen.
Qed.

Lemma removeAll_then_save_all_witness :
  List.length
    (committed (snd (Database.run accept_all [trip; trip] used_conn))
       conversations)
  = List.length [trip; trip].
Proof.
  apply (proj2 (proj2 (proj2 (removeAll_then_save_all accept_all used_conn)))).
  vm_compute. reflexivity.
Defined.

(** * Part IV: further properties of the code *)

(** ** What the repair returns *)

Lemma encoded_encode c bs :
  encoded c bs -> Codec.utf_8_encode_char c = OK bs.
Proof.
  intros H. destruct (Codec.utf_8_encode_char c) as [bs' |] eqn:E.
  - apply utf_8_encode_char_encoded in E.
    destruct H, E; try reflexivity; lia.
  - exfalso. unfold Codec.utf_8_encode_char in E.
    destruct H; revert E; split_tests; cbn [andb]; discriminate.
Qed.

Lemma encoded_2 c b0 b1 :
  0xC2 <= b0 < 0xE0 -> 0x80 <= b1 < 0xC0 ->
  c = (b0 - 0xC0) * 64 + (b1 - 0x80) -> encoded c [b0; b1].
Proof.
  intros H0 H1 ->.
  replace b0 with (0xC0 + ((b0 - 0xC0) * 64 + (b1 - 0x80)) / 64) at 2
    by (Z.div_mod_to_equations; lia).
  replace b1 with (0x80 + ((b0 - 0xC0) * 64 + (b1 - 0x80)) mod 64) at 3
    by (Z.div_mod_to_equations; lia).
  apply enc2. lia.
Qed.

Lemma encoded_3 c b0 b1 b2 :
  0xE0 <= b0 < 0xF0 -> 0x80 <= b1 < 0xC0 -> 0x80 <= b2 < 0xC0 ->
  (b0 = 0xE0 -> 0xA0 <= b1) -> (b0 = 0xED -> b1 < 0xA0) ->
  c = (b0 - 0xE0) * 4096 + (b1 - 0x80) * 64 + (b2 - 0x80) ->
  encoded c [b0; b1; b2].
Proof.
  intros H0 H1 H2 Hlo Hhi Hc.
  assert (E0 : b0 = 0xE0 + c / 4096)
    by (subst c; Z.div_mod_to_equations; lia).
  assert (E1 : b1 = 0x80 + (c / 64) mod 64)
    by (subst c; Z.div_mod_to_equations; lia).
  assert (E2 : b2 = 0x80 + c mod 64)
    by (subst c; Z.div_mod_to_equations; lia).
  rewrite E0, E1, E2. apply enc3; subst c; lia.
Qed.

Lemma encoded_4 c b0 b1 b2 b3 :
  0xF0 <= b0 < 0xF5 ->
  0x80 <= b1 < 0xC0 -> 0x80 <= b2 < 0xC0 -> 0x80 <= b3 < 0xC0 ->
  (b0 = 0xF0 -> 0x90 <= b1) -> (b0 = 0xF4 -> b1 < 0x90) ->
  c = (b0 - 0xF0) * 262144 + (b1 - 0x80) * 4096 + (b2 - 0x80) * 64
      + (b3 - 0x80) ->
  encoded c [b0; b1; b2; b3].
Proof.
  intros H0 H1 H2 H3 Hlo Hhi Hc.
  assert (E0 : b0 = 0xF0 + c / 262144)
    by (subst c; Z.div_mod_to_equations; lia).
  assert (E1 : b1 = 0x80 + (c / 4096) mod 64)
    by (subst c; Z.div_mod_to_equations; lia).
  assert (E2 : b2 = 0x80 + (c / 64) mod 64)
    by (subst c; Z.div_mod_to_equations; lia).
  assert (E3 : b3 = 0x80 + c mod 64)
    by (subst c; Z.div_mod_to_equations; lia).
  rewrite E0, E1, E2, E3. apply enc4; subst c; lia.
Qed.

Ltac decode_raises :=
  cbn [Codec.utf_8_decode]; unfold Codec.is_continuation;
  split_tests; cbn [andb orb negb]; intros E; discriminate E.

Lemma utf_8_decode_head b0 r0 t :
  0 <= b0 ->
  Codec.utf_8_decode (b0 :: r0) = OK t ->
  exists c bs r t',
    b0 :: r0 = bs ++ r /\ bs <> [] /\ encoded c bs
    /\ Codec.utf_8_decode r = OK t' /\ t = c :: t'.
Proof.
  intros Hb0.
  destruct (Z.ltb_spec b0 0x80) as [L1 | L1].
  { rewrite decode_1 by lia. intros E.
    apply rbind_OK in E. destruct E as (t' & Et & E). apply OK_inj in E.
    exists b0, [b0], r0, t'. repeat split; try assumption; try discriminate.
    - apply enc1. lia.
    - symmetry. exact E. }
  destruct (Z.ltb_spec b0 0xC2) as [L2 | L2]; [decode_raises |].
  destruct r0 as [| b1 r1]; [decode_raises |].
  destruct (Z.ltb_spec b1 0x80) as [C1 | C1]; [decode_raises |].
  destruct (Z.ltb_spec b1 0xC0) as [C1' | C1']; [| decode_raises].
  destruct (Z.ltb_spec b0 0xE0) as [L3 | L3].
  { rewrite decode_2 by lia. intros E.
    apply rbind_OK in E. destruct E as (t' & Et & E). apply OK_inj in E.
    exists ((b0 - 0xC0) * 64 + (b1 - 0x80)), [b0; b1], r1, t'.
    repeat split; try assumption; try discriminate.
    - apply encoded_2; try lia.
    - symmetry. exact E. }
  destruct r1 as [| b2 r2]; [decode_raises |].
  destruct (Z.ltb_spec b2 0x80) as [C2 | C2]; [decode_raises |].
  destruct (Z.ltb_spec b2 0xC0) as [C2' | C2']; [| decode_raises].
  destruct (Z.ltb_spec b0 0xF0) as [L4 | L4].
  { destruct (Z.eq_dec b0 0xE0) as [Q1 | Q1];
      [destruct (Z.ltb_spec b1 0xA0); [decode_raises |] |];
      (destruct (Z.eq_dec b0 0xED) as [Q2 | Q2];
       [destruct (Z.ltb_spec b1 0xA0); [| decode_raises] |]);
      try lia;
      (rewrite decode_3 by lia; intros E;
       apply rbind_OK in E; destruct E as (t' & Et & E); apply OK_inj in E;
       exists ((b0 - 0xE0) * 4096 + (b1 - 0x80) * 64 + (b2 - 0x80)),
         [b0; b1; b2], r2, t';
       repeat split; try assumption; try discriminate;
       [apply encoded_3; lia | symmetry; exact E]). }
  destruct r2 as [| b3 r3]; [decode_raises |].
  destruct (Z.ltb_spec b3 0x80) as [C3 | C3]; [decode_raises |].
  destruct (Z.ltb_spec b3 0xC0) as [C3' | C3']; [| decode_raises].
  destruct (Z.ltb_spec b0 0xF5) as [L5 | L5]; [| decode_raises].
  destruct (Z.eq_dec b0 0xF0) as [Q1 | Q1];
    [destruct (Z.ltb_spec b1 0x90); [decode_raises |] |];
    (destruct (Z.eq_dec b0 0xF4) as [Q2 | Q2];
     [destruct (Z.ltb_spec b1 0x90); [| decode_raises] |]);
    try lia;
    (rewrite decode_4 by lia; intros E;
     apply rbind_OK in E; destruct E as (t' & Et & E); apply OK_inj in E;
     exists ((b0 - 0xF0) * 262144 + (b1 - 0x80) * 4096 + (b2 - 0x80) * 64
             + (b3 - 0x80)),
       [b0; b1; b2; b3], r3, t';
     repeat split; try assumption; try discriminate;
     [apply encoded_4; lia | symmetry; exact E]).
Qed.

Lemma encoded_not_nil c bs : encoded c bs -> bs <> [].
Proof. intros []; discriminate. Qed.

Lemma utf_8_encode_decode_bounded n :
  forall b t,
    (List.length b <= n)%nat -> Forall octet b ->
    Codec.utf_8_decode b = OK t -> Codec.utf_8_encode t = OK b.
Proof.
  induction n as [| n IH]; intros b t Hn Hb E.
  - destruct b; [| cbn in Hn; lia].
    cbn in E. apply OK_inj in E. subst t. reflexivity.
  - destruct b as [| b0 r0].
    + cbn in E. apply OK_inj in E. subst t. reflexivity.
    + assert (H0 : 0 <= b0) by (inversion Hb; unfold octet in *; lia).
      destruct (utf_8_decode_head b0 r0 t H0 E)
        as (c & bs & r & t' & Eb & Hne & Henc & Er & ->).
      rewrite Eb in Hb, Hn. apply Forall_app in Hb. destruct Hb as (_ & Hr).
      rewrite length_app in Hn.
      assert (List.length bs <> 0)%nat
        by (destruct bs; [destruct Hne; reflexivity | discriminate]).
      cbn [Codec.utf_8_encode].
      rewrite (encoded_encode c bs Henc). cbn [rbind].
      rewrite (IH r t') by (try assumption; lia).
      cbn [rbind]. rewrite Eb. reflexivity.
Qed.

Lemma latin_1_encode_OK s b :
  Codec.latin_1_encode s = OK b -> b = s /\ Forall octet s.
Proof.
  unfold Codec.latin_1_encode. revert b.
  induction s as [| c r IH]; cbn [rmap]; intros b E.
  - apply OK_inj in E. subst b. split; [reflexivity | constructor].
  - apply rbind_OK in E. destruct E as (y & Ey & E).
    apply rbind_OK in E. destruct E as (ys & Eys & E).
    apply OK_inj in E. subst b. destruct (IH ys Eys) as (-> & Hr).
    unfold Codec.latin_1_encode_char in Ey.
    destruct ((0 <=? c) && (c <? 256)) eqn:Hc; [| discriminate Ey].
    apply OK_inj in Ey. subst y. split; [reflexivity |].
    constructor; [| exact Hr].
    apply andb_prop in Hc. destruct Hc as (Hc1 & Hc2).
    apply Z.leb_le in Hc1. apply Z.ltb_lt in Hc2. unfold octet. lia.
Qed.

Lemma repair_OK s t :
  repair s = OK t ->
  Forall octet s /\ Codec.utf_8_decode s = OK t
  /\ Codec.utf_8_encode t = OK s.
Proof.
  unfold repair. intros E. apply rbind_OK in E. destruct E as (b & Eb & E).
  destruct (latin_1_encode_OK s b Eb) as (-> & Hs).
  split; [exact Hs |]. split; [exact E |].
  apply (utf_8_encode_decode_bounded (List.length s)); auto.
Qed.

(** X1: whatever the repair returns is the text whose export defect is
    the given string: encoding the result as UTF-8 and reading it as
    Latin-1 gives the input back.  So the repair maps no two strings to
    the same text. *)
Theorem repair_is_inverse_of_defect (s t : pystr) :
  repair s = OK t ->
  mojibake t = OK s
  /\ forall s', repair s' = OK t -> s' = s.
Proof.
  intros E. destruct (repair_OK s t E) as (_ & _ & Henc).
  split.
  - unfold mojibake. rewrite Henc. reflexivity.
  - intros s' E'. destruct (repair_OK s' t E') as (_ & _ & Henc').
    congruence.
Qed.

Lemma repair_is_inverse_of_defect_witness :
  mojibake [0x2764; 0xFE0F] = OK [226; 157; 164; 239; 184; 143]
  /\ forall s', repair s' = OK [0x2764; 0xFE0F] ->
                s' = [226; 157; 164; 239; 184; 143].
Proof.
  apply (repair_is_inverse_of_defect [226; 157; 164; 239; 184; 143]).
  reflexivity.
Defined.

Lemma rmap_OK_In {A B} (f : A -> result B) l l' y :
  rmap f l = OK l' -> In y l' -> exists x, In x l /\ f x = OK y.
Proof.
  revert l'. induction l as [| x0 r IH]; cbn [rmap]; intros l' E Hin.
  - apply OK_inj in E. subst l'. destruct Hin.
  - apply rbind_OK in E. destruct E as (y0 & Ey & E).
    apply rbind_OK in E. destruct E as (ys & Eys & E).
    apply OK_inj in E. subst l'. destruct Hin as [<- | Hin].
    + exists x0. split; [left; reflexivity | exact Ey].
    + destruct (IH ys Eys Hin) as (x & Hx & Ex).
      exists x. split; [right; exact Hx | exact Ex].
Qed.

Lemma repaired_binds s t :
  repair s = OK t -> bind_param (JStr t) = OK (SText t).
Proof.
  intros E. destruct (repair_OK s t E) as (_ & _ & Henc).
  cbn [bind_param]. rewrite Henc. reflexivity.
Qed.

(** X2: the strings that the hook leaves in an object, as members or as
    elements of list members, can all be bound as SQL text: none of them
    makes an INSERT raise an encoding error. *)
Theorem hooked_strings_bind (obj obj' : list (pystr * json)) :
  parseJsonObject obj = OK obj' ->
  forall k v t,
    In (k, v) obj' -> wide_in t v -> bind_param (JStr t) = OK (SText t).
Proof.
  unfold parseJsonObject. intros E k v t Hin Hw.
  destruct (rmap_OK_In _ _ _ _ E Hin) as ((k0 & v0) & _ & E0).
  cbn [fst snd] in E0. apply rbind_OK in E0. destruct E0 as (v1 & E1 & E0).
  apply OK_inj in E0. injection E0 as _ <-.
  destruct Hw as [-> | (l & -> & Hl)].
  - destruct v0; cbn [repair_field] in E1;
      try (apply OK_inj in E1; discriminate E1).
    + apply rbind_OK in E1. destruct E1 as (t' & Et & E1).
      apply OK_inj in E1. injection E1 as <-. apply (repaired_binds s), Et.
    + apply rbind_OK in E1. destruct E1 as (l' & _ & E1).
      apply OK_inj in E1. discriminate E1.
  - destruct v0; cbn [repair_field] in E1;
      try (apply OK_inj in E1; discriminate E1).
    + apply rbind_OK in E1. destruct E1 as (t' & _ & E1).
      apply OK_inj in E1. discriminate E1.
    + apply rbind_OK in E1. destruct E1 as (l' & El & E1).
      apply OK_inj in E1. injection E1 as <-.
      destruct (rmap_OK_In _ _ _ _ El Hl) as (x & _ & Ex).
      destruct x; cbn [repair_element] in Ex;
        try (apply OK_inj in Ex; discriminate Ex).
      apply rbind_OK in Ex. destruct Ex as (t' & Et & Ex).
      apply OK_inj in Ex. injection Ex as <-. apply (repaired_binds s), Et.
Qed.

Lemma hooked_strings_bind_witness :
  bind_param (JStr [0x1F600]) = OK (SText [0x1F600]).
Proof.
  apply (hooked_strings_bind
           [(lit "reaction", JStr [240; 159; 152; 128])]
           [(lit "reaction", JStr [0x1F600])] eq_refl
           (lit "reaction") (JStr [0x1F600])).
  - left. reflexivity.
  - left. reflexivity.
Defined.

Lemma latin_1_encode_Raise s e :
  Codec.latin_1_encode s = Raise e -> exists c, In c s /\ ~ octet c.
Proof.
  unfold Codec.latin_1_encode. induction s as [| x r IH]; cbn [rmap].
  - discriminate.
  - unfold Codec.latin_1_encode_char at 1.
    destruct ((0 <=? x) && (x <? 256)) eqn:Hx; cbn [rbind].
    + destruct (rmap Codec.latin_1_encode_char r) eqn:Er; cbn [rbind];
        [discriminate |].
      intros E. destruct (IH E) as (c & Hc & Hn).
      exists c. split; [right; exact Hc | exact Hn].
    + intros _. exists x. split; [left; reflexivity |].
      unfold octet. intros Ho.
      apply andb_false_iff in Hx. destruct Hx as [Hx | Hx].
      * apply Z.leb_gt in Hx. lia.
      * apply Z.ltb_ge in Hx. lia.
Qed.

(** X3: the two ways the repair fails.  When it raises, it raises
    [UnicodeEncodeError] and the string has a character outside Latin-1,
    or it raises [UnicodeDecodeError] and all characters are Latin-1,
    their octets not being UTF-8; it raises nothing else. *)
Theorem repair_error_kinds (s : pystr) (e : exn) :
  repair s = Raise e ->
  (e = UnicodeEncodeError /\ exists c, In c s /\ ~ octet c)
  \/ (e = UnicodeDecodeError /\ Forall octet s
      /\ Codec.utf_8_decode s = Raise UnicodeDecodeError).
Proof.
  unfold repair. destruct (Codec.latin_1_encode s) as [b |] eqn:Eb;
    cbn [rbind]; intros E.
  - right. destruct (latin_1_encode_OK s b Eb) as (-> & Hs).
    pose proof (utf_8_decode_error_bounded (List.length s) s e
                  (Nat.le_refl _) E) as ->.
    repeat split; assumption.
  - left. injection E as <-. split.
    + apply (latin_1_encode_error s), Eb.
    + apply (latin_1_encode_Raise s e0 Eb).
Qed.

Lemma repair_error_kinds_witness :
  (UnicodeDecodeError = UnicodeEncodeError
   /\ exists c, In c [0xE9] /\ ~ octet c)
  \/ (UnicodeDecodeError = UnicodeDecodeError /\ Forall octet [0xE9]
      /\ Codec.utf_8_decode [0xE9] = Raise UnicodeDecodeError).
Proof.
  apply (repair_error_kinds [0xE9] UnicodeDecodeError). reflexivity.
Defined.

Lemma utf_8_decode_lone c :
  0x80 <= c -> Codec.utf_8_decode [c] = Raise UnicodeDecodeError.
Proof.
  intros H. cbn [Codec.utf_8_decode]. split_tests; reflexivity.
Qed.

(** X4: text that is already right is not left alone.  A word of ASCII
    letters that ends in one Latin-1 letter above U+007F, such as a final
    e-acute, makes the repair raise [UnicodeDecodeError]. *)
Theorem repair_rejects_plain_latin_1 (a : pystr) (c : Z) :
  ascii_only a -> 0x80 <= c <= 0xFF ->
  repair (a ++ [c]) = Raise UnicodeDecodeError.
Proof.
  intros Ha Hc. unfold repair.
  rewrite latin_1_encode_octets.
  - cbn [rbind]. induction Ha as [| x r Hx _ IH]; cbn [app].
    + apply utf_8_decode_lone. lia.
    + rewrite decode_1 by lia. rewrite IH. reflexivity.
  - apply Forall_app. split.
    + unfold ascii_only in Ha. rewrite Forall_forall in Ha |- *.
      intros x Hx. specialize (Ha x Hx). unfold octet. lia.
    + repeat constructor; lia.
Qed.

Lemma repair_rejects_plain_latin_1_witness :
  repair (lit "caf" ++ [0xE9]) = Raise UnicodeDecodeError.
Proof.
  apply (repair_rejects_plain_latin_1 (lit "caf") 0xE9).
  - repeat constructor; cbn; lia.
  - lia.
Defined.

(** ** What the hook keeps *)

Lemma rmap_Forall2_OK {A B} (R : A -> B -> Prop) (f : A -> result B) l l' :
  (forall x y, f x = OK y -> R x y) ->
  rmap f l = OK l' -> Forall2 R l l'.
Proof.
  intros Hf. revert l'. induction l as [| x r IH]; cbn [rmap]; intros l' E.
  - apply OK_inj in E. subst l'. constructor.
  - apply rbind_OK in E. destruct E as (y & Ey & E).
    apply rbind_OK in E. destruct E as (ys & Eys & E).
    apply OK_inj in E. subst l'. constructor; [apply Hf, Ey | apply IH, Eys].
Qed.

Lemma repair_repaired s t : repair s = OK t -> repaired s t.
Proof.
  intros E. split; [exact E |].
  destruct (repair_OK s t E) as (_ & _ & Henc).
  unfold mojibake. rewrite Henc. reflexivity.
Qed.

Lemma repair_element_kept x x' :
  repair_element x = OK x' -> kept_element x x'.
Proof.
  destruct x; cbn [repair_element kept_element]; intros E;
    try (apply OK_inj in E; symmetry; exact E).
  apply rbind_OK in E. destruct E as (t & Et & E).
  apply OK_inj in E. exists t.
  split; [symmetry; exact E | apply repair_repaired, Et].
Qed.

Lemma repair_field_kept v v' :
  repair_field v = OK v' -> kept_field v v'.
Proof.
  destruct v; cbn [repair_field kept_field]; intros E;
    try (apply OK_inj in E; symmetry; exact E).
  - apply rbind_OK in E. destruct E as (t & Et & E).
    apply OK_inj in E. exists t.
    split; [symmetry; exact E | apply repair_repaired, Et].
  - apply rbind_OK in E. destruct E as (l' & El & E).
    apply OK_inj in E. exists l'. split; [symmetry; exact E |].
    apply (rmap_Forall2_OK kept_element repair_element l l'
             repair_element_kept El).
Qed.

Lemma parseJsonObject_keys obj obj' :
  parseJsonObject obj = OK obj' -> map fst obj' = map fst obj.
Proof.
  unfold parseJsonObject. revert obj'.
  induction obj as [| [k v] r IH]; cbn [rmap]; intros obj' E.
  - apply OK_inj in E. subst obj'. reflexivity.
  - apply rbind_OK in E. destruct E as (kv & Ekv & E).
    apply rbind_OK in E. destruct E as (ys & Eys & E).
    apply OK_inj in E. subst obj'. cbn [fst snd] in Ekv.
    apply rbind_OK in Ekv. destruct Ekv as (v' & _ & Ekv).
    apply OK_inj in Ekv. subst kv. cbn [map fst]. f_equal.
    apply IH, Eys.
Qed.

(** X5: the hook keeps the shape of an object and repairs its strings.
    The keys and their order stay; a string member becomes its repair,
    the text whose export defect it is; a list member becomes a list of
    the same length in which every string element is repaired in the
    same way; numbers, booleans, nulls and nested objects are returned as
    they are, and so is every list element that is not a string, lists
    inside lists with the strings in them included. *)
Theorem parseJsonObject_keeps_shape (obj obj' : list (pystr * json)) :
  parseJsonObject obj = OK obj' ->
  map fst obj' = map fst obj
  /\ Forall2 (fun kv kv' => kept_field (snd kv) (snd kv')) obj obj'.
Proof.
  intros E. split; [apply parseJsonObject_keys, E |].
  unfold parseJsonObject in E.
  refine (rmap_Forall2_OK
            (fun kv kv' => kept_field (snd kv) (snd kv')) _ obj obj' _ E).
  intros kv kv' E0.
  apply rbind_OK in E0. destruct E0 as (v' & Ev & E0).
  apply OK_inj in E0. subst kv'. cbn [snd].
  apply repair_field_kept, Ev.
Qed.

Lemma parseJsonObject_keeps_shape_witness :
  map fst [(lit "tags", JList [JStr [0xE9]; JList [JStr [195; 169]]]);
           (lit "n", JInt 1)]
  = map fst [(lit "tags", JList [JStr [195; 169]; JList [JStr [195; 169]]]);
             (lit "n", JInt 1)]
  /\ Forall2 (fun kv kv' => kept_field (snd kv) (snd kv'))
       [(lit "tags", JList [JStr [195; 169]; JList [JStr [195; 169]]]);
        (lit "n", JInt 1)]
       [(lit "tags", JList [JStr [0xE9]; JList [JStr [195; 169]]]);
        (lit "n", JInt 1)].
Proof.
  apply (parseJsonObject_keeps_shape
           [(lit "tags", JList [JStr [195; 169]; JList [JStr [195; 169]]]);
            (lit "n", JInt 1)]).
  reflexivity.
Defined.

(** ** Loading a whole tree *)

Lemma rmap_id {A} (f : A -> result A) l :
  Forall (fun x => f x = OK x) l -> rmap f l = OK l.
Proof.
  induction 1 as [| x r Hx _ IH]; cbn [rmap]; [reflexivity |].
  rewrite Hx. cbn [rbind]. rewrite IH. reflexivity.
Qed.

Lemma repair_element_ascii x : ascii_tree x -> repair_element x = OK x.
Proof.
  intros []; cbn [repair_element]; try reflexivity.
  rewrite repair_ascii by assumption. reflexivity.
Qed.

Lemma repair_field_ascii v : ascii_tree v -> repair_field v = OK v.
Proof.
  intros [| | | s Hs | l Hl | o Ho]; cbn [repair_field]; try reflexivity.
  - rewrite repair_ascii by assumption. reflexivity.
  - rewrite rmap_id; [reflexivity |].
    rewrite Forall_forall in Hl |- *. intros x Hx.
    apply repair_element_ascii, Hl, Hx.
Qed.

(** X6: loading a tree in which every string value is ASCII returns the
    tree as it is, at any depth of nesting. *)
Theorem loadJson_ascii_tree (doc : json) :
  ascii_tree doc -> loadJson doc = OK doc.
Proof.
  unfold loadJson.
  induction doc as [| b | z | s | l IH | o IH] using json_nested_ind;
    intros H; try reflexivity.
  - inversion H as [| | | | l0 Hl |]. subst.
    rewrite object_hook_list, rmap_id; [reflexivity |].
    rewrite Forall_forall in IH, Hl |- *. intros x Hx.
    apply (IH x Hx), Hl, Hx.
  - inversion H as [| | | | | o0 Ho]. subst.
    rewrite object_hook_obj, rmap_id.
    + cbn [rbind]. unfold parseJsonObject. rewrite rmap_id; [reflexivity |].
      rewrite Forall_forall in Ho |- *. intros [k v] Hkv.
      cbn [fst snd]. rewrite repair_field_ascii; [reflexivity |].
      apply (Ho (k, v) Hkv).
    + rewrite Forall_forall in IH, Ho |- *. intros [k v] Hkv.
      unfold hook_member. cbn [fst snd].
      pose proof (IH (k, v) Hkv (Ho (k, v) Hkv)) as Hv.
      cbn [snd] in Hv. rewrite Hv. reflexivity.
Qed.

Lemma loadJson_ascii_tree_witness :
  loadJson (JObj [(lit "a", JList [JObj [(lit "b", JStr (lit "hi"))]])])
  = OK (JObj [(lit "a", JList [JObj [(lit "b", JStr (lit "hi"))]])]).
Proof.
  apply loadJson_ascii_tree.
  repeat (constructor; cbn; try lia).
Defined.

(** X7: loading a tree raises nothing but the two encoding errors, and
    when it returns, the result is an object exactly when the tree is
    one, a list exactly when it is a list, and the same value when it is
    a number, a string, a boolean or null. *)
Theorem loadJson_outcomes (doc : json) :
  (forall e, loadJson doc = Raise e -> encoding_error e)
  /\ (forall doc', loadJson doc = OK doc' ->
        match doc with
        | JObj o => exists o', doc' = JObj o' /\ map fst o' = map fst o
        | JList l => exists l', doc' = JList l'
                                /\ List.length l' = List.length l
        | _ => doc' = doc
        end).
Proof.
  unfold loadJson. split.
  - intros e. apply object_hook_error.
  - intros doc'. destruct doc as [| b | z | s | l | o];
      try (cbn [object_hook]; intros E; apply OK_inj in E; symmetry;
           exact E).
    + rewrite object_hook_list. intros E.
      apply rbind_OK in E. destruct E as (l' & El & E).
      apply OK_inj in E. exists l'. split; [symmetry; exact E |].
      apply (rmap_Forall2_OK (fun _ _ => True)) in El; [| trivial].
      symmetry. apply (Forall2_length El).
    + rewrite object_hook_obj. intros E.
      apply rbind_OK in E. destruct E as (o1 & Eo1 & E).
      apply rbind_OK in E. destruct E as (o2 & Eo2 & E).
      apply OK_inj in E. exists o2. split; [symmetry; exact E |].
      rewrite (parseJsonObject_keys o1 o2 Eo2).
      apply (rmap_Forall2_OK (fun kv kv' => fst kv' = fst kv)) in Eo1.
      * clear -Eo1. induction Eo1 as [| x y l l' Hxy _ IH]; cbn [map];
          [reflexivity | rewrite Hxy, IH; reflexivity].
      * intros [k v] kv' E0. unfold hook_member in E0. cbn [fst snd] in E0.
        apply rbind_OK in E0. destruct E0 as (y & _ & E0).
        apply OK_inj in E0. subst kv'. reflexivity.
Qed.

(** ** Merging chunks: the roster, the errors, the success *)

Lemma dict_find_store_same {V} k (v : V) d :
  hashable k = true -> dict_find k (dict_store k v d) = Some v.
Proof.
  intros Hk. induction d as [| [k0 v0] r IH]; cbn [dict_store dict_find].
  - rewrite (py_eqb_refl k Hk). reflexivity.
  - destruct (py_eqb k0 k) eqn:E; cbn [dict_find]; rewrite E;
      [reflexivity | exact IH].
Qed.

Lemma dict_store_values {V} (P : V -> Prop) k v (d : list (json * V)) :
  P v -> Forall (fun e => P (snd e)) d ->
  Forall (fun e => P (snd e)) (dict_store k v d).
Proof.
  intros Hv. induction 1 as [| [k0 v0] r H0 Hr IH]; cbn [dict_store].
  - repeat constructor. exact Hv.
  - destruct (py_eqb k0 k); constructor; assumption.
Qed.

Lemma dict_store_present {V} k (v : V) d k' :
  dict_find k' d <> None -> dict_find k' (dict_store k v d) <> None.
Proof.
  induction d as [| [k0 v0] r IH]; cbn [dict_find dict_store];
    [intros H; destruct H; reflexivity |].
  destruct (py_eqb k0 k) eqn:E; cbn [dict_find].
  - destruct (py_eqb k0 k'); [discriminate | auto].
  - destruct (py_eqb k0 k'); [discriminate | exact IH].
Qed.

Lemma register_unset ps :
  forall d d',
    Conversation.register ps d = OK d' ->
    Forall (fun e => snd e = None) d ->
    Forall (fun e => snd e = None) d'
    /\ (forall name, dict_find name d <> None -> dict_find name d' <> None)
    /\ (forall q, In q ps ->
          exists name, py_getitem q (lit "name") = OK name
                       /\ dict_find name d' <> None).
Proof.
  induction ps as [| q r IH]; intros d d' E Hd; cbn [Conversation.register] in E.
  - apply OK_inj in E. subst d'. repeat split; auto. intros q [].
  - apply rbind_OK in E. destruct E as (name & Ename & E).
    apply rbind_OK in E. destruct E as (d1 & E1 & E).
    unfold dict_set in E1. destruct (hashable name) eqn:Hh;
      [| discriminate E1].
    apply OK_inj in E1. subst d1.
    destruct (IH _ d' E (dict_store_values (fun v => v = None) name None d
                           eq_refl Hd)) as (Hnone & Hkeep & Hnew).
    split; [exact Hnone |]. split.
    + intros k Hk. apply Hkeep, dict_store_present, Hk.
    + intros q' [<- | Hq'].
      * exists name. split; [exact Ename |]. apply Hkeep.
        rewrite (dict_find_store_same name None d Hh). discriminate.
      * apply Hnew, Hq'.
Qed.

Lemma Forall_unset_find d name :
  Forall (fun e : json * option Z => snd e = None) d ->
  dict_find name d <> None -> dict_find name d = Some None.
Proof.
  intros Hd Hf. destruct (dict_find name d) as [v |] eqn:E;
    [| destruct Hf; reflexivity].
  destruct (dict_find_In _ _ _ E) as (k' & Hin).
  rewrite Forall_forall in Hd. specialize (Hd _ Hin). cbn in Hd.
  subst v. reflexivity.
Qed.

Lemma loadMessages_first self doc self' :
  Conversation.metadata self = [] ->
  Conversation.loadMessages self doc = OK self' ->
  exists ps,
    roster_records doc = OK ps
    /\ Conversation.register ps (Conversation.participants self)
       = OK (Conversation.participants self')
    /\ Conversation.directory self' = Conversation.directory self
    /\ Conversation.id self' = Conversation.id self.
Proof.
  unfold Conversation.loadMessages, roster_records. intros Hm E.
  apply rbind_OK in E. destruct E as (title & _ & E).
  apply rbind_OK in E. destruct E as (thread_type & _ & E).
  apply rbind_OK in E. destruct E as (thread_path & _ & E).
  apply rbind_OK in E. destruct E as (self1 & E1 & E).
  apply rbind_OK in E. destruct E as (msgs & _ & E).
  apply rbind_OK in E. destruct E as (more & _ & E).
  apply OK_inj in E. subst self'. rewrite Hm in E1.
  apply rbind_OK in E1. destruct E1 as (roster & Er & E1).
  apply rbind_OK in E1. destruct E1 as (ps & Eps & E1).
  apply rbind_OK in E1. destruct E1 as (d & Ed & E1).
  apply OK_inj in E1. subst self1.
  cbn [Conversation.participants Conversation.directory Conversation.id].
  exists ps. rewrite Er. cbn [rbind]. repeat split; assumption.
Qed.

Lemma loadMessages_later self doc self' :
  Conversation.metadata self <> [] ->
  Conversation.loadMessages self doc = OK self' ->
  Conversation.participants self' = Conversation.participants self
  /\ Conversation.metadata self' = Conversation.metadata self
  /\ Conversation.directory self' = Conversation.directory self
  /\ Conversation.id self' = Conversation.id self.
Proof.
  intros Hm E. destruct (loadMessages_inv self doc self' E)
    as (m & more & self1 & _ & _ & _ & _ & _ & Hnext & ->).
  destruct (Hnext Hm) as (-> & _). cbn. repeat split.
Qed.

Lemma loadAll_later docs :
  forall self self',
    Conversation.metadata self <> [] ->
    Conversation.loadAll self docs = OK self' ->
    Conversation.participants self' = Conversation.participants self
    /\ Conversation.metadata self' = Conversation.metadata self
    /\ Conversation.directory self' = Conversation.directory self
    /\ Conversation.id self' = Conversation.id self.
Proof.
  induction docs as [| d r IH]; intros self self' Hm;
    cbn [Conversation.loadAll]; intros E.
  - apply OK_inj in E. subst self'. repeat split.
  - apply rbind_OK in E. destruct E as (self1 & E1 & E).
    destruct (loadMessages_later self d self1 Hm E1) as (Hp & Hmd & Hd & Hi).
    destruct (IH self1 self') as (Hp' & Hmd' & Hd' & Hi');
      [rewrite Hmd; exact Hm | exact E |].
    repeat split; congruence.
Qed.

(** X8: the roster of a conversation is the roster of its first chunk,
    and nothing in it has an id yet.  After the chunks of a directory are
    merged into a new conversation, the participant dict is what
    registering the first chunk's roster builds, every value in it is
    [None], every name of that roster is a key, and the metadata is that
    of the first chunk; the rosters of the later chunks are not read. *)
Theorem loadAll_registers_first_roster
    (directory : pystr) (first : json) (rest : list json)
    (self' : Conversation.t) :
  Conversation.loadAll (Conversation.init directory) (first :: rest)
  = OK self' ->
  exists ps,
    roster_records first = OK ps
    /\ Conversation.register ps [] = OK (Conversation.participants self')
    /\ Forall (fun e => snd e = None) (Conversation.participants self')
    /\ (forall q, In q ps ->
          exists name,
            py_getitem q (lit "name") = OK name
            /\ dict_find name (Conversation.participants self') = Some None)
    /\ chunk_metadata first = OK (Conversation.metadata self')
    /\ Conversation.directory self' = directory
    /\ Conversation.id self' = 0.
Proof.
  cbn [Conversation.loadAll]. intros E.
  apply rbind_OK in E. destruct E as (self1 & E1 & E).
  destruct (loadMessages_first (Conversation.init directory) first self1
              eq_refl E1)
    as (ps & Eps & Ereg & Hdir & Hid).
  destruct (loadMessages_metadata (Conversation.init directory) first self1
              E1) as (Hset & Hmeta & _).
  destruct (loadAll_later rest self1 self' Hset E) as (Hp & Hmd & Hd & Hi).
  cbn in Ereg, Hdir, Hid.
  destruct (register_unset ps [] _ Ereg (Forall_nil _))
    as (Hnone & _ & Hnew).
  exists ps. rewrite Hp, Hmd, Hd, Hi.
  split; [exact Eps |]. split; [exact Ereg |]. split; [exact Hnone |].
  split.
  - intros q Hq. destruct (Hnew q Hq) as (name & Ename & Hfind).
    exists name. split; [exact Ename |].
    apply Forall_unset_find; assumption.
  - split; [apply Hmeta; reflexivity |]. split; assumption.
Qed.

Lemma loadAll_registers_first_roster_witness :
  exists ps,
    roster_records loaded_1 = OK ps
    /\ Conversation.register ps [] = OK (Conversation.participants trip)
    /\ Forall (fun e => snd e = None) (Conversation.participants trip)
    /\ (forall q, In q ps ->
          exists name,
            py_getitem q (lit "name") = OK name
            /\ dict_find name (Conversation.participants trip) = Some None)
    /\ chunk_metadata loaded_1 = OK (Conversation.metadata trip)
    /\ Conversation.directory trip = trip_dir
    /\ Conversation.id trip = 0.
Proof.
  apply (loadAll_registers_first_roster trip_dir loaded_1 [loaded_2] trip).
  vm_compute. reflexivity.
Defined.

(** X9: what [loadMessages] raises on a chunk that is not of the right
    form.  A chunk that is not an object raises [TypeError]; an object
    without a title, a thread type or a thread path raises [KeyError];
    and so does, for a conversation that has no metadata yet, an object
    that has those three but no roster. *)
Theorem loadMessages_malformed_chunk (self : Conversation.t) (doc : json) :
  ((forall o, doc <> JObj o) ->
   Conversation.loadMessages self doc = Raise TypeError)
  /\ (forall o, doc = JObj o ->
        assoc (lit "title") o = None
        \/ assoc (lit "thread_type") o = None
        \/ assoc (lit "thread_path") o = None ->
        Conversation.loadMessages self doc = Raise KeyError)
  /\ (forall o m, doc = JObj o ->
        chunk_metadata doc = OK m ->
        Conversation.metadata self = [] ->
        assoc (lit "participants") o = None ->
        Conversation.loadMessages self doc = Raise KeyError).
Proof.
  split; [| split].
  - intros Hn. unfold Conversation.loadMessages.
    destruct doc; try reflexivity. destruct (Hn o eq_refl).
  - intros o -> H. unfold Conversation.loadMessages. cbn [py_getitem].
    destruct (assoc (lit "title") o); [| reflexivity].
    destruct (assoc (lit "thread_type") o); [| reflexivity].
    destruct (assoc (lit "thread_path") o); [| reflexivity].
    destruct H as [H | [H | H]]; discriminate H.
  - intros o m -> Em Hmd Hp. unfold chunk_metadata in Em.
    unfold Conversation.loadMessages.
    apply rbind_OK in Em. destruct Em as (a & -> & Em).
    apply rbind_OK in Em. destruct Em as (b & -> & Em).
    apply rbind_OK in Em. destruct Em as (c & -> & _).
    cbn [rbind]. rewrite Hmd. cbn [py_getitem]. rewrite Hp. reflexivity.
Qed.

Lemma register_schema ps :
  forall d,
    Forall (fun q => exists name,
              py_getitem q (lit "name") = OK (JStr name)) ps ->
    exists d', Conversation.register ps d = OK d'.
Proof.
  induction ps as [| q r IH]; intros d H; cbn [Conversation.register].
  - eauto.
  - inversion H as [| ? ? (name & Ename) Hr]. subst.
    rewrite Ename. cbn [rbind dict_set hashable]. apply IH, Hr.
Qed.

Lemma loadMessages_schema t y p self doc :
  schema_chunk t y p doc ->
  Conversation.metadata self = []
  \/ Conversation.metadata self = metadata_dict (JStr t) (JStr y) (JStr p) ->
  exists self',
    Conversation.loadMessages self doc = OK self'
    /\ Conversation.metadata self'
       = metadata_dict (JStr t) (JStr y) (JStr p).
Proof.
  intros (o & ps & ms & -> & Et & Ey & Ep & Eps & Hps & Ems) Hmd.
  unfold Conversation.loadMessages. cbn [py_getitem].
  rewrite Et, Ey, Ep. cbn [rbind].
  fold (metadata_dict (JStr t) (JStr y) (JStr p)).
  destruct Hmd as [Hmd | Hmd]; rewrite Hmd.
  - rewrite Eps. cbn [rbind py_iter].
    destruct (register_schema ps (Conversation.participants self) Hps)
      as (d & Ed).
    rewrite Ed. cbn [rbind]. rewrite Ems. cbn [rbind py_iter].
    eexists. split; reflexivity.
  - unfold metadata_dict at 1.
    fold (metadata_dict (JStr t) (JStr y) (JStr p)).
    fold (same_metadata (metadata_dict (JStr t) (JStr y) (JStr p))
            (metadata_dict (JStr t) (JStr y) (JStr p))).
    rewrite (proj2 (same_metadata_strings t y p t y p) eq_refl).
    cbn [rbind]. rewrite Ems. cbn [rbind py_iter].
    eexists. split; [reflexivity |]. cbn. exact Hmd.
Qed.

(** X10: chunks of the export's schema that carry the same title, type
    and path always merge: from a new conversation, whatever their number,
    rosters and messages, no chunk raises, and the conversation ends with
    their messages in chunk order. *)
Theorem loadAll_merges_schema_chunks
    (t y p directory : pystr) (docs : list json) :
  Forall (schema_chunk t y p) docs ->
  exists self',
    Conversation.loadAll (Conversation.init directory) docs = OK self'
    /\ Conversation.messages self' = List.concat (map messages_of docs)
    /\ (docs <> [] ->
        Conversation.metadata self'
        = metadata_dict (JStr t) (JStr y) (JStr p)).
Proof.
  intros H.
  assert (G : forall self,
             Conversation.metadata self = []
             \/ Conversation.metadata self
                = metadata_dict (JStr t) (JStr y) (JStr p) ->
             exists self',
               Conversation.loadAll self docs = OK self'
               /\ Conversation.messages self'
                  = Conversation.messages self
                    ++ List.concat (map messages_of docs)
               /\ (docs <> [] ->
                   Conversation.metadata self'
                   = metadata_dict (JStr t) (JStr y) (JStr p))).
  { induction H as [| d r Hd _ IH]; intros self Hmd;
      cbn [Conversation.loadAll].
    - exists self. split; [reflexivity |]. split.
      + cbn. symmetry. apply app_nil_r.
      + intros Hn. destruct Hn. reflexivity.
    - destruct (loadMessages_schema t y p self d Hd Hmd) as (self1 & E1 & M1).
      rewrite E1. cbn [rbind].
      destruct (IH self1 (or_intror M1)) as (self' & E & Hmsgs & Hmeta).
      exists self'. split; [exact E |]. split.
      + rewrite Hmsgs. destruct (loadMessages_messages self d self1 E1)
          as (-> & _).
        cbn [map List.concat]. rewrite app_assoc. reflexivity.
      + intros _. destruct r as [| d' r'].
        * cbn [Conversation.loadAll] in E. apply OK_inj in E. subst self'.
          exact M1.
        * apply Hmeta. discriminate. }
  apply (G (Conversation.init directory)). left. reflexivity.
Qed.

Lemma loadAll_merges_schema_chunks_witness :
  exists self',
    Conversation.loadAll (Conversation.init trip_dir) [loaded_1; loaded_2]
    = OK self'
    /\ Conversation.messages self'
       = List.concat (map messages_of [loaded_1; loaded_2])
    /\ ([loaded_1; loaded_2] <> [] ->
        Conversation.metadata self'
        = metadata_dict (JStr (lit "Trip")) (JStr (lit "RegularGroup"))
            (JStr (lit "inbox/trip_1"))).
Proof.
  apply (loadAll_merges_schema_chunks (lit "Trip") (lit "RegularGroup")
           (lit "inbox/trip_1") trip_dir [loaded_1; loaded_2]).
  repeat constructor;
    (eexists; eexists; eexists; split; [vm_compute; reflexivity |];
     repeat (split; [vm_compute; reflexivity |]);
     split; [| vm_compute; reflexivity];
     repeat constructor; eexists; vm_compute; reflexivity).
Defined.

(** ** Saving: what raises before anything is written *)

(** A conversation into which no chunk was merged cannot be saved: its
    metadata dict is empty, so [save] raises [KeyError] at the title,
    before any statement runs, and leaves the connection as it was. *)
Lemma save_without_metadata
    (accepts : table -> list row -> list sqlval -> bool)
    (item : Conversation.t) (c : conn) :
  Conversation.metadata item = [] ->
  Database.save accepts item c = (Raise KeyError, c).
Proof.
  intros Hm. unfold Database.save, Database._saveConversation, bind, get.
  cbn [Database.conversation]. rewrite Hm. reflexivity.
Qed.

Lemma get_or_none_object o k :
  Database.get_or_none (JObj o) k
  = OK (match assoc k o with Some x => x | None => JNull end).
Proof.
  unfold Database.get_or_none, py_contains, py_getitem.
  destruct (assoc k o); reflexivity.
Qed.

(** X11: a message record is checked before it is written.  For a record
    that is an object, [_saveMessage] raises [KeyError] when the record
    has no [timestamp_ms], [TypeError] when its [timestamp_ms] is null, a
    string, a list or an object, and [KeyError] when the timestamp is an
    integer and the record has no [sender_name]; each time the database,
    its open transaction and the participant dict are as they were. *)
Theorem saveMessage_raises_before_writing
    (accepts : table -> list row -> list sqlval -> bool)
    (o : list (pystr * json)) (w : Database.world) (e : exn) :
  refused o e ->
  Database._saveMessage accepts (JObj o) w = (Raise e, w).
Proof.
  intros H. unfold Database._saveMessage, bind, lift.
  rewrite get_or_none_object. unfold py_getitem.
  destruct H as [Hts | v Hts Hv | z Hts Hsn]; rewrite Hts.
  - reflexivity.
  - destruct v; cbn [indivisible] in Hv; try destruct Hv; reflexivity.
  - cbn [py_floordiv]. rewrite Hsn. reflexivity.
Qed.

Lemma saveMessage_raises_before_writing_witness :
  Database._saveMessage accept_all
    (JObj [(lit "sender_name", JStr (lit "Alice"));
           (lit "timestamp_ms", JStr (lit "1500000001999"))]) trip_world
  = (Raise TypeError, trip_world).
Proof.
  apply (saveMessage_raises_before_writing accept_all
           [(lit "sender_name", JStr (lit "Alice"));
            (lit "timestamp_ms", JStr (lit "1500000001999"))]
           trip_world TypeError).
  apply (refused_timestamp _ (JStr (lit "1500000001999")));
    [reflexivity | exact I].
Defined.

(** ** The rows of one message *)

Section MessageRows.

Variable accepts : table -> list row -> list sqlval -> bool.

Lemma for_each_in_inv item k body w w' :
  Database.for_each_in item k body w = (OK tt, w') ->
  (py_contains k item = OK false /\ w' = w)
  \/ (exists v xs,
        py_contains k item = OK true
        /\ py_getitem item k = OK v /\ py_iter v = OK xs
        /\ for_each xs body w = (OK tt, w')).
Proof.
  unfold Database.for_each_in. intros E.
  apply bind_OK in E. destruct E as (present & s & E1 & E).
  apply lift_OK in E1. destruct E1 as (Ep & ->). destruct present.
  - right. apply bind_OK in E. destruct E as (v & s & E1 & E).
    apply lift_OK in E1. destruct E1 as (Ev & ->).
    apply bind_OK in E. destruct E as (xs & s & E1 & E).
    apply lift_OK in E1. destruct E1 as (Exs & ->).
    exists v, xs. repeat split; assumption.
  - left. apply ret_OK in E. destruct E as (_ & ->). split; auto.
Qed.

Lemma when_in_inv item k body w w' :
  Database.when_in item k body w = (OK tt, w') ->
  (py_contains k item = OK false /\ w' = w)
  \/ (exists v,
        py_contains k item = OK true
        /\ py_getitem item k = OK v /\ body v w = (OK tt, w')).
Proof.
  unfold Database.when_in. intros E.
  apply bind_OK in E. destruct E as (present & s & E1 & E).
  apply lift_OK in E1. destruct E1 as (Ep & ->). destruct present.
  - right. apply bind_OK in E. destruct E as (v & s & E1 & E).
    apply lift_OK in E1. destruct E1 as (Ev & ->).
    exists v. repeat split; assumption.
  - left. apply ret_OK in E. destruct E as (_ & ->). split; auto.
Qed.

Lemma save_share_and_sticker_inv item message_id w w' :
  save_share_and_sticker accepts item message_id w = (OK tt, w') ->
  exists w5,
    Database.when_in item (lit "share")
      (Database._saveShare accepts message_id) w = (OK tt, w5)
    /\ Database.when_in item (lit "sticker")
         (Database._saveSticker accepts message_id) w5 = (OK tt, w').
Proof.
  unfold save_share_and_sticker. intros E.
  apply bind_OK in E. destruct E as ([] & w5 & E1 & E).
  exists w5. split; assumption.
Qed.

(** The states that [_saveMessage] goes through, and what each step
    leaves alone. *)
Lemma saveMessage_steps item w message_id w' :
  Database._saveMessage accepts item w = (OK message_id, w') ->
  exists w2 w3 w4 w5,
    save_reactions accepts item message_id w2 = (OK tt, w3)
    /\ for_each Database.attachements
         (save_attachements_of accepts item message_id) w3 = (OK tt, w4)
    /\ Database.when_in item (lit "share")
         (Database._saveShare accepts message_id) w4 = (OK tt, w5)
    /\ Database.when_in item (lit "sticker")
         (Database._saveSticker accepts message_id) w5 = (OK tt, w')
    /\ (forall t, t <> participants -> t <> messages ->
          working (Database.db w2) t = working (Database.db w) t)
    /\ (forall t, t <> participants -> t <> reactions ->
          working (Database.db w3) t = working (Database.db w2) t)
    /\ (forall t, ~ In t Database.attachements ->
          working (Database.db w4) t = working (Database.db w3) t)
    /\ (forall t, t <> shares ->
          working (Database.db w5) t = working (Database.db w4) t)
    /\ (forall t, t <> stickers ->
          working (Database.db w') t = working (Database.db w5) t)
    /\ extends (names_of w3) (names_of w').
Proof.
  intros E.
  destruct (saveMessage_inv accepts item w message_id w' E)
    as (content & timestamp_ms & epoch & sender_name & sender_id & type
        & w1 & w2 & w3 & w4
        & _ & _ & _ & _ & Eid & _ & Eins & Er & Ea & Es).
  destruct (save_share_and_sticker_inv item message_id w4 w' Es)
    as (w5 & Eshare & Esticker).
  exists w2, w3, w4, w5. repeat (split; [assumption |]).
  destruct (writes_run _ _ _ _ _
              (writes_getParticipantId accepts sender_name) Eid)
    as (_ & H1 & _).
  destruct (writes_run _ _ _ _ _ (writes_insert accepts messages _) Eins)
    as (_ & H2 & _).
  destruct (writes_run _ _ _ _ _
              (writes_save_reactions accepts item message_id) Er)
    as (_ & H3 & _).
  assert (H4 : same_outside Database.attachements w3 w4).
  { refine (writes_run Database.attachements _ _ _ _ _ Ea).
    intros w0. apply stable_for_each. intros t Ht.
    apply (writes_weaken [t] Database.attachements).
    - intros t' [<- | []]. exact Ht.
    - apply writes_save_attachements_of. }
  destruct H4 as (_ & H4 & _).
  assert (H5 : same_outside [shares] w4 w5).
  { refine (writes_run [shares] _ _ _ _ _ Eshare).
    intros w0. unfold Database.when_in, Database._saveShare. stable_auto. }
  destruct H5 as (_ & H5 & _).
  assert (H6 : same_outside [stickers] w5 w').
  { refine (writes_run [stickers] _ _ _ _ _ Esticker).
    intros w0. unfold Database.when_in, Database._saveSticker. stable_auto. }
  destruct H6 as (_ & H6 & _).
  split.
  { intros t Hp Hm. rewrite H2, H1; [reflexivity | |];
      intros [Heq | []]; congruence. }
  split.
  { intros t Hp Hr. apply H3. intros [Heq | [Heq | []]]; congruence. }
  split; [exact H4 |].
  split.
  { intros t Hs. apply H5. intros [Heq | []]; congruence. }
  split.
  { intros t Hs. apply H6. intros [Heq | []]; congruence. }
  apply (extends_trans _ (names_of w4)).
  - apply (save_attachements_extends accepts (names_of w3) item message_id
             w3 (OK tt) w4 (extends_refl _) Ea).
  - apply (save_share_and_sticker_extends accepts (names_of w4) item
             message_id w4 (OK tt) w' (extends_refl _) Es).
Qed.

Lemma bind_param_str u v : bind_param (JStr u) = OK v -> v = SText u.
Proof.
  cbn [bind_param]. intros E. apply rbind_OK in E.
  destruct E as (b & _ & E). apply OK_inj in E. auto.
Qed.

Lemma saveSticker_row message_id sticker w w' :
  Database._saveSticker accepts message_id sticker w = (OK tt, w') ->
  exists uri v key,
    py_getitem sticker (lit "uri") = OK uri
    /\ bind_param uri = OK v
    /\ working (Database.db w') stickers
       = working (Database.db w) stickers
         ++ [mkrow key [SInt message_id; v]].
Proof.
  unfold Database._saveSticker. intros E.
  apply bind_OK in E. destruct E as (uri & s & E1 & E).
  apply lift_OK in E1. destruct E1 as (Euri & ->).
  apply bind_OK in E. destruct E as (key & w1 & Eins & E).
  apply ret_OK in E. destruct E as (_ & ->).
  destruct (insert_OK accepts _ _ _ _ _ Eins) as (vals & Ev & _ & Hrows & _).
  cbn [rmap] in Ev.
  apply rbind_OK in Ev. destruct Ev as (v0 & E0 & Ev).
  apply rbind_OK in Ev. destruct Ev as (vs & E1 & Ev).
  apply OK_inj in Ev. subst vals.
  apply bind_param_int in E0. subst v0.
  apply rbind_OK in E1. destruct E1 as (v1 & E1 & Evs).
  apply OK_inj in Evs. subst vs.
  exists uri, v1, key. repeat split; assumption.
Qed.

Lemma get_or_none_optional o k j v :
  Database.get_or_none (JObj o) k = OK j -> bind_param j = OK v ->
  optional_column (assoc k o) v.
Proof.
  unfold Database.get_or_none, optional_column. cbn [py_contains py_getitem].
  destruct (assoc k o) as [x |]; cbn [rbind]; intros E Ev.
  - apply OK_inj in E. subst j. exact Ev.
  - apply OK_inj in E. subst j. cbn in Ev. apply OK_inj in Ev. auto.
Qed.

Lemma saveShare_row message_id share w w' :
  Database._saveShare accepts message_id share w = (OK tt, w') ->
  exists link share_text vl vt key,
    Database.get_or_none share (lit "link") = OK link
    /\ Database.get_or_none share (lit "share_text") = OK share_text
    /\ bind_param link = OK vl /\ bind_param share_text = OK vt
    /\ working (Database.db w') shares
       = working (Database.db w) shares
         ++ [mkrow key [SInt message_id; vl; vt]].
Proof.
  unfold Database._saveShare. intros E.
  apply bind_OK in E. destruct E as (link & s & E1 & E).
  apply lift_OK in E1. destruct E1 as (El & ->).
  apply bind_OK in E. destruct E as (share_text & s & E1 & E).
  apply lift_OK in E1. destruct E1 as (Et & ->).
  apply bind_OK in E. destruct E as (key & w1 & Eins & E).
  apply ret_OK in E. destruct E as (_ & ->).
  destruct (insert_OK accepts _ _ _ _ _ Eins) as (vals & Ev & _ & Hrows & _).
  cbn [rmap] in Ev.
  apply rbind_OK in Ev. destruct Ev as (v0 & E0 & Ev).
  apply rbind_OK in Ev. destruct Ev as (vs & E1 & Ev).
  apply OK_inj in Ev. subst vals.
  apply bind_param_int in E0. subst v0.
  apply rbind_OK in E1. destruct E1 as (vl & Evl & E1).
  apply rbind_OK in E1. destruct E1 as (vs' & E2 & E1).
  apply OK_inj in E1. subst vs.
  apply rbind_OK in E2. destruct E2 as (vt & Evt & E2).
  apply OK_inj in E2. subst vs'.
  exists link, share_text, vl, vt, key. repeat split; assumption.
Qed.

End MessageRows.

(** X12: a sticker is stored with its whole URI.  When a saved message
    record has a [sticker], the table [stickers] gains exactly one row,
    with the id of the message and the sticker's [uri] as it is, not its
    last segment; when the record has none, the table is not written. *)
Theorem saveMessage_stores_sticker
    (accepts : table -> list row -> list sqlval -> bool)
    (item : json) (w : Database.world) (message_id : Z)
    (w' : Database.world) :
  Database._saveMessage accepts item w = (OK message_id, w') ->
  (py_contains (lit "sticker") item = OK false
   /\ working (Database.db w') stickers = working (Database.db w) stickers)
  \/ (exists sticker uri v key,
        py_getitem item (lit "sticker") = OK sticker
        /\ py_getitem sticker (lit "uri") = OK uri
        /\ bind_param uri = OK v
        /\ (forall u, uri = JStr u -> v = SText u)
        /\ working (Database.db w') stickers
           = working (Database.db w) stickers
             ++ [mkrow key [SInt message_id; v]]).
Proof.
  intros E. destruct (saveMessage_steps accepts item w message_id w' E)
    as (w2 & w3 & w4 & w5 & _ & _ & _ & Esticker
        & H2 & H3 & H4 & H5 & _ & _).
  assert (Hsame : working (Database.db w5) stickers
                  = working (Database.db w) stickers).
  { rewrite H5, H4, H3, H2; try reflexivity; try discriminate.
    unfold Database.attachements. cbn. intuition discriminate. }
  destruct (when_in_inv _ _ _ _ _ Esticker)
    as [(Hno & ->) | (sticker & _ & Es & Ebody)].
  - left. split; assumption.
  - right. destruct (saveSticker_row accepts _ _ _ _ Ebody)
      as (uri & v & key & Euri & Ev & Hrows).
    exists sticker, uri, v, key. repeat (split; [assumption |]). split.
    + intros u ->. apply (bind_param_str u v Ev).
    + rewrite Hrows, Hsame. reflexivity.
Qed.

(** X13: a share is stored with NULL for what it lacks.  When a saved
    message record has a [share], the table [shares] gains exactly one
    row with the id of the message, the link and the text; for a share
    that is an object, a column is NULL when the object has no such
    member.  When the record has no [share], the table is not written. *)
Theorem saveMessage_stores_share
    (accepts : table -> list row -> list sqlval -> bool)
    (item : json) (w : Database.world) (message_id : Z)
    (w' : Database.world) :
  Database._saveMessage accepts item w = (OK message_id, w') ->
  (py_contains (lit "share") item = OK false
   /\ working (Database.db w') shares = working (Database.db w) shares)
  \/ (exists share vl vt key,
        py_getitem item (lit "share") = OK share
        /\ (forall o, share = JObj o ->
              optional_column (assoc (lit "link") o) vl
              /\ optional_column (assoc (lit "share_text") o) vt)
        /\ working (Database.db w') shares
           = working (Database.db w) shares
             ++ [mkrow key [SInt message_id; vl; vt]]).
Proof.
  intros E. destruct (saveMessage_steps accepts item w message_id w' E)
    as (w2 & w3 & w4 & w5 & _ & _ & Eshare & _
        & H2 & H3 & H4 & _ & H6 & _).
  assert (Hsame : working (Database.db w4) shares
                  = working (Database.db w) shares).
  { rewrite H4, H3, H2; try reflexivity; try discriminate.
    unfold Database.attachements. cbn. intuition discriminate. }
  rewrite H6 by discriminate.
  destruct (when_in_inv _ _ _ _ _ Eshare)
    as [(Hno & ->) | (share & _ & Es & Ebody)].
  - left. split; assumption.
  - right. destruct (saveShare_row accepts _ _ _ _ Ebody)
      as (link & share_text & vl & vt & key & El & Et & Evl & Evt & Hrows).
    exists share, vl, vt, key. split; [exact Es |]. split.
    + intros o ->. split; eapply get_or_none_optional; eassumption.
    + rewrite Hrows, Hsame. reflexivity.
Qed.

Lemma saveMessage_stores_sticker_witness :
  (py_contains (lit "sticker") sticker_message = OK false
   /\ working (Database.db
                 (snd (Database._saveMessage accept_all sticker_message
                         fresh_world))) stickers
      = working (Database.db fresh_world) stickers)
  \/ (exists sticker uri v key,
        py_getitem sticker_message (lit "sticker") = OK sticker
        /\ py_getitem sticker (lit "uri") = OK uri
        /\ bind_param uri = OK v
        /\ (forall u, uri = JStr u -> v = SText u)
        /\ working (Database.db
                      (snd (Database._saveMessage accept_all sticker_message
                              fresh_world))) stickers
           = working (Database.db fresh_world) stickers
             ++ [mkrow key [SInt 1; v]]).
Proof.
  apply (saveMessage_stores_sticker accept_all sticker_message fresh_world 1).
  vm_compute. reflexivity.
Defined.

Lemma saveMessage_stores_share_witness :
  (py_contains (lit "share") share_message = OK false
   /\ working (Database.db
                 (snd (Database._saveMessage accept_all share_message
                         fresh_world))) shares
      = working (Database.db fresh_world) shares)
  \/ (exists share vl vt key,
        py_getitem share_message (lit "share") = OK share
        /\ (forall o, share = JObj o ->
              optional_column (assoc (lit "link") o) vl
              /\ optional_column (assoc (lit "share_text") o) vt)
        /\ working (Database.db
                      (snd (Database._saveMessage accept_all share_message
                              fresh_world))) shares
           = working (Database.db fresh_world) shares
             ++ [mkrow key [SInt 1; vl; vt]]).
Proof.
  apply (saveMessage_stores_share accept_all share_message fresh_world 1).
  vm_compute. reflexivity.
Defined.

(** The row of the example share: the link, and NULL for the text. *)
Example share_row_of_example :
  working (Database.db
             (snd (Database._saveMessage accept_all share_message
                     fresh_world))) shares
  = [mkrow 1 [SInt 1; SText (lit "https://example.org/a"); SNull]].
Proof. vm_compute. reflexivity. Qed.

Section ReactionRows.

Variable accepts : table -> list row -> list sqlval -> bool.

Ltac names_extend d0 :=
  stable_by ltac:(first [ apply getParticipantId_extends
                        | apply (insert_same_names accepts (extends d0)) ]).

Lemma reaction_row_extends message_id d d' reaction r :
  extends d d' ->
  reaction_row message_id d reaction r ->
  reaction_row message_id d' reaction r.
Proof.
  intros Hext (actor & symbol & uid & Ea & Es & Hf & Hv).
  exists actor, symbol, uid. repeat split; try assumption. apply Hext, Hf.
Qed.

Lemma reactions_loop_rows message_id records :
  forall w w',
    for_each records (fun reaction =>
      actor <- lift (py_getitem reaction (lit "actor")) ;;
      user_id <- Database._getParticipantId accepts actor ;;
      symbol <- lift (py_getitem reaction (lit "reaction")) ;;
      Database._saveReaction accepts message_id user_id symbol)%st w
    = (OK tt, w') ->
    exists added,
      working (Database.db w') reactions
      = working (Database.db w) reactions ++ added
      /\ Forall2 (reaction_row message_id (names_of w')) records added.
Proof.
  induction records as [| x r IH]; intros w w' E; cbn [for_each] in E.
  - apply ret_OK in E. destruct E as (_ & ->). exists [].
    split; [symmetry; apply app_nil_r | constructor].
  - apply bind_OK in E. destruct E as ([] & wb & Ebody & E).
    destruct (IH wb w' E) as (added & Hrows & Hall).
    assert (Hrest : extends (names_of wb) (names_of w')).
    { refine (_ : (fun w => extends (names_of wb) (names_of w)) w').
      eapply (stable_for_each (fun w => extends (names_of wb) (names_of w)));
        [| apply extends_refl | exact E].
      intros y _. unfold Database._saveReaction.
      names_extend (names_of wb). }
    apply bind_OK in Ebody. destruct Ebody as (actor & s & E1 & Ebody).
    apply lift_OK in E1. destruct E1 as (Eactor & ->).
    apply bind_OK in Ebody. destruct Ebody as (user_id & wa & Eid & Ebody).
    apply bind_OK in Ebody. destruct Ebody as (symbol & s & E1 & Ebody).
    apply lift_OK in E1. destruct E1 as (Esym & ->).
    unfold Database._saveReaction in Ebody.
    apply bind_OK in Ebody. destruct Ebody as (key & wb' & Eins & Ebody).
    apply ret_OK in Ebody. destruct Ebody as (_ & ->).
    destruct (insert_OK accepts _ _ _ _ _ Eins)
      as (vals & Ev & _ & Hrow & Hconv).
    destruct (getParticipantId_found accepts actor w user_id wa Eid)
      as (_ & Hfound).
    destruct (writes_run _ _ _ _ _
                (writes_getParticipantId accepts actor) Eid)
      as (_ & Ha & _).
    exists (mkrow key vals :: added). split.
    + rewrite Hrows, Hrow, Ha, <- app_assoc; [reflexivity |].
      intros [Heq | []]. discriminate Heq.
    + constructor; [| exact Hall].
      exists actor, symbol, user_id. repeat split; try assumption.
      apply Hrest. unfold names_of. rewrite Hconv. exact Hfound.
Qed.

Lemma save_reactions_rows item message_id w w' records :
  save_reactions accepts item message_id w = (OK tt, w') ->
  reaction_records item = OK records ->
  exists added,
    working (Database.db w') reactions
    = working (Database.db w) reactions ++ added
    /\ Forall2 (reaction_row message_id (names_of w')) records added.
Proof.
  unfold save_reactions, reaction_records. intros E Erec.
  destruct (for_each_in_inv _ _ _ _ _ E)
    as [(Hno & ->) | (v & xs & Hyes & Ev & Exs & Eloop)].
  - rewrite Hno in Erec. cbn [rbind] in Erec. apply OK_inj in Erec.
    subst records. exists []. split; [symmetry; apply app_nil_r |
                                      constructor].
  - rewrite Hyes in Erec. cbn [rbind] in Erec. rewrite Ev in Erec.
    cbn [rbind] in Erec. rewrite Exs in Erec. apply OK_inj in Erec.
    subst xs. apply (reactions_loop_rows message_id records w w' Eloop).
Qed.

End ReactionRows.

(** X14: the reactions of a message are stored in order, each under the
    id of its actor.  Saving a message record adds to [reactions] one row
    for each of its reaction records, in their order, holding the id of
    the message, the symbol, and for the actor the id that the
    participant dict holds for that name when the message is saved. *)
Theorem saveMessage_stores_reactions
    (accepts : table -> list row -> list sqlval -> bool)
    (item : json) (w : Database.world) (message_id : Z)
    (w' : Database.world) (records : list json) :
  Database._saveMessage accepts item w = (OK message_id, w') ->
  reaction_records item = OK records ->
  exists added,
    working (Database.db w') reactions
    = working (Database.db w) reactions ++ added
    /\ Forall2 (reaction_row message_id (names_of w')) records added.
Proof.
  intros E Erec.
  destruct (saveMessage_steps accepts item w message_id w' E)
    as (w2 & w3 & w4 & w5 & Er & _ & _ & _
        & H2 & _ & H4 & H5 & H6 & Hext).
  destruct (save_reactions_rows accepts item message_id w2 w3 records
              Er Erec) as (added & Hrows & Hall).
  exists added. split.
  - rewrite H6, H5, H4, Hrows, H2; try reflexivity; try discriminate.
    unfold Database.attachements. cbn. intuition discriminate.
  - apply (Forall2_impl_In _ _ _ _
             (fun x y _ H => reaction_row_extends message_id _ _ x y Hext H)
             Hall).
Qed.

Lemma saveMessage_stores_reactions_witness :
  exists added,
    working (Database.db
               (snd (Database._saveMessage accept_all photo_message
                       fresh_world))) reactions
    = working (Database.db fresh_world) reactions ++ added
    /\ Forall2
         (reaction_row 1
            (names_of (snd (Database._saveMessage accept_all photo_message
                              fresh_world))))
         (unwrap [] (reaction_records photo_message)) added.
Proof.
  apply (saveMessage_stores_reactions accept_all photo_message fresh_world 1).
  - vm_compute. reflexivity.
  - vm_compute. reflexivity.
Defined.

(** X15: a message record writes only the tables it has content for.
    Saving a message never writes [conversations]; and the table of
    reactions, of each of the five attachment kinds, of shares and of
    stickers is left as it was when the record lacks the key of that
    table ([share] and [sticker] for the last two). *)
Theorem saveMessage_leaves_other_tables
    (accepts : table -> list row -> list sqlval -> bool)
    (item : json) (w : Database.world) (message_id : Z)
    (w' : Database.world) :
  Database._saveMessage accepts item w = (OK message_id, w') ->
  working (Database.db w') conversations
  = working (Database.db w) conversations
  /\ forall t k,
       record_key t = Some k -> py_contains k item = OK false ->
       working (Database.db w') t = working (Database.db w) t.
Proof.
  intros E. destruct (saveMessage_steps accepts item w message_id w' E)
    as (w2 & w3 & w4 & w5 & Er & Ea & Eshare & Esticker
        & H2 & H3 & H4 & H5 & H6 & _).
  assert (Hnd : NoDup Database.attachements).
  { unfold Database.attachements.
    repeat constructor; cbn; intuition discriminate. }
  assert (Hatt : forall t, In t Database.attachements ->
                   py_contains (table_name t) item = OK false ->
                   working (Database.db w') t = working (Database.db w) t).
  { intros t Ht Hno.
    destruct (attachements_loop_at accepts item message_id t _ w3 w4
                Hnd Ht Ea) as (wa & wb & Ha & Hab & Hb).
    unfold save_attachements_of in Hab.
    destruct (for_each_in_inv _ _ _ _ _ Hab)
      as [(_ & ->) | (v & xs & Hyes & _)]; [| congruence].
    assert (Hout : t <> participants /\ t <> messages /\ t <> reactions
                   /\ t <> shares /\ t <> stickers).
    { unfold Database.attachements in Ht. cbn in Ht.
      intuition (subst; discriminate). }
    destruct Hout as (O1 & O2 & O3 & O4 & O5).
    rewrite (H6 t O5), (H5 t O4), Hb, Ha, (H3 t O1 O3), (H2 t O1 O2).
    reflexivity. }
  split.
  - rewrite H6, H5, H4, H3, H2; try reflexivity; try discriminate.
    unfold Database.attachements. cbn. intuition discriminate.
  - intros t k Hk Hno.
    destruct t; cbn [record_key] in Hk; try discriminate Hk;
      injection Hk as <-;
      try (apply Hatt; [unfold Database.attachements; cbn; tauto
                       | exact Hno]).
    + destruct (when_in_inv _ _ _ _ _ Eshare)
        as [(_ & ->) | (v & Hyes & _)]; [| congruence].
      rewrite H6, H4, H3, H2; try reflexivity; try discriminate.
      unfold Database.attachements. cbn. intuition discriminate.
    + unfold save_reactions in Er.
      destruct (for_each_in_inv _ _ _ _ _ Er)
        as [(_ & ->) | (v & xs & Hyes & _)]; [| congruence].
      rewrite H6, H5, H4, H2; try reflexivity; try discriminate.
      unfold Database.attachements. cbn. intuition discriminate.
    + destruct (when_in_inv _ _ _ _ _ Esticker)
        as [(_ & ->) | (v & Hyes & _)]; [| congruence].
      rewrite H5, H4, H3, H2; try reflexivity; try discriminate.
      unfold Database.attachements. cbn. intuition discriminate.
Qed.

Lemma saveMessage_leaves_other_tables_witness :
  working (Database.db
             (snd (Database._saveMessage accept_all sticker_message
                     fresh_world))) conversations
  = working (Database.db fresh_world) conversations
  /\ forall t k,
       record_key t = Some k ->
       py_contains k sticker_message = OK false ->
       working (Database.db
                  (snd (Database._saveMessage accept_all sticker_message
                          fresh_world))) t
       = working (Database.db fresh_world) t.
Proof.
  apply (saveMessage_leaves_other_tables accept_all sticker_message
           fresh_world 1).
  vm_compute. reflexivity.
Defined.

(** X16: the row of a message.  Saving a message record adds to
    [messages] exactly one row, under the key that is returned: the
    second from the timestamp, the type, the id that the participant
    dict holds for the sender once the message is saved, the id of the
    conversation, and the content, which is NULL when the record has no
    [content]. *)
Theorem saveMessage_stores_message_row
    (accepts : table -> list row -> list sqlval -> bool)
    (item : json) (w : Database.world) (message_id : Z)
    (w' : Database.world) :
  Database._saveMessage accepts item w = (OK message_id, w') ->
  exists content timestamp_ms epoch sender_name sender_id type vals,
    py_getitem item (lit "timestamp_ms") = OK timestamp_ms
    /\ py_floordiv timestamp_ms 1000 = OK epoch
    /\ py_getitem item (lit "sender_name") = OK sender_name
    /\ py_getitem item (lit "type") = OK type
    /\ Database.get_or_none item (lit "content") = OK content
    /\ (py_contains (lit "content") item = OK false -> content = JNull)
    /\ dict_find sender_name (names_of w') = Some sender_id
    /\ rmap bind_param
         (message_params epoch type sender_id
            (Conversation.id (Database.conversation w)) content) = OK vals
    /\ message_id = next_rowid (working (Database.db w) messages)
    /\ working (Database.db w') messages
       = working (Database.db w) messages ++ [mkrow message_id vals].
Proof.
  intros E.
  destruct (saveMessage_inv accepts item w message_id w' E)
    as (content & timestamp_ms & epoch & sender_name & sender_id & type
        & w1 & w2 & w3 & w4
        & Ec & Ets & Eep & Esn & Eid & Ety & Eins & Er & Ea & Es).
  destruct (saveMessage_row accepts item w message_id w' E)
    as (content' & timestamp_ms' & epoch' & sender_name' & sender_id' & type'
        & vals & Ec' & Ets' & Eep' & Esn' & Ety' & Ev & Hid & Hrows).
  rewrite Ec in Ec'. apply OK_inj in Ec'. subst content'.
  rewrite Ets in Ets'. apply OK_inj in Ets'. subst timestamp_ms'.
  rewrite Eep in Eep'. apply OK_inj in Eep'. subst epoch'.
  rewrite Ety in Ety'. apply OK_inj in Ety'. subst type'.
  destruct (insert_OK accepts _ _ _ _ _ Eins) as (vals1 & Ev1 & _ & Hr1 & _).
  destruct (writes_run _ _ _ _ _
              (writes_getParticipantId accepts sender_name) Eid)
    as (_ & _ & Hcid & _).
  assert (Hvals : rmap bind_param
                    (message_params epoch type sender_id
                       (Conversation.id (Database.conversation w)) content)
                  = OK vals).
  { rewrite <- Hcid, Ev1.
    destruct (writes_run _ _ _ _ _
                (writes_getParticipantId accepts sender_name) Eid)
      as (_ & H1 & _).
    assert (Hm : working (Database.db w') messages
                 = working (Database.db w2) messages).
    { destruct (writes_run _ _ _ _ _
                  (writes_save_reactions accepts item message_id) Er)
        as (_ & H3 & _).
      assert (H4 : same_outside Database.attachements w3 w4).
      { refine (writes_run Database.attachements _ _ _ _ _ Ea).
        intros w0. apply stable_for_each. intros t Ht.
        apply (writes_weaken [t] Database.attachements).
        - intros t' [<- | []]. exact Ht.
        - apply writes_save_attachements_of. }
      destruct H4 as (_ & H4 & _).
      destruct (writes_run _ _ _ _ _
                  (writes_save_share_and_sticker accepts item message_id) Es)
        as (_ & H5 & _).
      rewrite H5, H4, H3; try reflexivity; cbn; intuition discriminate. }
    rewrite Hm, Hr1, H1 in Hrows by (cbn; intuition discriminate).
    apply app_inv_head in Hrows. injection Hrows as ->. reflexivity. }
  exists content, timestamp_ms, epoch, sender_name, sender_id, type, vals.
  repeat (split; [assumption |]). split.
  { intros Hno. unfold Database.get_or_none in Ec. rewrite Hno in Ec.
    cbn [rbind] in Ec. apply OK_inj in Ec. symmetry. exact Ec. }
  split.
  { destruct (getParticipantId_found accepts sender_name w sender_id w1 Eid)
      as (_ & Hfound).
    assert (H12 : extends (names_of w1) (names_of w2)).
    { apply (insert_same_names accepts (extends (names_of w1)) _ _
               w1 (OK message_id) w2 (extends_refl _) Eins). }
    assert (H23 : extends (names_of w2) (names_of w3)).
    { apply (save_reactions_extends accepts (names_of w2) item message_id
               w2 (OK tt) w3 (extends_refl _) Er). }
    assert (H34 : extends (names_of w3) (names_of w4)).
    { apply (save_attachements_extends accepts (names_of w3) item message_id
               w3 (OK tt) w4 (extends_refl _) Ea). }
    assert (H45 : extends (names_of w4) (names_of w')).
    { apply (save_share_and_sticker_extends accepts (names_of w4) item
               message_id w4 (OK tt) w' (extends_refl _) Es). }
    apply H45, H34, H23, H12, Hfound. }
  repeat split; assumption.
Qed.

Lemma saveMessage_stores_message_row_witness :
  exists content timestamp_ms epoch sender_name sender_id type vals,
    py_getitem sticker_message (lit "timestamp_ms") = OK timestamp_ms
    /\ py_floordiv timestamp_ms 1000 = OK epoch
    /\ py_getitem sticker_message (lit "sender_name") = OK sender_name
    /\ py_getitem sticker_message (lit "type") = OK type
    /\ Database.get_or_none sticker_message (lit "content") = OK content
    /\ (py_contains (lit "content") sticker_message = OK false ->
        content = JNull)
    /\ dict_find sender_name
         (names_of (snd (Database._saveMessage accept_all sticker_message
                           fresh_world))) = Some sender_id
    /\ rmap bind_param
         (message_params epoch type sender_id
            (Conversation.id (Database.conversation fresh_world)) content)
       = OK vals
    /\ 1 = next_rowid (working (Database.db fresh_world) messages)
    /\ working (Database.db
                  (snd (Database._saveMessage accept_all sticker_message
                          fresh_world))) messages
       = working (Database.db fresh_world) messages ++ [mkrow 1 vals].
Proof.
  apply (saveMessage_stores_message_row accept_all sticker_message
           fresh_world 1).
  vm_compute. reflexivity.
Defined.

(** ** Saving a conversation: its row, and the ids of a run *)

Section ConversationRows.

Variable accepts : table -> list row -> list sqlval -> bool.

Lemma save_conversation_row item c r c' :
  Database.save accepts item c = (OK r, c') ->
  exists title thread_type thread_path vt vy vp,
    py_getitem (JObj (Conversation.metadata item)) (lit "title") = OK title
    /\ py_getitem (JObj (Conversation.metadata item)) (lit "thread_type")
       = OK thread_type
    /\ py_getitem (JObj (Conversation.metadata item)) (lit "thread_path")
       = OK thread_path
    /\ bind_param title = OK vt
    /\ bind_param thread_type = OK vy
    /\ bind_param thread_path = OK vp
    /\ committed c' conversations
       = working c conversations
         ++ [mkrow (next_rowid (working c conversations))
               [SInt (Conversation.id item); vt; vy; vp]].
Proof.
  intros E. destruct (save_inv accepts item c _ c' E) as (w' & Ew & ->).
  destruct (saveConversation_inv accepts _ r w' Ew)
    as (title & thread_type & thread_path & key & w1 & w2
        & Et & Ey & Ep & Eins & Eroster & Emsgs).
  cbn [Database.conversation Database.db] in Et, Ey, Ep, Eins, Eroster.
  destruct (insert_OK accepts _ _ _ _ _ Eins)
    as (vals & Ev & Hkey & Hrows & _).
  cbn [Database.db] in Hkey, Hrows.
  destruct (writes_run _ _ _ _ _ (writes_save_roster accepts _ _) Eroster)
    as (_ & H2 & _).
  destruct (writes_run _ _ _ _ _ (writes_save_messages accepts _ _) Emsgs)
    as (_ & H3 & _).
  unfold conversation_params, Database.py_int in Ev.
  cbn [rmap bind_param] in Ev.
  destruct ((- 2 ^ 63 <=? Conversation.id item)
            && (Conversation.id item <? 2 ^ 63)); [| discriminate Ev].
  cbn [rbind] in Ev.
  destruct (bind_param title) as [vt |] eqn:Bt; [| discriminate Ev].
  destruct (bind_param thread_type) as [vy |] eqn:By; [| discriminate Ev].
  destruct (bind_param thread_path) as [vp |] eqn:Bp; [| discriminate Ev].
  cbn [rbind] in Ev. apply OK_inj in Ev. subst vals key.
  exists title, thread_type, thread_path, vt, vy, vp.
  repeat (split; [first [assumption | reflexivity] |]).
  cbn [committed].
  rewrite H3 by (cbn; intuition discriminate).
  rewrite H2 by (cbn; intuition discriminate).
  exact Hrows.
Qed.

Lemma save_first_column item c r c' :
  committed c = working c ->
  Database.save accepts item c = (OK r, c') ->
  committed c' = working c'
  /\ map first_column (committed c' conversations)
     = map first_column (committed c conversations)
       ++ [SInt (Conversation.id item)].
Proof.
  intros Hc E. split; [apply (save_OK accepts item c r c' E) |].
  destruct (save_conversation_row item c r c' E)
    as (title & thread_type & thread_path & vt & vy & vp
        & _ & _ & _ & _ & _ & _ & Hrows).
  rewrite Hrows, Hc, map_app. reflexivity.
Qed.

Lemma save_all_first_columns convs i c c' :
  committed c = working c ->
  Database.save_all accepts convs i c = (OK tt, c') ->
  committed c' = working c'
  /\ map first_column (committed c' conversations)
     = map first_column (committed c conversations)
       ++ map (fun n => SInt (i + Z.of_nat n)) (seq 0 (List.length convs)).
Proof.
  revert i c. induction convs as [| conv r IH]; intros i c Hc;
    cbn [Database.save_all].
  - intros E. apply ret_OK in E. destruct E as (_ & ->).
    split; [exact Hc |]. cbn. rewrite app_nil_r. reflexivity.
  - intros E. apply bind_OK in E. destruct E as (res & c1 & E1 & E).
    destruct (save_first_column _ c res c1 Hc E1) as (Hc1 & H1).
    destruct (IH _ c1 Hc1 E) as (Hc' & H').
    split; [exact Hc' |]. rewrite H', H1. cbn [Conversation.set_id
      Conversation.id List.length seq map]. rewrite <- app_assoc.
    cbn [app]. rewrite Z.add_0_r. do 2 f_equal.
    rewrite <- seq_shift, map_map. apply map_ext. intros n. f_equal. lia.
Qed.

(** Where [save_all] stops. *)
Lemma save_all_Raise convs i c e c' :
  Database.save_all accepts convs i c = (Raise e, c') ->
  exists done conv rest c1,
    convs = done ++ conv :: rest
    /\ Database.save_all accepts done i c = (OK tt, c1)
    /\ Database.save accepts
         (Conversation.set_id conv (i + Z.of_nat (List.length done))) c1
       = (Raise e, c')
    /\ committed c' = committed c1.
Proof.
  revert i c. induction convs as [| conv r IH]; intros i c;
    cbn [Database.save_all]; [discriminate |].
  unfold bind at 1.
  destruct (Database.save accepts (Conversation.set_id conv i) c)
    as [[res | e1] c1] eqn:E1.
  - intros E. destruct (IH _ _ E) as (done & conv' & rest & c2 & -> & Ed & Es & Hc).
    exists (conv :: done), conv', rest, c2. split; [reflexivity |].
    split; [| split; [| exact Hc]].
    + cbn [Database.save_all]. unfold bind at 1. rewrite E1. exact Ed.
    + replace (i + Z.of_nat (List.length (conv :: done)))
        with (i + 1 + Z.of_nat (List.length done))
        by (cbn [List.length]; lia).
      exact Es.
  - intros E. injection E as <- <-.
    exists [], conv, r, c. split; [reflexivity |].
    split; [reflexivity |]. cbn [List.length Z.of_nat].
    rewrite Z.add_0_r. split; [exact E1 |].
    apply (save_Raise accepts _ c e1 c1 E1).
Qed.

End ConversationRows.

(** X17: the row of a conversation.  When [save] returns, the committed
    table [conversations] is the one the transaction had plus one row
    under the next key: the id of the conversation object, then the
    title, the thread type and the thread path of its metadata as SQLite
    binds them. *)
Theorem save_stores_conversation_row
    (accepts : table -> list row -> list sqlval -> bool)
    (item : Conversation.t) (c : conn) (r : Database.pyret) (c' : conn) :
  Database.save accepts item c = (OK r, c') ->
  exists title thread_type thread_path vt vy vp,
    py_getitem (JObj (Conversation.metadata item)) (lit "title") = OK title
    /\ py_getitem (JObj (Conversation.metadata item)) (lit "thread_type")
       = OK thread_type
    /\ py_getitem (JObj (Conversation.metadata item)) (lit "thread_path")
       = OK thread_path
    /\ bind_param title = OK vt
    /\ bind_param thread_type = OK vy
    /\ bind_param thread_path = OK vp
    /\ committed c' conversations
       = working c conversations
         ++ [mkrow (next_rowid (working c conversations))
               [SInt (Conversation.id item); vt; vy; vp]].
Proof. apply save_conversation_row. Qed.

Lemma save_stores_conversation_row_witness :
  exists title thread_type thread_path vt vy vp,
    py_getitem (JObj (Conversation.metadata trip)) (lit "title") = OK title
    /\ py_getitem (JObj (Conversation.metadata trip)) (lit "thread_type")
       = OK thread_type
    /\ py_getitem (JObj (Conversation.metadata trip)) (lit "thread_path")
       = OK thread_path
    /\ bind_param title = OK vt
    /\ bind_param thread_type = OK vy
    /\ bind_param thread_path = OK vp
    /\ committed (snd (Database.save accept_all trip empty_conn))
         conversations
       = working empty_conn conversations
         ++ [mkrow (next_rowid (working empty_conn conversations))
               [SInt (Conversation.id trip); vt; vy; vp]].
Proof.
  apply (save_stores_conversation_row accept_all trip empty_conn
           (Database.RInt 2)).
  vm_compute. reflexivity.
Defined.

(** X18: a run numbers the conversations.  When the run succeeds, the
    first column of the committed table [conversations] reads 0, 1, ...,
    N - 1 for N conversations, in the order in which they were saved,
    whatever ids the conversation objects had before. *)
Theorem run_numbers_conversations
    (accepts : table -> list row -> list sqlval -> bool)
    (convs : list Conversation.t) (c c' : conn) :
  Database.run accepts convs c = (OK tt, c') ->
  map first_column (committed c' conversations)
  = map (fun n => SInt (Z.of_nat n)) (seq 0 (List.length convs)).
Proof.
  unfold Database.run, bind. rewrite removeAll_empties. intros E.
  destruct (save_all_first_columns accepts convs 0 empty_conn c' eq_refl E)
    as (_ & H).
  exact H.
Qed.

Lemma run_numbers_conversations_witness :
  map first_column
    (committed (snd (Database.run accept_all [trip; trip] used_conn))
       conversations)
  = map (fun n => SInt (Z.of_nat n)) (seq 0 (List.length [trip; trip])).
Proof.
  apply (run_numbers_conversations accept_all [trip; trip] used_conn).
  vm_compute. reflexivity.
Defined.

(** X19: a run that fails keeps what it saved before.  When the run
    raises, it raised while saving one conversation; the conversations
    before it are committed as a run over them alone commits them, and
    nothing of the failing conversation or of those after it is. *)
Theorem run_keeps_saved_conversations
    (accepts : table -> list row -> list sqlval -> bool)
    (convs : list Conversation.t) (c : conn) (e : exn) (c' : conn) :
  Database.run accepts convs c = (Raise e, c') ->
  exists done conv rest c1,
    convs = done ++ conv :: rest
    /\ Database.run accepts done c = (OK tt, c1)
    /\ Database.save accepts
         (Conversation.set_id conv (Z.of_nat (List.length done))) c1
       = (Raise e, c')
    /\ committed c' = committed c1.
Proof.
  unfold Database.run, bind. rewrite removeAll_empties. intros E.
  destruct (save_all_Raise accepts convs 0 empty_conn e c' E)
    as (done & conv & rest & c1 & Hc & Ed & Es & Hcm).
  exists done, conv, rest, c1. repeat split; assumption.
Qed.

Lemma run_keeps_saved_conversations_witness :
  exists done conv rest c1,
    [trip; broken_trip; trip] = done ++ conv :: rest
    /\ Database.run accept_all done used_conn = (OK tt, c1)
    /\ Database.save accept_all
         (Conversation.set_id conv (Z.of_nat (List.length done))) c1
       = (Raise InterfaceError,
          snd (Database.run accept_all [trip; broken_trip; trip] used_conn))
    /\ committed
         (snd (Database.run accept_all [trip; broken_trip; trip] used_conn))
       = committed c1.
Proof.
  apply (run_keeps_saved_conversations accept_all [trip; broken_trip; trip]
           used_conn InterfaceError).
  vm_compute. reflexivity.
Defined.

(** ** The script *)

Lemma loadMessages_set_id c i doc :
  Conversation.loadMessages (Conversation.set_id c i) doc
  = (c' <- Conversation.loadMessages c doc ;;
     OK (Conversation.set_id c' i))%result.
Proof.
  unfold Conversation.loadMessages.
  cbn [Conversation.set_id Conversation.metadata Conversation.participants
       Conversation.directory Conversation.chunks_loaded
       Conversation.messages Conversation.id].
  destruct (py_getitem doc (lit "title")) as [title |]; [| reflexivity].
  destruct (py_getitem doc (lit "thread_type")) as [thread_type |];
    [| reflexivity].
  destruct (py_getitem doc (lit "thread_path")) as [thread_path |];
    [| reflexivity].
  cbn [rbind].
  destruct (Conversation.metadata c) as [| m ms] eqn:Hm.
  - destruct (py_getitem doc (lit "participants")) as [roster |];
      [| reflexivity].
    cbn [rbind].
    destruct (py_iter roster) as [ps |]; [| reflexivity]. cbn [rbind].
    destruct (Conversation.register ps (Conversation.participants c))
      as [d |]; [| reflexivity].
    cbn [rbind Conversation.metadata Conversation.participants
         Conversation.directory Conversation.chunks_loaded
         Conversation.messages Conversation.id].
    destruct (py_getitem doc (lit "messages")) as [msgs |]; [| reflexivity].
    cbn [rbind]. destruct (py_iter msgs) as [more |]; reflexivity.
  - destruct (py_eqb _ _); [| reflexivity].
    cbn [rbind Conversation.set_id Conversation.metadata
         Conversation.participants Conversation.directory
         Conversation.chunks_loaded Conversation.messages Conversation.id].
    destruct (py_getitem doc (lit "messages")) as [msgs |]; [| reflexivity].
    cbn [rbind]. destruct (py_iter msgs) as [more |]; reflexivity.
Qed.

Lemma loadAll_set_id docs c i :
  Conversation.loadAll (Conversation.set_id c i) docs
  = (c' <- Conversation.loadAll c docs ;;
     OK (Conversation.set_id c' i))%result.
Proof.
  revert c. induction docs as [| d r IH]; intros c;
    cbn [Conversation.loadAll]; [reflexivity |].
  rewrite loadMessages_set_id.
  destruct (Conversation.loadMessages c d) as [c1 |]; [| reflexivity].
  cbn [rbind]. apply IH.
Qed.

Section ScriptRuns.

Variable accepts : table -> list row -> list sqlval -> bool.
Variable listdir : pystr -> list pystr.
Variable parsed : pystr -> json.

Lemma load_paths_loadAll paths docs c :
  rmap loadJson (map parsed paths) = OK docs ->
  Script.load_paths parsed paths c = Conversation.loadAll c docs.
Proof.
  revert docs c. induction paths as [| p r IH]; intros docs c;
    cbn [map rmap Script.load_paths].
  - intros E. apply OK_inj in E. subst docs. reflexivity.
  - destruct (loadJson (parsed p)) as [doc |]; [| discriminate].
    cbn [rbind].
    destruct (rmap loadJson (map parsed r)) as [docs' |]; [| discriminate].
    cbn [rbind]. intros E. apply OK_inj in E. subst docs.
    cbn [Conversation.loadAll].
    destruct (Conversation.loadMessages c doc) as [c1 |]; [| reflexivity].
    cbn [rbind]. apply IH. reflexivity.
Qed.

Lemma load_directory_loads i d conv :
  loads listdir parsed d conv ->
  Script.load_directory listdir parsed i d = OK (Conversation.set_id conv i).
Proof.
  intros (docs & Ed & El). unfold Script.load_directory.
  rewrite (load_paths_loadAll _ docs _ Ed), loadAll_set_id, El.
  reflexivity.
Qed.

Lemma main_loop_save_all dirs convs i c :
  Forall2 (loads listdir parsed) dirs convs ->
  Script.main_loop accepts listdir parsed dirs i c
  = Database.save_all accepts convs i c.
Proof.
  intros H. revert i c.
  induction H as [| d conv dirs convs Hd _ IH]; intros i c;
    cbn [Script.main_loop Database.save_all]; [reflexivity |].
  rewrite (load_directory_loads i d conv Hd).
  unfold bind, lift.
  destruct (Database.save accepts (Conversation.set_id conv i) c)
    as [[res | e] c1]; [apply IH | reflexivity].
Qed.

Lemma main_loop_app done rest i c :
  Script.main_loop accepts listdir parsed (done ++ rest) i c
  = match Script.main_loop accepts listdir parsed done i c with
    | (OK _, c1) =>
        Script.main_loop accepts listdir parsed rest
          (i + Z.of_nat (List.length done)) c1
    | (Raise e, c1) => (Raise e, c1)
    end.
Proof.
  revert i c. induction done as [| d r IH]; intros i c;
    cbn [app Script.main_loop List.length].
  - unfold ret. rewrite Z.add_0_r. reflexivity.
  - unfold bind, lift.
    destruct (Script.load_directory listdir parsed i d) as [conv |];
      [| reflexivity].
    destruct (Database.save accepts conv c) as [[res | e] c1];
      [| reflexivity].
    rewrite IH.
    replace (i + 1 + Z.of_nat (List.length r))
      with (i + Z.of_nat (S (List.length r))) by lia.
    reflexivity.
Qed.

Lemma main_after done rest entries convs c c1 :
  getSubdirectories entries = done ++ rest ->
  Forall2 (loads listdir parsed) done convs ->
  Database.run accepts convs c = (OK tt, c1) ->
  Script.main accepts listdir parsed entries c
  = Script.main_loop accepts listdir parsed rest
      (Z.of_nat (List.length done)) c1.
Proof.
  intros Hs Hd. unfold Script.main, Database.run, bind.
  rewrite removeAll_empties, Hs, main_loop_app.
  rewrite (main_loop_save_all done convs 0 empty_conn Hd).
  intros ->. reflexivity.
Qed.

End ScriptRuns.

(** X20: the script is a run over what it loads.  When every
    subdirectory of the root loads, the script does to the database what
    [run] does with the loaded conversations, in the order of the
    listing: the entries of the root that are not directories play no
    part, and the id that the script gives a conversation before it
    loads the chunks is the id it is saved under. *)
Theorem main_is_run_over_loaded
    (accepts : table -> list row -> list sqlval -> bool)
    (listdir : pystr -> list pystr) (parsed : pystr -> json)
    (entries : list (pystr * bool)) (convs : list Conversation.t)
    (c : conn) :
  Forall2 (loads listdir parsed) (getSubdirectories entries) convs ->
  Script.main accepts listdir parsed entries c
  = Database.run accepts convs c.
Proof.
  intros H. unfold Script.main, Database.run, bind.
  rewrite removeAll_empties.
  apply (main_loop_save_all accepts listdir parsed _ convs 0 empty_conn H).
Qed.

(** X21: a directory without chunk files stops the script.  When the
    directories before it load and are saved, and no file name of the
    directory has both [.json] and [message] in it, the script raises
    [KeyError] at that directory: the conversation has no metadata to
    save.  The database is left with the conversations before it, and
    the directories after it are not read. *)
Theorem main_stops_at_directory_without_chunks
    (accepts : table -> list row -> list sqlval -> bool)
    (listdir : pystr -> list pystr) (parsed : pystr -> json)
    (entries : list (pystr * bool)) (done : list pystr) (d : pystr)
    (rest : list pystr) (convs : list Conversation.t) (c c1 : conn) :
  getSubdirectories entries = done ++ d :: rest ->
  Forall2 (loads listdir parsed) done convs ->
  Forall (fun filename => isMessageFile filename = false) (listdir d) ->
  Database.run accepts convs c = (OK tt, c1) ->
  Script.main accepts listdir parsed entries c = (Raise KeyError, c1).
Proof.
  intros Hs Hd Hno Hrun.
  rewrite (main_after accepts listdir parsed done (d :: rest) entries convs
             c c1 Hs Hd Hrun).
  cbn [Script.main_loop]. unfold Script.load_directory, getMessagePaths.
  assert (Hf : filter isMessageFile (listdir d) = []).
  { induction Hno as [| f fs Hf _ IH]; cbn [filter]; [reflexivity |].
    rewrite Hf. exact IH. }
  rewrite Hf. cbn [map Script.load_paths]. unfold bind at 1, lift.
  unfold bind at 1.
  rewrite (save_without_metadata accepts
             (Conversation.set_id (Conversation.init d)
                (Z.of_nat (List.length done))) c1 eq_refl).
  reflexivity.
Qed.

(** X22: a directory that does not load stops the script before it
    writes.  When the directories before it load and are saved, and
    loading the chunks of the directory raises, the script raises the
    same exception, and the database and its open transaction are as
    the conversations before it left them. *)
Theorem main_stops_at_unloadable_directory
    (accepts : table -> list row -> list sqlval -> bool)
    (listdir : pystr -> list pystr) (parsed : pystr -> json)
    (entries : list (pystr * bool)) (done : list pystr) (d : pystr)
    (rest : list pystr) (convs : list Conversation.t) (c c1 : conn)
    (e : exn) :
  getSubdirectories entries = done ++ d :: rest ->
  Forall2 (loads listdir parsed) done convs ->
  Script.load_directory listdir parsed (Z.of_nat (List.length done)) d
  = Raise e ->
  Database.run accepts convs c = (OK tt, c1) ->
  Script.main accepts listdir parsed entries c = (Raise e, c1)
  /\ committed c1 = working c1.
Proof.
  intros Hs Hd He Hrun. split.
  - rewrite (main_after accepts listdir parsed done (d :: rest) entries
               convs c c1 Hs Hd Hrun).
    cbn [Script.main_loop]. unfold bind at 1, lift. rewrite He.
    reflexivity.
  - unfold Database.run, bind in Hrun. rewrite removeAll_empties in Hrun.
    apply (save_all_conversations accepts convs 0 empty_conn c1 eq_refl Hrun).
Qed.

Lemma main_is_run_over_loaded_witness :
  Script.main accept_all example_listdir example_parsed example_entries
    used_conn
  = Database.run accept_all [trip; Conversation.init empty_dir] used_conn.
Proof.
  apply (main_is_run_over_loaded accept_all example_listdir example_parsed
           example_entries [trip; Conversation.init empty_dir] used_conn).
  repeat constructor.
  - exists [loaded_1; loaded_2]. split; vm_compute; reflexivity.
  - exists []. split; vm_compute; reflexivity.
Defined.

Lemma main_stops_at_directory_without_chunks_witness :
  Script.main accept_all example_listdir example_parsed example_entries
    used_conn
  = (Raise KeyError, snd (Database.run accept_all [trip] used_conn)).
Proof.
  apply (main_stops_at_directory_without_chunks accept_all example_listdir
           example_parsed example_entries [trip_dir] empty_dir [] [trip]
           used_conn).
  - reflexivity.
  - repeat constructor.
    exists [loaded_1; loaded_2]. split; vm_compute; reflexivity.
  - vm_compute. repeat constructor.
  - vm_compute. reflexivity.
Defined.

Lemma main_stops_at_unloadable_directory_witness :
  Script.main accept_all example_listdir mixed_parsed example_entries
    used_conn
  = (Raise AssertionError, empty_conn)
  /\ committed empty_conn = working empty_conn.
Proof.
  apply (main_stops_at_unloadable_directory accept_all example_listdir
           mixed_parsed example_entries [] trip_dir [empty_dir] []
           used_conn empty_conn AssertionError).
  - reflexivity.
  - constructor.
  - vm_compute. reflexivity.
  - vm_compute. reflexivity.
Defined.

(** ** The messages of a conversation, in order *)

Section MessagesInOrder.

Variable accepts : table -> list row -> list sqlval -> bool.

Lemma last_default {A} (y d d' : A) l : last (y :: l) d = last (y :: l) d'.
Proof.
  revert y. induction l as [| z l IH]; intros y; [reflexivity |].
  change (last (z :: l) d = last (z :: l) d'). apply IH.
Qed.

Lemma last_cons_default {A} (x d : A) l : last (x :: l) d = last l x.
Proof.
  destruct l as [| y l]; [reflexivity |].
  change (last (y :: l) d = last (y :: l) x). apply last_default.
Qed.

Lemma save_messages_rows msgs :
  forall result w r w',
    positive_keys (working (Database.db w) messages) ->
    Database.truthy result = true ->
    Database.save_messages accepts msgs result w = (OK r, w') ->
    exists added,
      working (Database.db w') messages
      = working (Database.db w) messages ++ added
      /\ Forall2 (message_row (Conversation.id (Database.conversation w)))
           msgs added
      /\ r = last_key added result.
Proof.
  induction msgs as [| message rest IH]; intros result w r w' Hpos Ht E.
  - cbn [Database.save_messages] in E. apply ret_OK in E.
    destruct E as (-> & ->). exists []. rewrite app_nil_r.
    repeat split. constructor.
  - cbn [Database.save_messages] in E. rewrite Ht in E.
    apply bind_OK in E. destruct E as (result' & w1' & E1 & E).
    apply bind_OK in E1. destruct E1 as (message_id & w1 & Emsg & E1).
    apply ret_OK in E1. destruct E1 as (-> & ->).
    destruct (saveMessage_row accepts message w message_id w1 Emsg)
      as (content & timestamp_ms & epoch & sender_name & sender_id & type
          & vals & Ec & Ets & Eep & _ & Ety & Ev & Hid & Hrows).
    destruct (writes_run _ _ _ _ _ (writes_saveMessage accepts message) Emsg)
      as (_ & _ & Hcid & _).
    assert (Hmid : 0 < message_id).
    { rewrite Hid. apply next_rowid_positive, Hpos. }
    destruct (IH (Database.RInt message_id) w1 r w')
      as (added & Hadd & Hall & Hr).
    + rewrite Hrows. apply Forall_app. split; [exact Hpos |].
      repeat constructor. exact Hmid.
    + cbn [Database.truthy]. destruct (Z.eqb_spec message_id 0);
        [lia | reflexivity].
    + exact E.
    + exists (mkrow message_id vals :: added). split; [| split].
      * rewrite Hadd, Hrows, <- app_assoc. reflexivity.
      * constructor.
        -- exists content, timestamp_ms, epoch, type, sender_id.
           repeat (split; [assumption |]). exact Ev.
        -- rewrite <- Hcid. exact Hall.
      * rewrite Hr. unfold last_key. cbn [map rowid].
        symmetry. apply last_cons_default.
Qed.

End MessagesInOrder.

(** X23: the messages of a conversation are stored in order.  When
    [save] returns, into a [messages] table whose keys are positive, the
    committed table is the one the transaction had, followed by one row
    for each message of the conversation, in the order of the list; each
    row is the row of its message and refers to the conversation by its
    id.  No message is skipped, and what [save] returns is the key of
    the last row, or the cursor when the conversation has no message. *)
Theorem save_stores_messages_in_order
    (accepts : table -> list row -> list sqlval -> bool)
    (item : Conversation.t) (c : conn) (r : Database.pyret) (c' : conn) :
  positive_keys (working c messages) ->
  Database.save accepts item c = (OK r, c') ->
  exists added,
    committed c' messages = working c messages ++ added
    /\ Forall2 (message_row (Conversation.id item))
         (Conversation.messages item) added
    /\ r = last_key added Database.RCursor.
Proof.
  intros Hpos E. destruct (save_inv accepts item c _ c' E) as (w' & Ew & ->).
  destruct (saveConversation_inv accepts _ r w' Ew)
    as (title & thread_type & thread_path & key & w1 & w2
        & _ & _ & _ & Eins & Eroster & Emsgs).
  cbn [Database.conversation Database.db] in Eins, Eroster, Emsgs.
  destruct (writes_run _ _ _ _ _ (writes_insert accepts _ _) Eins)
    as (_ & H1 & I1 & M1 & _).
  destruct (writes_run _ _ _ _ _ (writes_save_roster accepts _ _) Eroster)
    as (_ & H2 & I2 & M2 & _).
  cbn [Database.conversation Database.db] in H1, I1, M1.
  assert (H12 : working (Database.db w2) messages = working c messages).
  { rewrite H2, H1 by (cbn; intuition discriminate). reflexivity. }
  destruct (save_messages_rows accepts (Conversation.messages item)
              Database.RCursor w2 r w') as (added & Hadd & Hall & Hr).
  - rewrite H12. exact Hpos.
  - reflexivity.
  - exact Emsgs.
  - exists added. cbn [committed]. rewrite Hadd, H12.
    split; [reflexivity |]. split; [| exact Hr].
    rewrite I2, I1 in Hall. exact Hall.
Qed.

Lemma save_stores_messages_in_order_witness :
  exists added,
    committed (snd (Database.save accept_all trip used_conn)) messages
    = working used_conn messages ++ added
    /\ Forall2 (message_row (Conversation.id trip))
         (Conversation.messages trip) added
    /\ Database.RInt 4 = last_key added Database.RCursor.
Proof.
  apply (save_stores_messages_in_order accept_all trip used_conn
           (Database.RInt 4)).
  - vm_compute. repeat constructor.
  - vm_compute. reflexivity.
Defined.
